(** * A shallow embedding of the [pqueue] Go package

    The package keeps a job queue in a directory tree: the state of a job
    is the directory it lives in, and every state change is a rename.
    The embedding below follows [pqueue.go]:

    - the file system is a finite map from paths (lists of components) to
      nodes (directories and files); the system calls the package uses
      ([mkdir], [rename], [remove], [open]+[readdirnames], [ReadFile],
      [CreateTemp], [MkdirTemp], [Write], [Close], [kill]) are pure
      functions on it, with the POSIX error cases the code can observe;
    - the process runs in a state monad over a [World]: the file system,
      the process id, the answer of [kill(pid, 0)] for every pid, a list
      of injected I/O faults (one entry per system call, [None] = no fault),
      the stream of pseudo-random numbers and the log;
    - Go's [(value, error)] returns are kept as pairs, and methods on
      [*Job] return the job record as it is after the call.

    Paths are absolute and resolved from the root; [path.Join] is the
    clean-and-append [pjoin]. *)

From Stdlib Require Import String Ascii ZArith.

From stdpp Require Import base gmap list strings.

Open Scope list_scope.

(* ------------------------------------------------------------------ *)

(** ** Strings, paths and decimal numbers *)

Definition is_slash (c : ascii) : bool := Ascii.eqb c "/"%char.

Fixpoint has_slash (s : string) : bool :=
  match s with
  | EmptyString => false
  | String c s' => is_slash c || has_slash s'
  end.

(** A path component as a directory entry can carry it. *)
Definition plain (c : string) : bool :=
  negb (String.eqb c "") && negb (String.eqb c ".") && negb (String.eqb c "..")
  && negb (has_slash c).

Abbreviation path := (list string).

(** Splitting a string at its slashes; [cur] is the component read so far. *)
Fixpoint split_slash_aux (cur : string) (s : string) : list string :=
  match s with
  | EmptyString => [cur]
  | String c s' =>
      if is_slash c then cur :: split_slash_aux "" s'
      else split_slash_aux (String.append cur (String c "")) s'
  end.

Definition split_slash (s : string) : list string := split_slash_aux "" s.

(** One step of [path.Clean] on a rooted path: empty and [.] components
    vanish, [..] drops the last component (and stays at the root). *)
Definition push_comp (p : path) (c : string) : path :=
  if String.eqb c "" then p
  else if String.eqb c "." then p
  else if String.eqb c ".." then removelast p
  else p ++ [c].

(** [path.Join(p, s)] for a rooted, clean [p]. *)
Definition pjoin (p : path) (s : string) : path :=
  fold_left push_comp (split_slash s) p.

(** [path.Base] of a clean rooted path. *)
Definition pbase (p : path) : string :=
  match last p with Some c => c | None => "/" end.

(** Decimal digits, as [strconv.Itoa] prints them. *)
Definition digit_char (d : N) : ascii := ascii_of_N (48 + d).

Fixpoint digits_aux (fuel : nat) (n : N) (acc : string) : string :=
  match fuel with
  | O => acc
  | S f =>
      let acc' := String (digit_char (n mod 10)) acc in
      if (n / 10 =? 0)%N then acc' else digits_aux f (n / 10) acc'
  end.

Definition utoa (n : N) : string := digits_aux (S (N.size_nat n)) n "".

(** [strconv.Itoa]. *)
Definition itoa (z : Z) : string :=
  if (z <? 0)%Z then String "-" (utoa (Z.to_N (- z))) else utoa (Z.to_N z).

Definition digit_val (c : ascii) : option N :=
  let n := N_of_ascii c in
  if (48 <=? n)%N && (n <=? 57)%N then Some (n - 48)%N else None.

Fixpoint parse_digits (s : string) (acc : N) : option N :=
  match s with
  | EmptyString => Some acc
  | String c s' =>
      match digit_val c with
      | Some d => parse_digits s' (acc * 10 + d)%N
      | None => None
      end
  end.

Definition in_int64 (z : Z) : bool :=
  (- 2 ^ 63 <=? z)%Z && (z <? 2 ^ 63)%Z.

(** [strconv.Atoi] on a 64-bit platform: an optional sign, then at least
    one decimal digit (no underscores in base 10), within [int] range. *)
Definition atoi (s : string) : option Z :=
  let '(neg, body) :=
    match s with
    | String c b =>
        if Ascii.eqb c "-"%char then (true, b)
        else if Ascii.eqb c "+"%char then (false, b)
        else (false, s)
    | EmptyString => (false, s)
    end in
  match body with
  | EmptyString => None
  | _ =>
      match parse_digits body 0 with
      | None => None
      | Some n =>
          let z := if neg then (- Z.of_N n)%Z else Z.of_N n in
          if in_int64 z then Some z else None
      end
  end.

(* ------------------------------------------------------------------ *)

(** ** The file system *)

Inductive node :=
| NDir
| NFile (data : list Byte.byte).

#[global] Instance byte_eq_dec : EqDecision Byte.byte := Byte.byte_eq_dec.

#[global] Instance node_eq_dec : EqDecision node.
Proof. solve_decision. Defined.

Abbreviation FS := (gmap path node).

(** The errors the system calls of the package can report.
    [ErrPatternHasSeparator] is the error of [os.CreateTemp] and
    [os.MkdirTemp] for a pattern containing a slash. *)
Inductive errno :=
| ENOENT | EEXIST | ENOTDIR | EISDIR | ENOTEMPTY | EINVAL | EBADF | EIO
| EACCES | EPERM | ESRCH | ErrPatternHasSeparator.

#[global] Instance errno_eq_dec : EqDecision errno.
Proof. solve_decision. Defined.

(** [os.IsNotExist] and [os.IsExist] on a [syscall.Errno]. *)
Definition is_not_exist (e : errno) : bool :=
  match e with ENOENT => true | _ => false end.

Definition is_exist (e : errno) : bool :=
  match e with EEXIST | ENOTEMPTY => true | _ => false end.

(** Path resolution: the components of [rest] are looked up one by one
    below [seen]; the first missing one gives [ENOENT], the first file
    [ENOTDIR]. *)
Fixpoint walk_dirs (fs : FS) (seen rest : path) : option errno :=
  match rest with
  | [] => None
  | c :: r =>
      match fs !! (seen ++ [c]) with
      | Some NDir => walk_dirs fs (seen ++ [c]) r
      | Some (NFile _) => Some ENOTDIR
      | None => Some ENOENT
      end
  end.

(** The error of a lookup of a missing path [p]: [ENOTDIR] when the walk
    to its parent meets a file, [ENOENT] otherwise. *)
Definition missing_err (fs : FS) (p : path) : errno :=
  match walk_dirs fs [] (removelast p) with Some ENOTDIR => ENOTDIR | _ => ENOENT end.

(** Resolving [d] as a directory: the root always is one. *)
Definition dir_status (fs : FS) (d : path) : option errno :=
  match d with
  | [] => None
  | _ =>
      match fs !! d with
      | Some NDir => None
      | Some (NFile _) => Some ENOTDIR
      | None => Some (missing_err fs d)
      end
  end.

Definition child_of (p k : path) : option string :=
  if decide (p `prefix_of` k) then
    match drop (length p) k with [c] => Some c | _ => None end
  else None.

(** The entry names of directory [p]. *)
Definition children (fs : FS) (p : path) : list string :=
  omap (fun kv => child_of p kv.1) (map_to_list fs).

(** [mkdir(2)]. *)
Definition fs_mkdir (p : path) (fs : FS) : option errno * FS :=
  match p with
  | [] => (Some EEXIST, fs)
  | _ =>
      match dir_status fs (removelast p) with
      | Some e => (Some e, fs)
      | None =>
          match fs !! p with
          | Some _ => (Some EEXIST, fs)
          | None => (None, <[p := NDir]> fs)
          end
      end
  end.

(** Moving the subtree at [src] to [dst]; whatever was at [dst] (an empty
    directory or a file) is replaced. *)
Definition rekey (src dst k : path) : path :=
  if decide (src `prefix_of` k) then dst ++ drop (length src) k else k.

Definition move_tree (src dst : path) (fs : FS) : FS :=
  list_to_map
    (omap (fun kv : path * node =>
             if decide (dst `prefix_of` kv.1) then None
             else Some (rekey src dst kv.1, kv.2))
          (map_to_list fs)).

(** [rename(2)]: both parents are resolved first, then the source is
    looked up. *)
Definition sys_rename (src dst : path) (fs : FS) : option errno * FS :=
  match dir_status fs (removelast src) with
  | Some e => (Some e, fs)
  | None =>
  match dir_status fs (removelast dst) with
  | Some e => (Some e, fs)
  | None =>
      match fs !! src with
      | None => (Some ENOENT, fs)
      | Some n =>
          if decide (src = dst) then (None, fs)
          else if decide (src `prefix_of` dst) then (Some EINVAL, fs)
          else if decide (dst `prefix_of` src) then (Some ENOTEMPTY, fs)
          else
            match fs !! dst, n with
            | None, _ => (None, move_tree src dst fs)
            | Some NDir, NDir =>
                match children fs dst with
                | [] => (None, move_tree src dst fs)
                | _ => (Some ENOTEMPTY, fs)
                end
            | Some NDir, NFile _ => (Some EISDIR, fs)
            | Some (NFile _), NDir => (Some ENOTDIR, fs)
            | Some (NFile _), NFile _ => (None, move_tree src dst fs)
            end
      end
  end
  end.

(** [os.Lstat]: the error of a missing path. *)
Definition lstat_err (fs : FS) (p : path) : option errno :=
  match fs !! p with Some _ => None | None => Some (missing_err fs p) end.

(** [os.Rename]: when the destination is an existing directory, Go
    returns the [Lstat] error of the source, or else [EEXIST], without
    calling [rename(2)]. *)
Definition fs_rename (src dst : path) (fs : FS) : option errno * FS :=
  match fs !! dst with
  | Some NDir =>
      match lstat_err fs src with
      | Some e => (Some e, fs)
      | None => (Some EEXIST, fs)
      end
  | _ => sys_rename src dst fs
  end.

(** [os.Remove]: unlink a file or remove an empty directory. *)
Definition fs_remove (p : path) (fs : FS) : option errno * FS :=
  match fs !! p with
  | None => (Some ENOENT, fs)
  | Some (NFile _) => (None, delete p fs)
  | Some NDir =>
      match children fs p with
      | [] => (None, delete p fs)
      | _ => (Some ENOTEMPTY, fs)
      end
  end.

(** [os.Open(dir)] followed by [Readdirnames(-1)]. *)
Definition fs_readdir (p : path) (fs : FS) : list string * option errno :=
  match dir_status fs p with
  | Some e => ([], Some e)
  | None => (children fs p, None)
  end.

(** [os.ReadFile]. *)
Definition fs_readfile (p : path) (fs : FS) : list Byte.byte * option errno :=
  match fs !! p with
  | None => ([], Some (missing_err fs p))
  | Some NDir => ([], Some EISDIR)
  | Some (NFile c) => (c, None)
  end.

(** [f.Write(data)] on a file opened for writing at path [f]. *)
Definition fs_write (f : path) (data : list Byte.byte) (fs : FS) : option errno * FS :=
  match fs !! f with
  | Some (NFile c) => (None, <[f := NFile (c ++ data)]> fs)
  | _ => (Some EBADF, fs)
  end.

(** Creating a file with [O_CREAT|O_EXCL]. *)
Definition fs_create_excl (p : path) (fs : FS) : option errno * FS :=
  match p with
  | [] => (Some EISDIR, fs)
  | _ =>
      match dir_status fs (removelast p) with
      | Some e => (Some e, fs)
      | None =>
          match fs !! p with
          | Some _ => (Some EEXIST, fs)
          | None => (None, <[p := NFile []]> fs)
          end
      end
  end.

(* ------------------------------------------------------------------ *)

(** ** The world and the process monad *)

(** The log lines the package prints, one constructor per call site. *)
Inductive logev :=
| LogCouldNotRescue (curdir : path)
| LogNotPid (s : string)
| LogKillFailed (pid : Z) (e : errno)
| LogGoneAway (pid : Z)
| LogCouldNotRead (pid : Z) (d : path)
| LogRescheduleFailed (s : string) (pid : Z) (e : errno)
| LogRescheduled (s : string) (pid : Z)
| LogRmdirFailed (d : path) (e : errno)
| LogRenameFailed (fn newfn : path).

Record World := mkWorld {
  w_fs : FS;
  w_pid : Z;
  w_probe : Z -> option errno;        (* kill(pid, 0): None = delivered *)
  w_faults : list (option errno);     (* injected failure of the next call *)
  w_rnd : list nat;                   (* the pseudo-random stream *)
  w_log : list logev                  (* most recent line first *)
}.

Definition set_fs (fs : FS) (w : World) : World :=
  mkWorld fs (w_pid w) (w_probe w) (w_faults w) (w_rnd w) (w_log w).

Definition set_faults (l : list (option errno)) (w : World) : World :=
  mkWorld (w_fs w) (w_pid w) (w_probe w) l (w_rnd w) (w_log w).

Definition set_rnd (l : list nat) (w : World) : World :=
  mkWorld (w_fs w) (w_pid w) (w_probe w) (w_faults w) l (w_log w).

Definition add_log (ev : logev) (w : World) : World :=
  mkWorld (w_fs w) (w_pid w) (w_probe w) (w_faults w) (w_rnd w) (ev :: w_log w).

Definition M (A : Type) : Type := World -> A * World.

Definition ret {A} (a : A) : M A := fun w => (a, w).

Definition bind {A B} (m : M A) (k : A -> M B) : M B :=
  fun w => let (a, w') := m w in k a w'.

Declare Scope go_scope.

Delimit Scope go_scope with go.

Notation "x <- m ;; k" := (bind m (fun x => k))
  (at level 100, m at next level, right associativity) : go_scope.

Notation "m ;; k" := (bind m (fun _ => k))
  (at level 100, right associativity) : go_scope.

Open Scope go_scope.

Fixpoint forM_ {A} (l : list A) (f : A -> M unit) : M unit :=
  match l with
  | [] => ret tt
  | x :: l' => f x ;; forM_ l' f
  end.

(** A system call: the next fault entry is consumed; an injected fault
    makes the call fail with no effect, otherwise [op] runs on the file
    system. *)
Definition syscall {A} (on_fault : errno -> A) (op : FS -> A * FS) : M A :=
  fun w =>
    let w1 := set_faults (tail (w_faults w)) w in
    match head (w_faults w) with
    | Some (Some e) => (on_fault e, w1)
    | _ => let '(a, fs') := op (w_fs w) in (a, set_fs fs' w1)
    end.

Definition os_mkdir (p : path) : M (option errno) := syscall Some (fs_mkdir p).

Definition os_rename (src dst : path) : M (option errno) :=
  syscall Some (fs_rename src dst).

Definition os_remove (p : path) : M (option errno) := syscall Some (fs_remove p).

Definition os_write (f : path) (data : list Byte.byte) : M (option errno) :=
  syscall Some (fs_write f data).

Definition os_close (f : path) : M (option errno) :=
  syscall Some (fun fs => (None, fs)).

Definition os_readfile (p : path) : M (list Byte.byte * option errno) :=
  syscall (fun e => ([], Some e)) (fun fs => (fs_readfile p fs, fs)).

(** The package's [readdirnames]: [os.Open] then [Readdirnames(-1)]; on
    failure no names. *)
Definition readdirnames (p : path) : M (list string * option errno) :=
  syscall (fun e => ([], Some e)) (fun fs => (fs_readdir p fs, fs)).

Definition syscall_kill (pid : Z) : M (option errno) :=
  fun w => (w_probe w pid, w).

Definition os_getpid : M Z := fun w => (w_pid w, w).

Definition log (ev : logev) : M unit := fun w => (tt, add_log ev w).

Definition next_rnd : M nat :=
  fun w => match w_rnd w with
           | [] => (0, w)
           | r :: rs => (r, set_rnd rs w)
           end.

(** [rand.Intn(n)] for [n > 0]. *)
Definition rand_intn (n : nat) : M nat := r <- next_rnd ;; ret (r mod n).

(** The split of a temp-name pattern at its last star. *)
Fixpoint split_last_star (s : string) : option (string * string) :=
  match s with
  | EmptyString => None
  | String c s' =>
      match split_last_star s' with
      | Some (p, x) => Some (String c p, x)
      | None => if Ascii.eqb c "*"%char then Some (EmptyString, s') else None
      end
  end.

Definition prefix_and_suffix (pattern : string) : option (string * string) :=
  if has_slash pattern then None
  else match split_last_star pattern with
       | Some ps => Some ps
       | None => Some (pattern, EmptyString)
       end.

Definition temp_tries : nat := Z.to_nat 10000.

(** The retry loop of [os.CreateTemp] / [os.MkdirTemp]: [create] is the
    exclusive creation, retried on "already exists" up to 10000 times. *)
Fixpoint temp_loop (create : path -> FS -> option errno * FS) (fuel : nat)
    (dir : path) (prefix suffix : string) : M (path * option errno) :=
  match fuel with
  | O => ret ([], Some EEXIST)
  | S f =>
      r <- next_rnd ;;
      let name := dir ++ [String.append prefix (String.append (itoa (Z.of_nat r)) suffix)] in
      err <- syscall Some (create name) ;;
      match err with
      | None => ret (name, None)
      | Some e => if is_exist e then temp_loop create f dir prefix suffix
                  else ret ([], Some e)
      end
  end.

Definition os_temp (create : path -> FS -> option errno * FS) (dir : path)
    (pattern : string) : M (path * option errno) :=
  match prefix_and_suffix pattern with
  | None => ret ([], Some ErrPatternHasSeparator)
  | Some (prefix, suffix) => temp_loop create temp_tries dir prefix suffix
  end.

(** [ioutil.TempFile] (the name of the open file is its path). *)
Definition create_temp (dir : path) (pattern : string) : M (path * option errno) :=
  os_temp fs_create_excl dir pattern.

(** [ioutil.TempDir]. *)
Definition mkdir_temp (dir : path) (pattern : string) : M (path * option errno) :=
  os_temp fs_mkdir dir pattern.

(* ------------------------------------------------------------------ *)

(** ** The package *)

Record Queue := mkQueue {
  basedir : string;
  mycurdir : string    (* declared, never assigned by the package *)
}.

Record Job := mkJob {
  Basename : string;
  dir : path;
  job_q : Queue        (* the field [q] of the Go struct *)
}.

Definition set_dir (d : path) (j : Job) : Job := mkJob (Basename j) d (job_q j).

(** The queue directory as a path. *)
Definition qbase (q : Queue) : path := pjoin [] (basedir q).

(** The package variable [mycur = path.Join("cur", strconv.Itoa(os.Getpid()))]. *)
Definition mycur (pid : Z) : string := String.append "cur/" (itoa pid).

Definition ensuredir (a b : string) : M (option errno) :=
  err <- os_mkdir (pjoin (pjoin [] a) b) ;;
  match err with
  | Some e => if is_exist e then ret None else ret (Some e)
  | None => ret None
  end.

Fixpoint ensure_all (base : string) (ds : list string) : M (option errno) :=
  match ds with
  | [] => ret None
  | d :: ds' =>
      err <- ensuredir base d ;;
      match err with
      | Some e => ret (Some e)
      | None => ensure_all base ds'
      end
  end.

Definition queue_subdirs (pid : Z) : list string :=
  ["tmp"; "new"; "cur"; "done"; "failed"; mycur pid].

(** [OpenQueue]. *)
Definition OpenQueue (d : string) : M (option Queue * option errno) :=
  pid <- os_getpid ;;
  let q := mkQueue d "" in
  err <- ensure_all (basedir q) (queue_subdirs pid) ;;
  match err with
  | Some e => ret (None, Some e)
  | None => ret (Some q, None)
  end.

(** [Queue.CreateJob]. *)
Definition CreateJob (q : Queue) (prefix : string) : M (option Job * option errno) :=
  r <- mkdir_temp (pjoin (qbase q) "tmp") prefix ;;
  let (tmp, err) := r in
  match err with
  | Some e => ret (None, Some e)
  | None => ret (Some (mkJob (pbase tmp) tmp q), None)
  end.

(** The shared shape of [Submit], [Finish] and [Fail]: rename the job's
    directory to [sub/Basename] and record the new place on success. *)
Definition move_job (sub : string) (job : Job) : M (Job * option errno) :=
  let d := pjoin (pjoin (qbase (job_q job)) sub) (Basename job) in
  err <- os_rename (dir job) d ;;
  match err with
  | Some e => ret (job, Some e)
  | None => ret (set_dir d job, None)
  end.

(** [Job.Submit], [Job.Finish], [Job.Fail]. *)
Definition Submit (job : Job) : M (Job * option errno) := move_job "new" job.

Definition Finish (job : Job) : M (Job * option errno) := move_job "done" job.

Definition Fail (job : Job) : M (Job * option errno) := move_job "failed" job.

(** One round of the loop of [Queue.Take]. *)
Inductive take_step :=
| TakeContinue
| TakeReturn (j : option Job) (e : option errno).

(** The claiming half of a round: the rename of [new/basename] into this
    process's directory and the dispatch on its error (lines 110 to 123).
    Other processes run between the listing and this rename, so it
    starts from any world. *)
Definition take_claim (q : Queue) (basename : string) : M take_step :=
  pid <- os_getpid ;;
  let d := pjoin (pjoin (qbase q) (mycur pid)) basename in
  err <- os_rename (pjoin (pjoin (qbase q) "new") basename) d ;;
  match err with
  | Some e => if is_not_exist e then ret TakeContinue else ret (TakeReturn None (Some e))
  | None => ret (TakeReturn (Some (mkJob basename d q)) None)
  end.

Definition take_iter (q : Queue) : M take_step :=
  r <- readdirnames (pjoin (qbase q) "new") ;;
  let (names, err) := r in
  match err with
  | Some e => ret (TakeReturn None (Some e))
  | None =>
      match names with
      | [] => ret (TakeReturn None None)
      | _ =>
          i <- rand_intn (length names) ;;
          take_claim q (nth i names "")
      end
  end.

(** [Queue.Take], run for at most [fuel] rounds ([None] when the fuel
    runs out: the Go loop has no bound). *)
Fixpoint Take (fuel : nat) (q : Queue) : M (option (option Job * option errno)) :=
  match fuel with
  | O => ret None
  | S f =>
      st <- take_iter q ;;
      match st with
      | TakeContinue => Take f q
      | TakeReturn j e => ret (Some (j, e))
      end
  end.

Definition getNewDir (q : Queue) : path := pjoin (qbase q) "new".

Definition getCurDir (q : Queue) : path := pjoin (qbase q) "cur".

Definition getWorkerDir (q : Queue) (pid : Z) : path :=
  pjoin (pjoin (qbase q) "cur") (itoa pid).

(** [processExists]: [(exists, err)]. *)
Definition processExists (pid : Z) : M (bool * option errno) :=
  e <- syscall_kill pid ;;
  match e with
  | None => ret (true, None)
  | Some e =>
      if decide (e = ESRCH) then ret (false, None)
      else log (LogKillFailed pid e) ;; ret (false, Some e)
  end.

(** [Queue.rescueDeadJobsFrom]. *)
Definition rescueDeadJobsFrom (q : Queue) (pid : Z) : M unit :=
  let d := getWorkerDir q pid in
  r <- readdirnames d ;;
  let (names, err) := r in
  (match err with Some _ => log (LogCouldNotRead pid d) | None => ret tt end) ;;
  forM_ names (fun s =>
    err <- os_rename (pjoin d s) (pjoin (getNewDir q) s) ;;
    match err with
    | Some e => log (LogRescheduleFailed s pid e)
    | None => log (LogRescheduled s pid)
    end).

(** The body of the loop of [Queue.RescueDeadJobs] for entry [s]. *)
Definition rescue_entry (q : Queue) (s : string) : M unit :=
  match atoi s with
  | None => log (LogNotPid s)
  | Some pid =>
      r <- processExists pid ;;
      let (exists_, err) := r in
      match err with
      | Some e => log (LogKillFailed pid e)
      | None =>
          if exists_ then ret tt
          else
            log (LogGoneAway pid) ;;
            rescueDeadJobsFrom q pid ;;
            err <- os_remove (getWorkerDir q pid) ;;
            match err with
            | Some e => log (LogRmdirFailed (getWorkerDir q pid) e)
            | None => ret tt
            end
      end
  end.

(** [Queue.RescueDeadJobs]. *)
Definition RescueDeadJobs (q : Queue) : M (option errno) :=
  let curdir := getCurDir q in
  r <- readdirnames curdir ;;
  let (names, err) := r in
  match err with
  | Some e => log (LogCouldNotRescue curdir) ;; ret (Some e)
  | None => forM_ names (rescue_entry q) ;; ret None
  end.

(** [Job.Get]. *)
Definition Get (j : Job) (name : string) : M (list Byte.byte * option errno) :=
  os_readfile (pjoin (dir j) name).

(** [Job.Set]. *)
Definition Set_ (j : Job) (name : string) (data : list Byte.byte) : M (option errno) :=
  let q := job_q j in
  r <- create_temp (pjoin (qbase q) "tmp") name ;;
  let (f, err) := r in
  match err with
  | Some e => ret (Some e)
  | None =>
      err <- os_write f data ;;
      match err with
      | Some e => ret (Some e)
      | None =>
          let fn := f in
          err <- os_close f ;;
          match err with
          | Some e => ret (Some e)
          | None =>
              let newfn := pjoin (dir j) name in
              err <- os_rename fn newfn ;;
              match err with
              | Some e => log (LogRenameFailed fn newfn) ;; ret (Some e)
              | None => ret None
              end
          end
      end
  end.

(* ------------------------------------------------------------------ *)

(** ** Concrete worlds for the examples *)

Definition ex_queue : Queue := mkQueue "/q" "".

(** Process 100 is alive; every other pid is gone. *)
Definition ex_probe (p : Z) : option errno := if (p =? 100)%Z then None else Some ESRCH.

Definition ex_world (fs : FS) : World := mkWorld fs 100 ex_probe [] [] [].

(** A freshly opened queue. *)
Definition ex_fresh_fs : FS :=
  list_to_map [(["q"], NDir); (["q"; "tmp"], NDir); (["q"; "new"], NDir);
               (["q"; "cur"], NDir); (["q"; "cur"; "100"], NDir);
               (["q"; "done"], NDir); (["q"; "failed"], NDir)].

(** A job is waiting in [new], but this process's owner slot [cur/100]
    is missing. *)
Definition ex_noslot_fs : FS :=
  list_to_map [(["q"], NDir); (["q"; "new"], NDir); (["q"; "new"; "X"], NDir);
               (["q"; "cur"], NDir)].

Definition is_digit (c : ascii) : bool :=
  match digit_val c with Some _ => true | None => false end.

Fixpoint all_digits (s : string) : bool :=
  match s with
  | EmptyString => true
  | String c s' => is_digit c && all_digits s'
  end.

Definition plain_path (p : path) : Prop := Forall (fun c => plain c = true) p.

Definition incomparable (a b : path) : Prop := ~ a `prefix_of` b /\ ~ b `prefix_of` a.

(** A creation primitive puts [n] at a fresh path below an existing
    directory, or fails with no effect. *)
Definition creates (create : path -> FS -> option errno * FS) (n : node) : Prop :=
  forall p fs,
    match create p fs with
    | (None, fs') => fs !! p = None /\ fs' = <[p := n]> fs
                     /\ dir_status fs (removelast p) = None
    | (Some _, fs') => fs' = fs
    end.

(** The next system call sees no injected fault. *)
Definition next_ok (w : World) : Prop :=
  match w_faults w with Some _ :: _ => False | _ => True end.

(** A job whose directory has already gone. *)
Definition ex_lost_job : Job := mkJob "x1" ["q"; "tmp"; "x1"] ex_queue.

(* ------------------------------------------------------------------ *)
(** ** Derived notions and further concrete worlds *)

Fixpoint has_digit (s : string) : bool :=
  match s with
  | EmptyString => false
  | String c s' => is_digit c || has_digit s'
  end.

Definition open_paths (d : string) (pid : Z) : list path :=
  map (pjoin (pjoin [] d)) (queue_subdirs pid).

Definition ok_path (fs : FS) (p : path) : Prop :=
  p = [] \/ (dir_status fs (removelast p) = None /\ is_Some (fs !! p)).

(** The parents of [ps], created in order, are directories. *)
Fixpoint parents_ok (fs : FS) (ps : list path) : Prop :=
  match ps with
  | [] => True
  | p :: ps' => dir_status fs (removelast p) = None /\ parents_ok (<[p := NDir]> fs) ps'
  end.

(** Every path whose node changed from [fs] to [fs'] satisfies [P]. *)
Definition within (P : path -> Prop) (fs fs' : FS) : Prop :=
  forall k, fs' !! k <> fs !! k -> P k.

(** Every path of the file system is made of entry names. *)
Definition wf_fs (fs : FS) : Prop := forall k n, fs !! k = Some n -> plain_path k.

(** A system call's step: the fields other than the file system and the
    faults are kept, the log unchanged. *)
Definition same_env (w w' : World) : Prop :=
  w_probe w' = w_probe w /\ w_pid w' = w_pid w /\ exists l, w_log w' = l ++ w_log w.

(** One round of the loop of [rescueDeadJobsFrom]. *)
Definition reschedule (q : Queue) (pid : Z) (s : string) : M unit :=
  err <- os_rename (pjoin (getWorkerDir q pid) s) (pjoin (getNewDir q) s) ;;
  match err with
  | Some e => log (LogRescheduleFailed s pid e)
  | None => log (LogRescheduled s pid)
  end.

(** What the loop of [RescueDeadJobs] may change: the slot and the
    submittable directory of an owner that a slot name parses to and that
    is dead. *)
Definition rescue_footprint (q : Queue) (probe : Z -> option errno) (k : path) : Prop :=
  exists p, in_int64 p = true /\ probe p = Some ESRCH
       /\ (getWorkerDir q p `prefix_of` k \/ getNewDir q `prefix_of` k).

(** From [fs] to [fs'], every changed key is an [A] key that got
    removed, or a [B] key. *)
Definition moves_out (A B : path -> Prop) (fs fs' : FS) : Prop :=
  forall k, fs' !! k <> fs !! k -> (A k /\ fs' !! k = None) \/ B k.

(** Every path below the root hangs off a directory. *)
Definition tree_fs (fs : FS) : Prop :=
  forall k c n, fs !! (k ++ [c]) = Some n -> k = [] \/ fs !! k = Some NDir.

Definition slot_before (fs0 fs : FS) (S N : path) : Prop :=
  (forall rr, fs !! (S ++ rr) = fs0 !! (S ++ rr))
  /\ (forall y rr, y ∈ children fs0 S -> fs !! (N ++ y :: rr) = fs0 !! (N ++ y :: rr)).

Definition slot_after (fs0 fs : FS) (S N : path) : Prop :=
  (forall y rr, y ∈ children fs0 S -> fs !! (N ++ y :: rr) = fs0 !! (S ++ y :: rr))
  /\ (forall rr, fs !! (S ++ rr) = None).

Definition rescue_inv (q : Queue) (w : World) (p : Z) (w2 : World) : Prop :=
  wf_fs (w_fs w2) /\ w_faults w2 = [] /\ same_env w w2
  /\ moves_out (fun k => exists p', getWorkerDir q p' `prefix_of` k) (fun k => getNewDir q `prefix_of` k)
       (w_fs w) (w_fs w2)
  /\ w_fs w2 !! getNewDir q = Some NDir
  /\ (slot_before (w_fs w) (w_fs w2) (getWorkerDir q p) (getNewDir q)
      \/ slot_after (w_fs w) (w_fs w2) (getWorkerDir q p) (getNewDir q)).

Definition ex_rootonly_fs : FS := list_to_map [(["q"], NDir)].

Definition ex_curfile_fs : FS := list_to_map [(["q"], NDir); (["q"; "cur"], NFile [])].

Definition ex_tmpfile_fs : FS := list_to_map [(["q"], NDir); (["q"; "tmp"], NFile [])].

Definition wf_fs_b (fs : FS) : bool :=
  forallb (fun kv : path * node => forallb plain kv.1) (map_to_list fs).

Definition tree_fs_b (fs : FS) : bool :=
  forallb (fun kv : path * node =>
             match removelast kv.1 with
             | [] => true
             | k => match fs !! k with Some NDir => true | _ => false end
             end) (map_to_list fs).

(** Slot [cur/007] of the dead process 7, holding job [baz]. *)
Definition ex_slot007_fs : FS :=
  list_to_map [(["q"], NDir); (["q"; "new"], NDir); (["q"; "cur"], NDir);
               (["q"; "cur"; "007"], NDir); (["q"; "cur"; "007"; "baz"], NDir)].

(** Process 100 holds job [a]; the dead process 7 holds job [b]. *)
Definition ex_rescue_fs : FS :=
  list_to_map [(["q"], NDir); (["q"; "new"], NDir); (["q"; "cur"], NDir);
               (["q"; "cur"; "100"], NDir); (["q"; "cur"; "100"; "a"], NDir);
               (["q"; "cur"; "7"], NDir); (["q"; "cur"; "7"; "b"], NDir);
               (["q"; "cur"; "7"; "b"; "prop"], NFile [Byte.x01])].

(** Process 5 cannot be probed: [kill] fails with [EPERM]. *)
Definition ex_eperm_probe (p : Z) : option errno :=
  if (p =? 5)%Z then Some EPERM else ex_probe p.

Definition ex_eperm_fs : FS :=
  list_to_map [(["q"], NDir); (["q"; "new"], NDir); (["q"; "cur"], NDir);
               (["q"; "cur"; "5"], NDir); (["q"; "cur"; "5"; "j"], NDir)].

Definition ex_eperm_world : World := mkWorld ex_eperm_fs 100 ex_eperm_probe [] [] [].

Definition ex_job : Job := mkJob "j1" ["q"; "tmp"; "j1"] ex_queue.

Definition ex_job_fs : FS :=
  <[["q"; "tmp"; "j1"; "k"] := NFile [Byte.x01]]> (<[["q"; "tmp"; "j1"] := NDir]> ex_fresh_fs).

(** The final rename of [Set_] fails with [EIO]. *)
Definition ex_rename_fails : World := mkWorld ex_job_fs 100 ex_probe [None; None; None; Some EIO] [] [].

Definition ex_built_job : Job := mkJob "build0" ["q"; "tmp"; "build0"] ex_queue.

Definition ex_held_job : Job := mkJob "j2" ["q"; "cur"; "100"; "j2"] ex_queue.

Definition ex_held_fs : FS := <[["q"; "cur"; "100"; "j2"] := NDir]> ex_fresh_fs.

(** An owner slot whose name [foo] is not a process id. *)
Definition ex_foo_fs : FS :=
  list_to_map [(["q"], NDir); (["q"; "new"], NDir); (["q"; "cur"], NDir);
               (["q"; "cur"; "foo"], NDir); (["q"; "cur"; "foo"; "z"], NDir)].

(** A freshly opened queue with the single job [X] waiting in [new]. *)
Definition ex_take_fs : FS := <[["q"; "new"; "X"] := NDir]> ex_fresh_fs.

(** The queue root [/x/y] lies below the regular file [/x]. *)
Definition ex_xfile_fs : FS := list_to_map [(["x"], NFile [])].

(** An opened queue whose owner slot [cur/100] is a regular file. *)
Definition ex_slotfile_fs : FS :=
  list_to_map [(["q"], NDir); (["q"; "tmp"], NDir); (["q"; "new"], NDir);
               (["q"; "cur"], NDir); (["q"; "cur"; "100"], NFile []);
               (["q"; "done"], NDir); (["q"; "failed"], NDir)].

(* ================================================================== *)
(** * Lemmas about the embedding *)

Example itoa_ex : itoa 424242 = "424242" /\ itoa (-7) = "-7" /\ itoa 0 = "0".
Proof. vm_compute. auto. Qed.

Example atoi_ex :
  atoi "007" = Some 7%Z /\ atoi "+5" = Some 5%Z /\ atoi "-0" = Some 0%Z
  /\ atoi "" = None /\ atoi "-" = None /\ atoi "1_0" = None
  /\ atoi "9223372036854775808" = None
  /\ atoi "-9223372036854775808" = Some (- 2 ^ 63)%Z.
Proof. vm_compute. repeat split. Qed.

Example pjoin_ex :
  pjoin ["q"] "cur/42" = ["q"; "cur"; "42"] /\ pjoin ["q"; "new"] ".." = ["q"]
  /\ pjoin [] "/tmp//q/./" = ["tmp"; "q"].
Proof. vm_compute. auto. Qed.
(** ** Decimal numbers *)

Lemma digit_val_char (d : N) : (d < 10)%N -> digit_val (digit_char d) = Some d.
Proof.
  intros H.
  assert (d = 0 \/ d = 1 \/ d = 2 \/ d = 3 \/ d = 4 \/ d = 5 \/ d = 6 \/ d = 7
          \/ d = 8 \/ d = 9)%N as Hd by lia.
  repeat destruct Hd as [-> | Hd]; try reflexivity; subst; reflexivity.
Qed.

Lemma pos_lt_pow2_size (p : positive) :
  (Z.pos p < 2 ^ Z.of_nat (Pos.size_nat p))%Z.
Proof.
  induction p as [p IH | p IH |]; simpl Pos.size_nat; try (simpl; lia);
    rewrite Nat2Z.inj_succ, Z.pow_succ_r by lia; lia.
Qed.

Lemma n_lt_pow10_fuel (n : N) : (n < 10 ^ N.of_nat (S (N.size_nat n)))%N.
Proof.
  apply N2Z.inj_lt. rewrite N2Z.inj_pow, nat_N_Z.
  destruct n as [| p]; simpl N.size_nat; [simpl; lia |].
  pose proof (pos_lt_pow2_size p) as H.
  assert (2 ^ Z.of_nat (Pos.size_nat p) <= 10 ^ Z.of_nat (S (Pos.size_nat p)))%Z.
  { transitivity (10 ^ Z.of_nat (Pos.size_nat p))%Z.
    - apply Z.pow_le_mono_l; lia.
    - apply Z.pow_le_mono_r; lia. }
  simpl N2Z.inj in *. lia.
Qed.

Lemma parse_digits_digits_aux (f : nat) (n : N) (acc : string) :
  (n < 10 ^ N.of_nat f)%N ->
  parse_digits (digits_aux f n acc) 0 = parse_digits acc n.
Proof.
  revert n acc. induction f as [| f IH]; intros n acc Hn.
  - simpl in Hn. assert (n = 0)%N as -> by lia. reflexivity.
  - simpl digits_aux.
    assert (Hm : (n mod 10 < 10)%N) by (apply N.mod_lt; lia).
    assert (Hdm : n = (n / 10 * 10 + n mod 10)%N)
      by (rewrite (N.div_mod n 10) at 1 by lia; lia).
    destruct (N.eqb_spec (n / 10) 0) as [Hz | Hz].
    + simpl parse_digits. rewrite digit_val_char by exact Hm.
      f_equal. rewrite Hz in Hdm. lia.
    + rewrite IH.
      * simpl parse_digits. rewrite digit_val_char by exact Hm.
        f_equal. lia.
      * rewrite Nat2N.inj_succ, N.pow_succ_r' in Hn.
        apply N.Div0.div_lt_upper_bound. lia.
Qed.

Lemma parse_utoa (n : N) : parse_digits (utoa n) 0 = Some n.
Proof.
  unfold utoa. rewrite parse_digits_digits_aux by apply n_lt_pow10_fuel.
  reflexivity.
Qed.

Lemma digits_aux_all_digits (f : nat) (n : N) (acc : string) :
  all_digits acc = true -> all_digits (digits_aux f n acc) = true.
Proof.
  revert n acc. induction f as [| f IH]; intros n acc Hacc; simpl; [exact Hacc |].
  assert (Hc : all_digits (String (digit_char (n mod 10)) acc) = true).
  { simpl. unfold is_digit. rewrite digit_val_char by (apply N.mod_lt; lia). exact Hacc. }
  destruct (n / 10 =? 0)%N; [exact Hc | apply IH, Hc].
Qed.

Lemma digits_aux_cons (f : nat) (n : N) (c : ascii) (acc : string) :
  exists c' r, digits_aux f n (String c acc) = String c' r.
Proof.
  revert n c acc. induction f as [| f IH]; intros n c acc; simpl; [eauto |].
  destruct (n / 10 =? 0)%N; [eauto | apply IH].
Qed.

Lemma utoa_shape (n : N) :
  exists c r, utoa n = String c r /\ digit_val c <> None /\ all_digits r = true.
Proof.
  assert (Hall : all_digits (utoa n) = true)
    by (apply digits_aux_all_digits; reflexivity).
  assert (Hne : exists c r, utoa n = String c r).
  { unfold utoa. simpl digits_aux. destruct (n / 10 =? 0)%N; [eauto | apply digits_aux_cons]. }
  destruct Hne as (c & r & Hcr). rewrite Hcr in Hall. simpl in Hall.
  apply andb_prop in Hall as [H1 H2].
  exists c, r. split; [exact Hcr | split; [unfold is_digit in H1; destruct (digit_val c); discriminate | exact H2]].
Qed.

Lemma atoi_itoa (z : Z) : in_int64 z = true -> atoi (itoa z) = Some z.
Proof.
  intros Hr. unfold itoa.
  destruct (Z.ltb_spec z 0) as [Hneg | Hpos].
  - destruct (utoa_shape (Z.to_N (- z))) as (c & r & Hu & _ & _).
    unfold atoi. simpl. rewrite Hu. rewrite <- Hu, parse_utoa.
    rewrite Z2N.id by lia. replace (- - z)%Z with z by lia. rewrite Hr. reflexivity.
  - destruct (utoa_shape (Z.to_N z)) as (c & r & Hu & Hd & _).
    assert (Hm : Ascii.eqb c "-"%char = false).
    { destruct (Ascii.eqb_spec c "-"%char) as [-> | ]; [exfalso; apply Hd; reflexivity | reflexivity]. }
    assert (Hp : Ascii.eqb c "+"%char = false).
    { destruct (Ascii.eqb_spec c "+"%char) as [-> | ]; [exfalso; apply Hd; reflexivity | reflexivity]. }
    unfold atoi. rewrite Hu. simpl. rewrite Hm, Hp. rewrite <- Hu, parse_utoa.
    rewrite Z2N.id by lia. rewrite Hr. reflexivity.
Qed.

Lemma atoi_range (s : string) (z : Z) : atoi s = Some z -> in_int64 z = true.
Proof.
  unfold atoi. destruct s as [| c b]; [discriminate |].
  destruct (Ascii.eqb c "-"%char), (Ascii.eqb c "+"%char);
    repeat match goal with
    | |- context [match ?x with _ => _ end] => destruct x eqn:?
    end; intros H; try discriminate; injection H as <-; assumption.
Qed.

Lemma itoa_inj (z1 z2 : Z) :
  in_int64 z1 = true -> in_int64 z2 = true -> itoa z1 = itoa z2 -> z1 = z2.
Proof.
  intros H1 H2 He. apply atoi_itoa in H1. apply atoi_itoa in H2. congruence.
Qed.

Lemma all_digits_no_slash (s : string) : all_digits s = true -> has_slash s = false.
Proof.
  induction s as [| c s IH]; simpl; [reflexivity |].
  intros H. apply andb_prop in H as [Hc Hs]. rewrite IH by exact Hs.
  destruct (Ascii.eqb_spec c "/"%char) as [-> | Hne]; [discriminate |].
  unfold is_slash. apply Ascii.eqb_neq in Hne. rewrite Hne. reflexivity.
Qed.

Lemma plain_itoa (z : Z) : plain (itoa z) = true.
Proof.
  unfold itoa. destruct (z <? 0)%Z.
  - destruct (utoa_shape (Z.to_N (- z))) as (c & r & Hu & Hd & Hr).
    assert (Hdc : is_digit c = true) by (unfold is_digit; destruct (digit_val c); congruence).
    assert (Hn : has_slash (String c r) = false)
      by (apply all_digits_no_slash; simpl; rewrite Hdc, Hr; reflexivity).
    rewrite Hu. unfold plain.
    change (has_slash (String "-" (String c r))) with (false || has_slash (String c r)).
    rewrite Hn. destruct r as [| c' r']; reflexivity.
  - destruct (utoa_shape (Z.to_N z)) as (c & r & Hu & Hd & Hr).
    rewrite Hu. unfold plain.
    assert (Hdc : is_digit c = true) by (unfold is_digit; destruct (digit_val c); congruence).
    rewrite (all_digits_no_slash (String c r)) by (simpl; rewrite Hdc, Hr; reflexivity).
    destruct (String.eqb_spec (String c r) "") as [E | _]; [discriminate |].
    destruct (String.eqb_spec (String c r) ".") as [E | _];
      [injection E as -> ->; discriminate |].
    destruct (String.eqb_spec (String c r) "..") as [E | _];
      [injection E as -> ->; discriminate |].
    reflexivity.
Qed.

(** ** Paths *)

Lemma append_single (cur : string) (c : ascii) (s : string) :
  String.append (String.append cur (String c "")) s = String.append cur (String c s).
Proof. induction cur as [| c' cur IH]; [reflexivity | exact (f_equal (String c') IH)]. Qed.

Lemma append_nil_r (s : string) : String.append s "" = s.
Proof. induction s as [| c s IH]; [reflexivity | exact (f_equal (String c) IH)]. Qed.

Lemma split_slash_aux_no_slash (cur s : string) :
  has_slash s = false -> split_slash_aux cur s = [String.append cur s].
Proof.
  revert cur. induction s as [| c s IH]; intros cur H; simpl in *.
  - rewrite append_nil_r. reflexivity.
  - apply orb_false_iff in H as [Hc Hs]. rewrite Hc, IH by exact Hs.
    rewrite append_single. reflexivity.
Qed.

Lemma pjoin_plain (p : path) (c : string) : plain c = true -> pjoin p c = p ++ [c].
Proof.
  unfold plain. intros H.
  repeat apply andb_prop in H as [H ?].
  unfold pjoin, split_slash. rewrite split_slash_aux_no_slash by (apply negb_true_iff; assumption).
  simpl. change (String.append "" c) with c. unfold push_comp.
  apply negb_true_iff in H. rewrite H.
  repeat match goal with Hx : negb _ = true |- _ => apply negb_true_iff in Hx; rewrite Hx end.
  reflexivity.
Qed.

Lemma has_slash_app (a b : string) :
  has_slash (String.append a b) = has_slash a || has_slash b.
Proof.
  induction a as [| x a IH]; [reflexivity |].
  change (String.append (String x a) b) with (String x (String.append a b)).
  simpl. rewrite IH. apply orb_assoc.
Qed.

Lemma split_slash_aux_comps (cur s : string) :
  has_slash cur = false -> Forall (fun c => has_slash c = false) (split_slash_aux cur s).
Proof.
  revert cur. induction s as [| x s IH]; intros cur Hc; simpl.
  - constructor; [exact Hc | constructor].
  - destruct (is_slash x) eqn:Hx.
    + constructor; [exact Hc | apply IH; reflexivity].
    + apply IH. rewrite has_slash_app, Hc. simpl. rewrite Hx. reflexivity.
Qed.

Lemma Forall_removelast {A} (P : A -> Prop) (l : list A) :
  Forall P l -> Forall P (removelast l).
Proof.
  induction l as [| x l IH]; intros H; [constructor |].
  inversion H as [| ? ? Hx Hl]; subst. destruct l as [| y l]; [constructor |].
  change (removelast (x :: y :: l)) with (x :: removelast (y :: l)).
  constructor; [exact Hx | apply IH, Hl].
Qed.

Lemma plain_path_pjoin (p : path) (s : string) :
  plain_path p -> plain_path (pjoin p s).
Proof.
  unfold pjoin, split_slash. intros Hp.
  pose proof (split_slash_aux_comps "" s eq_refl) as Hs.
  revert p Hp. induction Hs as [| c l Hc Hl IH]; intros p Hp; simpl; [exact Hp |].
  apply IH. unfold push_comp.
  destruct (String.eqb c "") eqn:E1; [exact Hp |].
  destruct (String.eqb c ".") eqn:E2; [exact Hp |].
  destruct (String.eqb c "..") eqn:E3; [apply Forall_removelast, Hp |].
  apply Forall_app; split; [exact Hp |].
  constructor; [| constructor].
  unfold plain. rewrite E1, E2, E3, Hc. reflexivity.
Qed.

Lemma plain_path_qbase (q : Queue) : plain_path (qbase q).
Proof. apply plain_path_pjoin. constructor. Qed.

Lemma qbase_sub (q : Queue) (c : string) :
  plain c = true -> pjoin (qbase q) c = qbase q ++ [c].
Proof. apply pjoin_plain. Qed.

(** ** Directory listings *)

Lemma child_of_spec (p k : path) (c : string) : child_of p k = Some c <-> k = p ++ [c].
Proof.
  unfold child_of. split.
  - case_decide as Hp; [| discriminate]. destruct Hp as [l ->].
    rewrite drop_app_length. destruct l as [| x [| y l]]; try discriminate.
    intros [= ->]. reflexivity.
  - intros ->. rewrite decide_True by (exists [c]; reflexivity).
    rewrite drop_app_length. reflexivity.
Qed.

Lemma elem_of_children (fs : FS) (p : path) (c : string) :
  c ∈ children fs p <-> is_Some (fs !! (p ++ [c])).
Proof.
  unfold children. rewrite list_elem_of_omap. split.
  - intros ([k v] & Hin & Hc). simpl in Hc. apply child_of_spec in Hc as ->.
    apply elem_of_map_to_list in Hin. eauto.
  - intros [v Hv]. exists (p ++ [c], v). split.
    + apply elem_of_map_to_list, Hv.
    + apply child_of_spec. reflexivity.
Qed.

Lemma NoDup_omap_fst {A B} (f : path -> option B) (l : list (path * A)) :
  NoDup (l.*1) ->
  (forall k1 k2 b, f k1 = Some b -> f k2 = Some b -> k1 = k2) ->
  NoDup (omap (fun kv => f kv.1) l).
Proof.
  intros Hnd Hinj. induction l as [| [k v] l IH]; simpl; [constructor |].
  inversion Hnd as [| ? ? Hk Hl]; subst.
  destruct (f k) as [b |] eqn:Hf; [| apply IH, Hl].
  constructor; [| apply IH, Hl].
  rewrite list_elem_of_omap. intros ([k' v'] & Hin & Hf').
  apply Hk. simpl in Hf'. rewrite (Hinj k k' b Hf Hf').
  apply list_elem_of_fmap. exists (k', v'). auto.
Qed.

Lemma NoDup_children (fs : FS) (p : path) : NoDup (children fs p).
Proof.
  apply NoDup_omap_fst; [apply NoDup_fst_map_to_list |].
  intros k1 k2 b H1 H2. apply child_of_spec in H1, H2. congruence.
Qed.

(** ** Moving subtrees *)

Lemma in_move_list (src dst : path) (fs : FS) (i : path) (y : node) :
  (i, y) ∈ omap (fun kv : path * node =>
                   if decide (dst `prefix_of` kv.1) then None
                   else Some (rekey src dst kv.1, kv.2)) (map_to_list fs)
  <-> exists k, fs !! k = Some y /\ ~ dst `prefix_of` k /\ rekey src dst k = i.
Proof.
  rewrite list_elem_of_omap. split.
  - intros ([k v] & Hin & Hg). simpl in Hg. apply elem_of_map_to_list in Hin.
    case_decide; [discriminate |]. injection Hg as <- <-. eauto.
  - intros (k & Hk & Hd & <-). exists (k, y). split.
    + apply elem_of_map_to_list, Hk.
    + simpl. rewrite decide_False by exact Hd. reflexivity.
Qed.

Lemma rekey_inv (src dst k i : path) :
  ~ dst `prefix_of` k -> rekey src dst k = i ->
  (src `prefix_of` k /\ dst `prefix_of` i /\ k = src ++ drop (length dst) i)
  \/ (~ src `prefix_of` k /\ ~ dst `prefix_of` i /\ k = i).
Proof.
  unfold rekey. intros Hd. case_decide as Hs; intros <-.
  - left. destruct Hs as [r ->]. rewrite !drop_app_length.
    split; [exists r; reflexivity | split; [exists r; reflexivity | reflexivity]].
  - right. auto.
Qed.

Lemma move_tree_lookup (src dst : path) (fs : FS) (q : path) :
  incomparable src dst ->
  move_tree src dst fs !! q =
    if decide (dst `prefix_of` q) then fs !! (src ++ drop (length dst) q)
    else if decide (src `prefix_of` q) then None else fs !! q.
Proof.
  intros [Hsd Hds]. unfold move_tree.
  case_decide as Hq.
  - destruct Hq as [r ->]. rewrite drop_app_length.
    destruct (fs !! (src ++ r)) as [n |] eqn:E.
    + apply elem_of_list_to_map_1'.
      * intros y Hy. apply in_move_list in Hy as (k & Hk & Hdk & Hr).
        destruct (rekey_inv _ _ _ _ Hdk Hr) as [(_ & _ & ->) | (_ & Hn & _)].
        -- rewrite drop_app_length in Hk. congruence.
        -- exfalso. apply Hn. exists r. reflexivity.
      * apply in_move_list. exists (src ++ r). split; [exact E |]. split.
        -- intros Hp. destruct (prefix_weak_total dst src (src ++ r) Hp) as [H | H];
             [exists r; reflexivity | tauto | tauto].
        -- unfold rekey. rewrite decide_True by (exists r; reflexivity).
           rewrite drop_app_length. reflexivity.
    + apply not_elem_of_list_to_map_1. intros Hin.
      apply list_elem_of_fmap in Hin as ([i y] & Hi & Hin). simpl in Hi. subst i.
      apply in_move_list in Hin as (k & Hk & Hdk & Hr).
      destruct (rekey_inv _ _ _ _ Hdk Hr) as [(_ & _ & ->) | (_ & Hn & _)].
      * rewrite drop_app_length in Hk. congruence.
      * apply Hn. exists r. reflexivity.
  - case_decide as Hsq.
    + apply not_elem_of_list_to_map_1. intros Hin.
      apply list_elem_of_fmap in Hin as ([i y] & Hi & Hin). simpl in Hi. subst i.
      apply in_move_list in Hin as (k & Hk & Hdk & Hr).
      destruct (rekey_inv _ _ _ _ Hdk Hr) as [(_ & Hn & _) | (Hn & _ & ->)]; tauto.
    + destruct (fs !! q) as [n |] eqn:E.
      * apply elem_of_list_to_map_1'.
        -- intros y Hy. apply in_move_list in Hy as (k & Hk & Hdk & Hr).
           destruct (rekey_inv _ _ _ _ Hdk Hr) as [(_ & Hn & _) | (_ & _ & ->)];
             [tauto | congruence].
        -- apply in_move_list. exists q. split; [exact E |]. split; [exact Hq |].
           unfold rekey. rewrite decide_False by exact Hsq. reflexivity.
      * apply not_elem_of_list_to_map_1. intros Hin.
        apply list_elem_of_fmap in Hin as ([i y] & Hi & Hin). simpl in Hi. subst i.
        apply in_move_list in Hin as (k & Hk & Hdk & Hr).
        destruct (rekey_inv _ _ _ _ Hdk Hr) as [(_ & Hn & _) | (_ & _ & ->)];
          [tauto | congruence].
Qed.

(** ** The system calls on the file system *)

Lemma missing_err_cases (fs : FS) (p : path) :
  missing_err fs p = ENOENT \/ missing_err fs p = ENOTDIR.
Proof. unfold missing_err. destruct (walk_dirs _ _ _) as [[] |]; auto. Qed.

Lemma dir_status_err (fs : FS) (d : path) (e : errno) :
  dir_status fs d = Some e -> e = ENOENT \/ e = ENOTDIR.
Proof.
  unfold dir_status. destruct d; [discriminate |].
  destruct (fs !! _) as [[|] |]; intros [= <-]; auto using missing_err_cases.
Qed.

Lemma fs_rename_err (src dst : path) (fs fs' : FS) (e : errno) :
  fs_rename src dst fs = (Some e, fs') -> fs' = fs.
Proof.
  unfold fs_rename, sys_rename, lstat_err.
  repeat match goal with
  | |- context [match ?x with _ => _ end] => destruct x eqn:?
  | |- context [if decide ?P then _ else _] => destruct (decide P)
  end; intros H; injection H as ? ?; congruence.
Qed.

Lemma fs_rename_ok (src dst : path) (fs fs' : FS) :
  fs_rename src dst fs = (None, fs') ->
  is_Some (fs !! src) /\ dir_status fs (removelast dst) = None /\
  ((src = dst /\ fs' = fs) \/ (incomparable src dst /\ fs' = move_tree src dst fs)).
Proof.
  unfold fs_rename, sys_rename, lstat_err.
  destruct (fs !! dst) as [[| c] |] eqn:Hd0; [destruct (fs !! src); discriminate | |].
  all: destruct (dir_status fs (removelast src)); [discriminate |].
  all: destruct (dir_status fs (removelast dst)) eqn:Hp; [discriminate |].
  all: destruct (fs !! src) as [n |] eqn:Hs; [| discriminate].
  all: intros H; split; [eauto | split; [reflexivity |]].
  all: destruct (decide (src = dst)) as [-> | Hne]; [injection H as <-; left; auto |].
  all: destruct (decide (src `prefix_of` dst)); [discriminate |].
  all: destruct (decide (dst `prefix_of` src)); [discriminate |].
  all: right; split; [split; assumption |].
  all: destruct n; try discriminate; injection H as <-; reflexivity.
Qed.

Lemma fs_rename_frame (src dst : path) (fs fs' : FS) (e : option errno) (k : path) :
  fs_rename src dst fs = (e, fs') ->
  ~ src `prefix_of` k -> ~ dst `prefix_of` k -> fs' !! k = fs !! k.
Proof.
  intros H Hs Hd. destruct e as [e |].
  - apply fs_rename_err in H. subst. reflexivity.
  - apply fs_rename_ok in H as (_ & _ & [[_ ->] | [Hi ->]]); [reflexivity |].
    rewrite move_tree_lookup by exact Hi.
    rewrite decide_False by exact Hd. rewrite decide_False by exact Hs. reflexivity.
Qed.

Lemma fs_remove_spec (p : path) (fs : FS) :
  (fst (fs_remove p fs) = None /\ snd (fs_remove p fs) = delete p fs)
  \/ (fst (fs_remove p fs) <> None /\ snd (fs_remove p fs) = fs).
Proof.
  unfold fs_remove. destruct (fs !! p) as [[|] |] eqn:E; try destruct (children fs p);
    simpl; first [left; split; reflexivity | right; split; [discriminate | reflexivity]].
Qed.

Lemma creates_mkdir : creates fs_mkdir NDir.
Proof.
  intros p fs. unfold fs_mkdir. destruct p as [| c p]; [reflexivity |].
  destruct (dir_status fs (removelast (c :: p))) eqn:Hd; [reflexivity |].
  destruct (fs !! (c :: p)) eqn:E; [reflexivity |]. auto.
Qed.

Lemma creates_excl : creates fs_create_excl (NFile []).
Proof.
  intros p fs. unfold fs_create_excl. destruct p as [| c p]; [reflexivity |].
  destruct (dir_status fs (removelast (c :: p))) eqn:Hd; [reflexivity |].
  destruct (fs !! (c :: p)) eqn:E; [reflexivity |]. auto.
Qed.

(** ** The monad *)

Lemma syscall_run {A} (on_fault : errno -> A) (op : FS -> A * FS) (w : World) :
  syscall on_fault op w =
    match head (w_faults w) with
    | Some (Some e) => (on_fault e, set_faults (tail (w_faults w)) w)
    | _ => (fst (op (w_fs w)),
            set_fs (snd (op (w_fs w))) (set_faults (tail (w_faults w)) w))
    end.
Proof.
  unfold syscall. destruct (head (w_faults w)) as [[e |] |]; try reflexivity;
    destruct (op (w_fs w)); reflexivity.
Qed.

Lemma syscall_ok {A} (on_fault : errno -> A) (op : FS -> A * FS) (w : World) :
  next_ok w ->
  syscall on_fault op w =
    (fst (op (w_fs w)), set_fs (snd (op (w_fs w))) (set_faults (tail (w_faults w)) w)).
Proof.
  unfold next_ok. intros H. rewrite syscall_run.
  destruct (w_faults w) as [| [f |] l]; simpl; try reflexivity. contradiction.
Qed.

(** Every system call either fails with no effect or runs [op]. *)
Lemma syscall_cases {A} (on_fault : errno -> A) (op : FS -> A * FS) (w : World) :
  (exists e, syscall on_fault op w = (on_fault e, set_faults (tail (w_faults w)) w))
  \/ syscall on_fault op w =
       (fst (op (w_fs w)), set_fs (snd (op (w_fs w))) (set_faults (tail (w_faults w)) w)).
Proof.
  rewrite syscall_run. destruct (head (w_faults w)) as [[e |] |]; eauto.
Qed.

Lemma os_rename_err (src dst : path) (w w' : World) (e : errno) :
  os_rename src dst w = (Some e, w') -> w_fs w' = w_fs w.
Proof.
  unfold os_rename. destruct (syscall_cases Some (fs_rename src dst) w) as [[e' H] | H];
    rewrite H; intros Heq; injection Heq as H1 H2; subst w'; [reflexivity |].
  simpl. destruct (fs_rename src dst (w_fs w)) as [r fs'] eqn:E. simpl in *. subst r.
  eapply fs_rename_err; eassumption.
Qed.

Lemma os_rename_ok (src dst : path) (w w' : World) :
  os_rename src dst w = (None, w') ->
  fs_rename src dst (w_fs w) = (None, w_fs w').
Proof.
  unfold os_rename. destruct (syscall_cases Some (fs_rename src dst) w) as [[e' H] | H];
    rewrite H; [discriminate |].
  intros [= Hr <-]. simpl. destruct (fs_rename src dst (w_fs w)). simpl in *. congruence.
Qed.

Lemma move_job_run (sub : string) (job : Job) (w : World) :
  move_job sub job w =
    let d := pjoin (pjoin (qbase (job_q job)) sub) (Basename job) in
    match os_rename (dir job) d w with
    | (Some e, w1) => ((job, Some e), w1)
    | (None, w1) => ((set_dir d job, None), w1)
    end.
Proof.
  unfold move_job, bind. simpl. destruct (os_rename _ _ w) as [[e |] w1]; reflexivity.
Qed.

Lemma move_job_fail (sub : string) (job j' : Job) (w w' : World) (e : errno) :
  move_job sub job w = ((j', Some e), w') -> j' = job /\ w_fs w' = w_fs w.
Proof.
  rewrite move_job_run. simpl.
  destruct (os_rename _ _ w) as [[e' |] w1] eqn:E; intros H; [| discriminate].
  injection H as <- <- <-. split; [reflexivity |]. eapply os_rename_err; eassumption.
Qed.

Lemma move_job_ok (sub : string) (job j' : Job) (w w' : World) :
  move_job sub job w = ((j', None), w') ->
  let d := pjoin (pjoin (qbase (job_q job)) sub) (Basename job) in
  j' = set_dir d job /\ fs_rename (dir job) d (w_fs w) = (None, w_fs w').
Proof.
  rewrite move_job_run. simpl.
  destruct (os_rename _ _ w) as [[e' |] w1] eqn:E; intros H; [discriminate |].
  injection H as <- <-. split; [reflexivity |]. apply os_rename_ok, E.
Qed.

Lemma take_claim_run (q : Queue) (b : string) (w : World) :
  take_claim q b w =
    let d := pjoin (pjoin (qbase q) (mycur (w_pid w))) b in
    match os_rename (pjoin (pjoin (qbase q) "new") b) d w with
    | (Some e, w1) => (if is_not_exist e then TakeContinue else TakeReturn None (Some e), w1)
    | (None, w1) => (TakeReturn (Some (mkJob b d q)) None, w1)
    end.
Proof.
  unfold take_claim, bind, os_getpid. simpl.
  destruct (os_rename _ _ w) as [[e |] w1]; [destruct (is_not_exist e) |]; reflexivity.
Qed.

(** ** Properties, job states and rescue *)

Lemma next_rnd_fs (w : World) : w_fs (snd (next_rnd w)) = w_fs w /\ w_faults (snd (next_rnd w)) = w_faults w.
Proof. unfold next_rnd. destruct (w_rnd w); split; reflexivity. Qed.

Lemma syscall_create_fs (create : path -> FS -> option errno * FS) (n : node) (p : path) (w : World) :
  creates create n ->
  match syscall Some (create p) w with
  | (None, w') => w_fs w !! p = None /\ w_fs w' = <[p := n]> (w_fs w)
                  /\ dir_status (w_fs w) (removelast p) = None
  | (Some _, w') => w_fs w' = w_fs w
  end.
Proof.
  intros Hc. destruct (syscall_cases Some (create p) w) as [[e ->] | ->]; [reflexivity |].
  simpl. specialize (Hc p (w_fs w)). destruct (create p (w_fs w)) as [[e |] fs']; exact Hc.
Qed.

Lemma temp_loop_fs (create : path -> FS -> option errno * FS) (n : node)
    (fuel : nat) (d : path) (pre suf : string) (w : World) :
  creates create n ->
  match temp_loop create fuel d pre suf w with
  | ((f, None), w') =>
      (exists r : nat, f = d ++ [String.append pre (String.append (itoa (Z.of_nat r)) suf)])
      /\ w_fs w !! f = None /\ w_fs w' = <[f := n]> (w_fs w) /\ dir_status (w_fs w) d = None
  | ((_, Some _), w') => w_fs w' = w_fs w
  end.
Proof.
  intros Hc. revert w. induction fuel as [| fuel IH]; intros w; [reflexivity |].
  simpl. unfold bind at 1.
  destruct (next_rnd w) as [r w1] eqn:Er.
  pose proof (next_rnd_fs w) as [Hf1 _]. rewrite Er in Hf1. simpl in Hf1.
  unfold bind.
  pose proof (syscall_create_fs create n (d ++ [String.append pre (String.append (itoa (Z.of_nat r)) suf)]) w1 Hc) as Hs.
  destruct (syscall Some (create _) w1) as [[e |] w2] eqn:Es.
  - destruct (is_exist e).
    + specialize (IH w2). destruct (temp_loop create fuel d pre suf w2) as [[f [e' |]] w3].
      * congruence.
      * destruct IH as (Hr & H1 & H2 & H3). rewrite Hs in *. rewrite Hf1 in *. auto.
    + simpl. congruence.
  - simpl. destruct Hs as (H1 & H2 & H3). rewrite Hf1 in *.
    rewrite removelast_last in H3. eauto 6.
Qed.

Lemma create_temp_fs (d : path) (pat : string) (w : World) :
  match create_temp d pat w with
  | ((f, None), w') =>
      (exists pre suf, prefix_and_suffix pat = Some (pre, suf) /\
         exists r : nat, f = d ++ [String.append pre (String.append (itoa (Z.of_nat r)) suf)])
      /\ w_fs w !! f = None /\ w_fs w' = <[f := NFile []]> (w_fs w)
      /\ dir_status (w_fs w) d = None
  | ((_, Some _), w') => w_fs w' = w_fs w
  end.
Proof.
  unfold create_temp, os_temp. destruct (prefix_and_suffix pat) as [[pre suf] |] eqn:Ep;
    [| reflexivity].
  pose proof (temp_loop_fs fs_create_excl (NFile []) temp_tries d pre suf w creates_excl) as H.
  destruct (temp_loop _ _ _ _ _ w) as [[f [e |]] w']; [exact H |].
  destruct H as (Hr & H). eauto 6.
Qed.

Lemma os_write_fs (f : path) (data : list Byte.byte) (w : World) :
  match os_write f data w with
  | (None, w') => exists c, w_fs w !! f = Some (NFile c)
                  /\ w_fs w' = <[f := NFile (c ++ data)]> (w_fs w)
  | (Some _, w') => w_fs w' = w_fs w
  end.
Proof.
  unfold os_write. destruct (syscall_cases Some (fs_write f data) w) as [[e ->] | ->];
    [reflexivity |].
  simpl. unfold fs_write. destruct (w_fs w !! f) as [[| c] |] eqn:E; simpl; eauto.
Qed.

Lemma os_close_fs (f : path) (w : World) : w_fs (snd (os_close f w)) = w_fs w.
Proof.
  unfold os_close. destruct (syscall_cases Some (fun fs => (None, fs)) w) as [[e ->] | ->];
    reflexivity.
Qed.

Lemma os_readfile_ok (p : path) (w : World) (c : list Byte.byte) :
  next_ok w -> w_fs w !! p = Some (NFile c) -> fst (os_readfile p w) = (c, None).
Proof.
  intros Hok Hp. unfold os_readfile. rewrite syscall_ok by exact Hok. simpl.
  unfold fs_readfile. rewrite Hp. reflexivity.
Qed.

Lemma Set_run (j : Job) (name : string) (data : list Byte.byte) (w : World) :
  Set_ j name data w =
    match create_temp (pjoin (qbase (job_q j)) "tmp") name w with
    | ((_, Some e), w1) => (Some e, w1)
    | ((f, None), w1) =>
        match os_write f data w1 with
        | (Some e, w2) => (Some e, w2)
        | (None, w2) =>
            match os_close f w2 with
            | (Some e, w3) => (Some e, w3)
            | (None, w3) =>
                match os_rename f (pjoin (dir j) name) w3 with
                | (Some e, w4) => (Some e, add_log (LogRenameFailed f (pjoin (dir j) name)) w4)
                | (None, w4) => (None, w4)
                end
            end
        end
    end.
Proof.
  unfold Set_, bind, ret, log.
  destruct (create_temp _ _ w) as [[f [e |]] w1]; [reflexivity |].
  destruct (os_write f data w1) as [[e |] w2]; [reflexivity |].
  destruct (os_close f w2) as [[e |] w3]; [reflexivity |].
  destruct (os_rename f _ w3) as [[e |] w4]; reflexivity.
Qed.

Lemma insert_fresh_keeps (fs : FS) (f k : path) (x v : node) :
  fs !! f = None -> fs !! k = Some v -> <[f := x]> fs !! k = Some v.
Proof. intros Hf Hk. rewrite lookup_insert_ne; [exact Hk | congruence]. Qed.

Lemma has_digit_app (a b : string) :
  has_digit (String.append a b) = has_digit a || has_digit b.
Proof.
  induction a as [| x a IH]; [reflexivity |].
  change (String.append (String x a) b) with (String x (String.append a b)).
  simpl. rewrite IH. apply orb_assoc.
Qed.

Lemma has_digit_itoa (z : Z) : has_digit (itoa z) = true.
Proof.
  assert (Hu : forall n, has_digit (utoa n) = true).
  { intros n. destruct (utoa_shape n) as (c & r & -> & Hd & _). simpl.
    unfold is_digit. destruct (digit_val c); [reflexivity | congruence]. }
  unfold itoa. destruct (z <? 0)%Z; [simpl; apply Hu | apply Hu].
Qed.

Lemma no_slash_itoa (z : Z) : has_slash (itoa z) = false.
Proof.
  pose proof (plain_itoa z) as H. unfold plain in H.
  apply andb_prop in H as [_ H]. apply negb_true_iff, H.
Qed.

Lemma plain_temp_name (pre suf : string) (z : Z) :
  has_slash pre = false -> has_slash suf = false ->
  plain (String.append pre (String.append (itoa z) suf)) = true.
Proof.
  intros Hp Hs.
  set (t := String.append pre (String.append (itoa z) suf)).
  assert (Hd : has_digit t = true).
  { unfold t. rewrite !has_digit_app, has_digit_itoa. rewrite orb_true_r. reflexivity. }
  assert (Hn : forall u, has_digit u = false -> String.eqb t u = false).
  { intros u Hu. destruct (String.eqb_spec t u) as [-> | _]; [congruence | reflexivity]. }
  unfold plain. rewrite !Hn by reflexivity.
  unfold t. rewrite !has_slash_app, Hp, Hs, no_slash_itoa. reflexivity.
Qed.

Lemma split_last_star_no_slash (s p x : string) :
  has_slash s = false -> split_last_star s = Some (p, x) ->
  has_slash p = false /\ has_slash x = false.
Proof.
  revert p x. induction s as [| c s IH]; intros p x Hs; simpl; [discriminate |].
  simpl in Hs. apply orb_false_iff in Hs as [Hc Hs].
  destruct (split_last_star s) as [[p' x'] |] eqn:E.
  - intros [= <- <-]. destruct (IH p' x' Hs eq_refl) as [H1 H2].
    simpl. rewrite Hc, H1. auto.
  - destruct (Ascii.eqb c "*"%char); [intros [= <- <-]; auto | discriminate].
Qed.

Lemma prefix_and_suffix_no_slash (pat pre suf : string) :
  prefix_and_suffix pat = Some (pre, suf) ->
  has_slash pre = false /\ has_slash suf = false.
Proof.
  unfold prefix_and_suffix. destruct (has_slash pat) eqn:Hs; [discriminate |].
  destruct (split_last_star pat) as [[p x] |] eqn:E.
  - intros [= <- <-]. eapply split_last_star_no_slash; eassumption.
  - intros [= <- <-]. auto.
Qed.

Lemma CreateJob_ok (q : Queue) (pre : string) (w w' : World) (job : Job) :
  CreateJob q pre w = ((Some job, None), w') ->
  plain (Basename job) = true /\ job_q job = q
  /\ dir job = qbase q ++ ["tmp"; Basename job]
  /\ w_fs w !! dir job = None /\ w_fs w' = <[dir job := NDir]> (w_fs w).
Proof.
  unfold CreateJob, bind, mkdir_temp, os_temp.
  destruct (prefix_and_suffix pre) as [[p s] |] eqn:Ep; [| discriminate].
  pose proof (temp_loop_fs fs_mkdir NDir temp_tries (pjoin (qbase q) "tmp") p s w creates_mkdir) as H.
  destruct (temp_loop _ _ _ _ _ w) as [[f [e |]] w1]; [discriminate |].
  intros [= <- <-]. destruct H as ((r & ->) & Hf & Hw & _).
  destruct (prefix_and_suffix_no_slash _ _ _ Ep) as [Hp Hs].
  pose proof (plain_temp_name p s (Z.of_nat r) Hp Hs) as Hpl.
  unfold pbase. rewrite last_snoc. simpl. rewrite qbase_sub by reflexivity.
  rewrite qbase_sub in Hf, Hw by reflexivity. rewrite <- app_assoc in Hf, Hw. rewrite <- app_assoc. auto.
Qed.

Lemma not_prefix_longer (a b : path) : length b < length a -> ~ a `prefix_of` b.
Proof. intros Hl Hp. apply prefix_length in Hp. lia. Qed.

Lemma not_prefix_fork (base r1 r2 : path) (x y : string) :
  x <> y -> ~ (base ++ x :: r1) `prefix_of` (base ++ y :: r2).
Proof.
  intros Hxy Hp. apply prefix_app_inv in Hp. destruct Hp as [l Hl].
  injection Hl as Hl _. congruence.
Qed.

Lemma dir_status_same (fs fs' : FS) (d : path) :
  fs' !! d = fs !! d -> dir_status fs d = None -> dir_status fs' d = None.
Proof.
  intros H. destruct d; [reflexivity | simpl; rewrite H].
  destruct (fs !! _) as [[|] |]; intros E; [reflexivity | discriminate | discriminate].
Qed.

(** A rename that moved a subtree to another place. *)
Lemma rename_moved (src dst : path) (fs fs' : FS) :
  src <> dst -> fs_rename src dst fs = (None, fs') ->
  is_Some (fs !! src)
  /\ dir_status fs (removelast dst) = None
  /\ (forall r, fs' !! (dst ++ r) = fs !! (src ++ r))
  /\ (forall r, fs' !! (src ++ r) = None)
  /\ (forall k, ~ src `prefix_of` k -> ~ dst `prefix_of` k -> fs' !! k = fs !! k).
Proof.
  intros Hne H.
  apply fs_rename_ok in H as (Hs & Hd & [[Heq _] | [Hi ->]]); [congruence |].
  pose proof Hi as [Hsd Hds].
  split; [exact Hs |]. split; [exact Hd |]. split; [| split].
  - intros r. rewrite move_tree_lookup by exact Hi.
    rewrite decide_True by (exists r; reflexivity).
    rewrite drop_app_length. reflexivity.
  - intros r. rewrite move_tree_lookup by exact Hi.
    rewrite decide_False by (intros Hp; destruct (prefix_weak_total dst src (src ++ r) Hp) as [H | H]; [exists r; reflexivity | tauto | tauto]).
    rewrite decide_True by (exists r; reflexivity). reflexivity.
  - intros k H1 H2. rewrite move_tree_lookup by exact Hi.
    rewrite !decide_False by assumption. reflexivity.
Qed.

Lemma removelast_snoc2 (base : path) (x b : string) :
  removelast (base ++ [x; b]) = base ++ [x].
Proof.
  replace (base ++ [x; b]) with ((base ++ [x]) ++ [b]) by (rewrite <- app_assoc; reflexivity).
  apply removelast_last.
Qed.

Lemma move_job_moved (sub : string) (job j' : Job) (w w' : World) :
  plain sub = true -> plain (Basename job) = true ->
  dir job <> qbase (job_q job) ++ [sub; Basename job] ->
  move_job sub job w = ((j', None), w') ->
  let d := qbase (job_q job) ++ [sub; Basename job] in
  Basename j' = Basename job /\ job_q j' = job_q job /\ dir j' = d
  /\ is_Some (w_fs w !! dir job)
  /\ dir_status (w_fs w) (qbase (job_q job) ++ [sub]) = None
  /\ (forall r, w_fs w' !! (d ++ r) = w_fs w !! (dir job ++ r))
  /\ (forall r, w_fs w' !! (dir job ++ r) = None)
  /\ (forall k, ~ dir job `prefix_of` k -> ~ d `prefix_of` k -> w_fs w' !! k = w_fs w !! k).
Proof.
  intros Hs Hb Hne H. apply move_job_ok in H as [-> Hr]. simpl.
  rewrite qbase_sub, pjoin_plain, <- app_assoc in * by assumption. simpl in Hr.
  apply rename_moved in Hr; [| exact Hne].
  rewrite removelast_snoc2 in Hr. tauto.
Qed.

Lemma push_comp_plain (p : path) (c : string) : plain c = true -> push_comp p c = p ++ [c].
Proof.
  unfold plain, push_comp. intros H.
  repeat apply andb_prop in H as [H ?].
  apply negb_true_iff in H. rewrite H.
  repeat match goal with Hx : negb _ = true |- _ => apply negb_true_iff in Hx; rewrite Hx end.
  reflexivity.
Qed.

Lemma pjoin_mycur (p : path) (pid : Z) : pjoin p (mycur pid) = p ++ ["cur"; itoa pid].
Proof.
  unfold pjoin, mycur.
  change (split_slash (String.append "cur/" (itoa pid))) with ("cur" :: split_slash_aux "" (itoa pid)).
  rewrite split_slash_aux_no_slash by apply no_slash_itoa.
  change (String.append "" (itoa pid)) with (itoa pid).
  simpl. rewrite push_comp_plain by apply plain_itoa.
  rewrite (push_comp_plain p "cur") by reflexivity. rewrite <- app_assoc. reflexivity.
Qed.

Lemma ok_path_insert (fs : FS) (p p' : path) :
  ok_path fs p -> fs !! p' = None -> ok_path (<[p' := NDir]> fs) p.
Proof.
  intros [-> | [Hd Hs]] Hn; [left; reflexivity | right]. split.
  - destruct (decide (removelast p = p')) as [Heq | Hne].
    + rewrite <- Heq in Hn. destruct (removelast p) as [| c l]; [reflexivity |].
      simpl in Hd. rewrite Hn in Hd. discriminate.
    + apply (dir_status_same fs); [rewrite lookup_insert_ne by congruence; reflexivity | exact Hd].
  - rewrite lookup_insert_ne; [exact Hs |]. intros Heq. rewrite Heq, Hn in *. destruct Hs; discriminate.
Qed.

Lemma world_eta (w : World) : w_faults w = [] -> set_fs (w_fs w) (set_faults [] w) = w.
Proof. destruct w; simpl. intros ->. reflexivity. Qed.

Lemma ensuredir_run (a b : string) (w : World) :
  w_faults w = [] ->
  ensuredir a b w =
    match fs_mkdir (pjoin (pjoin [] a) b) (w_fs w) with
    | (Some e, fs') => (if is_exist e then None else Some e, set_fs fs' (set_faults [] w))
    | (None, fs') => (None, set_fs fs' (set_faults [] w))
    end.
Proof.
  intros Hf. unfold ensuredir, bind, os_mkdir. rewrite syscall_ok by (unfold next_ok; rewrite Hf; exact I).
  rewrite Hf. simpl. destruct (fs_mkdir _ (w_fs w)) as [[e |] fs']; [| reflexivity].
  simpl. destruct (is_exist e); reflexivity.
Qed.

Lemma removelast_shorter (c : string) (l : list string) :
  length (removelast (c :: l)) < length (c :: l).
Proof.
  destruct l as [| y l] using rev_ind; [simpl; lia |].
  rewrite app_comm_cons, removelast_last, length_app. simpl. lia.
Qed.

Lemma dir_status_not_exist (fs : FS) (d : path) (e : errno) :
  dir_status fs d = Some e -> is_exist e = false.
Proof.
  intros H. apply dir_status_err in H as [-> | ->]; reflexivity.
Qed.

(** [mkdir] as [ensuredir] sees it: success, or "already exists", leaves
    the path existing below a directory. *)
Lemma fs_mkdir_cases (p : path) (fs : FS) :
  match fs_mkdir p fs with
  | (None, fs') => ok_path fs' p /\ fs !! p = None /\ fs' = <[p := NDir]> fs
  | (Some e, fs') => fs' = fs /\ (is_exist e = true -> ok_path fs p)
  end.
Proof.
  unfold fs_mkdir. destruct p as [| c l]; [split; [reflexivity | intros _; left; reflexivity] |].
  destruct (dir_status fs (removelast (c :: l))) eqn:Hd; [split; [reflexivity | apply dir_status_not_exist in Hd; congruence] |].
  destruct (fs !! (c :: l)) eqn:E.
  - split; [reflexivity | intros _; right; split; [exact Hd | rewrite E; eauto]].
  - split; [| auto]. right.
    split; [| rewrite lookup_insert_eq; eauto].
    destruct (removelast (c :: l)) as [| c' l'] eqn:Er; [reflexivity |].
    apply (dir_status_same fs); [| exact Hd]. rewrite lookup_insert_ne; [reflexivity |].
    intros Heq. pose proof (removelast_shorter c l) as Hl. rewrite Er, Heq in Hl. lia.
Qed.

Lemma ok_path_grow (fs fs' : FS) (p : path) :
  (forall k, fs' !! k <> fs !! k -> fs !! k = None) ->
  ok_path fs p -> ok_path fs' p.
Proof.
  intros Hg [-> | [Hd [v Hv]]]; [left; reflexivity | right].
  assert (Hk : forall k x, fs !! k = Some x -> fs' !! k = Some x).
  { intros k x Hx. destruct (decide (fs' !! k = fs !! k)) as [E | E]; [congruence |].
    apply Hg in E. congruence. }
  split; [| eauto].
  destruct (removelast p) as [| c l]; [reflexivity |].
  simpl in Hd |- *. destruct (fs !! (c :: l)) as [[|] |] eqn:E; try discriminate.
  rewrite (Hk _ _ E). reflexivity.
Qed.

Lemma fs_mkdir_again (p : path) (fs : FS) : ok_path fs p -> fs_mkdir p fs = (Some EEXIST, fs).
Proof.
  intros [-> | [Hd [v Hv]]]; [reflexivity |]. unfold fs_mkdir.
  destruct p as [| c l]; [reflexivity |]. rewrite Hd, Hv. reflexivity.
Qed.

Lemma set_fs_eta (w : World) : set_fs (w_fs w) w = w.
Proof. destruct w; reflexivity. Qed.

Lemma ensure_all_first (base : string) (ds : list string) (w w' : World) :
  w_faults w = [] -> ensure_all base ds w = (None, w') ->
  w' = set_fs (w_fs w') w
  /\ Forall (ok_path (w_fs w')) (map (pjoin (pjoin [] base)) ds)
  /\ (forall k, w_fs w' !! k <> w_fs w !! k ->
        k ∈ map (pjoin (pjoin [] base)) ds /\ w_fs w !! k = None /\ w_fs w' !! k = Some NDir).
Proof.
  revert w. induction ds as [| d ds IH]; intros w Hf H.
  { injection H as <-. split; [symmetry; apply set_fs_eta |]. split; [constructor |].
    intros k Hk. congruence. }
  simpl in H. unfold bind at 1 in H. rewrite ensuredir_run in H by exact Hf.
  pose proof (fs_mkdir_cases (pjoin (pjoin [] base) d) (w_fs w)) as Hc.
  destruct (fs_mkdir _ (w_fs w)) as [[e |] fs1].
  - destruct Hc as [-> Hok]. destruct (is_exist e) eqn:Hx; [| discriminate].
    rewrite world_eta in H by exact Hf.
    destruct (IH w Hf H) as (Hw & Hall & Hch). split; [exact Hw |]. split.
    + constructor; [| exact Hall]. apply ok_path_grow with (fs := w_fs w); [| exact (Hok eq_refl)].
      intros k Hk. apply Hch, Hk.
    + intros k Hk. destruct (Hch k Hk) as (H1 & H2 & H3). split; [right; exact H1 | auto].
  - destruct Hc as (Hok & Hn & ->).
    set (w1 := set_fs (<[pjoin (pjoin [] base) d := NDir]> (w_fs w)) (set_faults [] w)) in H.
    assert (Hf1 : w_faults w1 = []) by reflexivity.
    destruct (IH w1 Hf1 H) as (Hw & Hall & Hch).
    assert (Hp : w_fs w' !! pjoin (pjoin [] base) d = Some NDir).
    { destruct (decide (w_fs w' !! pjoin (pjoin [] base) d = w_fs w1 !! pjoin (pjoin [] base) d)) as [E | E].
      - rewrite E. apply lookup_insert_eq.
      - apply Hch in E as (_ & E & _). simpl in E. rewrite lookup_insert_eq in E. discriminate. }
    split; [| split].
    + rewrite Hw. destruct w; simpl in *; subst. reflexivity.
    + constructor; [| exact Hall]. apply ok_path_grow with (fs := w_fs w1).
      * intros k Hk. apply Hch, Hk.
      * exact Hok.
    + intros k Hk. destruct (decide (k = pjoin (pjoin [] base) d)) as [-> | Hne].
      * split; [left |]. split; [exact Hn | exact Hp].
      * assert (E1 : w_fs w1 !! k = w_fs w !! k) by (simpl; apply lookup_insert_ne; congruence).
        rewrite <- E1 in Hk |- *. destruct (Hch k Hk) as (H1 & H2 & H3).
        split; [right; exact H1 | auto].
Qed.

Lemma ensure_all_again (base : string) (ds : list string) (w : World) :
  w_faults w = [] -> Forall (ok_path (w_fs w)) (map (pjoin (pjoin [] base)) ds) ->
  ensure_all base ds w = (None, w).
Proof.
  intros Hf. induction ds as [| d ds IH]; intros Hall; [reflexivity |].
  inversion Hall as [| ? ? Hd Hds]; subst.
  simpl. unfold bind at 1. rewrite ensuredir_run by exact Hf.
  rewrite fs_mkdir_again by exact Hd. simpl. rewrite world_eta by exact Hf.
  apply IH, Hds.
Qed.

Lemma open_paths_nonempty (d : string) (pid : Z) (p : path) :
  p ∈ open_paths d pid -> p <> [].
Proof.
  unfold open_paths. intros Hp. apply list_elem_of_fmap in Hp as (s & -> & Hs).
  unfold queue_subdirs in Hs. rewrite !elem_of_cons, elem_of_nil in Hs.
  intros Heq.
  destruct Hs as [-> | [-> | [-> | [-> | [-> | [-> | []]]]]]];
    rewrite ?pjoin_mycur, ?pjoin_plain in Heq by reflexivity;
    apply (f_equal length) in Heq; rewrite length_app in Heq; simpl in Heq; lia.
Qed.

Lemma OpenQueue_run (d : string) (w : World) :
  OpenQueue d w =
    match ensure_all d (queue_subdirs (w_pid w)) w with
    | (Some e, w1) => ((None, Some e), w1)
    | (None, w1) => ((Some (mkQueue d ""), None), w1)
    end.
Proof.
  unfold OpenQueue, bind, os_getpid, ret. change (basedir (mkQueue d "")) with d.
  destruct (ensure_all d (queue_subdirs (w_pid w)) w) as [[e |] w1]; reflexivity.
Qed.

Lemma OpenQueue_again (d : string) (w w1 : World) (r : option Queue) :
  w_faults w = [] -> OpenQueue d w = ((r, None), w1) ->
  r = Some (mkQueue d "")
  /\ (forall p, p ∈ open_paths d (w_pid w) -> is_Some (w_fs w1 !! p))
  /\ (forall k, w_fs w1 !! k <> w_fs w !! k ->
        k ∈ open_paths d (w_pid w) /\ w_fs w !! k = None /\ w_fs w1 !! k = Some NDir)
  /\ (forall p, p ∈ open_paths d (w_pid w) ->
        w_fs w !! p = None \/ w_fs w !! p = Some NDir -> w_fs w1 !! p = Some NDir)
  /\ OpenQueue d w1 = ((r, None), w1).
Proof.
  intros Hf H. rewrite OpenQueue_run in H.
  destruct (ensure_all d _ w) as [[e |] w2] eqn:E; [discriminate |].
  injection H as <- <-.
  destruct (ensure_all_first _ _ _ _ Hf E) as (Hw & Hall & Hch).
  fold (open_paths d (w_pid w)) in Hall, Hch.
  assert (Hex : forall p, p ∈ open_paths d (w_pid w) -> is_Some (w_fs w2 !! p)).
  { intros p Hp. pose proof (open_paths_nonempty _ _ _ Hp) as Hne.
    rewrite Forall_forall in Hall. destruct (Hall p Hp) as [-> | [_ Hs]]; [congruence | exact Hs]. }
  split; [reflexivity |]. split; [exact Hex |]. split; [exact Hch |]. split.
  - intros p Hp [Hn | Hn].
    + destruct (decide (w_fs w2 !! p = w_fs w !! p)) as [E1 | E1].
      * destruct (Hex p Hp) as [v Hv]. congruence.
      * apply Hch, E1.
    + destruct (decide (w_fs w2 !! p = w_fs w !! p)) as [E1 | E1]; [congruence |].
      apply Hch in E1 as (_ & E1 & _). congruence.
  - assert (Hp2 : w_pid w2 = w_pid w) by (rewrite Hw; reflexivity).
    assert (Hf2 : w_faults w2 = []) by (rewrite Hw; exact Hf).
    rewrite OpenQueue_run, Hp2, ensure_all_again; [reflexivity | exact Hf2 | exact Hall].
Qed.

Lemma dir_status_insert_dir (fs : FS) (d p : path) :
  dir_status fs d = None -> dir_status (<[p := NDir]> fs) d = None.
Proof.
  intros H. destruct (decide (p = d)) as [-> | Hne].
  - destruct d; [reflexivity |]. simpl. rewrite lookup_insert_eq. reflexivity.
  - apply (dir_status_same fs); [rewrite lookup_insert_ne by exact Hne; reflexivity | exact H].
Qed.

Lemma ensuredir_dir (a b : string) (w : World) :
  w_faults w = [] ->
  let p := pjoin (pjoin [] a) b in
  p <> [] -> dir_status (w_fs w) (removelast p) = None ->
  w_fs w !! p = None \/ w_fs w !! p = Some NDir ->
  ensuredir a b w = (None, set_fs (<[p := NDir]> (w_fs w)) (set_faults [] w)).
Proof.
  intros Hf p Hne Hd Hp. rewrite ensuredir_run by exact Hf. fold p.
  unfold fs_mkdir. destruct p as [| c l] eqn:Ep; [congruence |]. rewrite Hd.
  destruct Hp as [Hn | Hn]; rewrite Hn; [reflexivity |]. simpl. rewrite insert_id by exact Hn. reflexivity.
Qed.

Lemma ensure_all_ok (base : string) (ds : list string) (w : World) :
  w_faults w = [] ->
  (forall p, p ∈ map (pjoin (pjoin [] base)) ds ->
     p <> [] /\ (w_fs w !! p = None \/ w_fs w !! p = Some NDir)) ->
  parents_ok (w_fs w) (map (pjoin (pjoin [] base)) ds) ->
  exists w', ensure_all base ds w = (None, w').
Proof.
  revert w. induction ds as [| d ds IH]; intros w Hf Hps Hpar; [eexists; reflexivity |].
  simpl in Hpar. destruct Hpar as [Hd Hpar].
  destruct (Hps (pjoin (pjoin [] base) d)) as [Hne Hp]; [left |].
  simpl. unfold bind at 1. rewrite ensuredir_dir by assumption.
  apply IH; [reflexivity | | exact Hpar].
  intros q Hq. destruct (Hps q (proj2 (elem_of_cons _ _ _) (or_intror Hq))) as [Hqn Hql].
  split; [exact Hqn |]. simpl.
  destruct (decide (pjoin (pjoin [] base) d = q)) as [-> | Hneq].
  - right. apply lookup_insert_eq.
  - rewrite lookup_insert_ne by exact Hneq. exact Hql.
Qed.

Lemma open_paths_unfold (d : string) (pid : Z) :
  open_paths d pid =
    [pjoin [] d ++ ["tmp"]; pjoin [] d ++ ["new"]; pjoin [] d ++ ["cur"];
     pjoin [] d ++ ["done"]; pjoin [] d ++ ["failed"]; pjoin [] d ++ ["cur"; itoa pid]].
Proof.
  unfold open_paths, queue_subdirs. simpl. rewrite pjoin_mycur, !pjoin_plain by reflexivity.
  reflexivity.
Qed.

Lemma OpenQueue_succeeds (d : string) (w : World) :
  w_faults w = [] -> dir_status (w_fs w) (pjoin [] d) = None ->
  (forall p, p ∈ open_paths d (w_pid w) -> w_fs w !! p = None \/ w_fs w !! p = Some NDir) ->
  exists w1, OpenQueue d w = ((Some (mkQueue d ""), None), w1).
Proof.
  intros Hf Hroot Hps. rewrite OpenQueue_run.
  destruct (ensure_all_ok d (queue_subdirs (w_pid w)) w Hf) as [w1 ->].
  - intros p Hp. split; [eapply open_paths_nonempty, Hp | apply Hps, Hp].
  - fold (open_paths d (w_pid w)). rewrite open_paths_unfold. simpl.
    rewrite !removelast_last.
    replace (pjoin [] d ++ ["cur"; itoa (w_pid w)]) with ((pjoin [] d ++ ["cur"]) ++ [itoa (w_pid w)])
      by (rewrite <- app_assoc; reflexivity).
    rewrite removelast_last.
    repeat split; try (repeat apply dir_status_insert_dir; exact Hroot). do 2 apply dir_status_insert_dir.
    destruct (pjoin [] d ++ ["cur"]) as [| c l] eqn:E;
      [destruct (pjoin [] d); discriminate |].
    simpl. rewrite lookup_insert_eq. reflexivity.
  - eexists. reflexivity.
Qed.

Lemma forM_cons {A} (x : A) (l : list A) (f : A -> M unit) (w : World) :
  forM_ (x :: l) f w = forM_ l f (snd (f x w)).
Proof. simpl. unfold bind. destruct (f x w). reflexivity. Qed.

Lemma forM_inv {A} (Inv : World -> Prop) (l : list A) (f : A -> M unit) (w : World) :
  (forall x w, x ∈ l -> Inv w -> Inv (snd (f x w))) -> Inv w -> Inv (snd (forM_ l f w)).
Proof.
  revert w. induction l as [| x l IH]; intros w Hf Hw; [exact Hw |].
  rewrite forM_cons. apply IH.
  - intros y w' Hy. apply Hf. apply elem_of_cons. right. exact Hy.
  - apply Hf; [apply elem_of_cons; left; reflexivity | exact Hw].
Qed.

Lemma forM_reach {A} (Inv Good : World -> Prop) (l : list A) (f : A -> M unit) (s : A) (w : World) :
  (forall x w, x ∈ l -> Inv w -> Inv (snd (f x w))) ->
  (forall x w, x ∈ l -> Inv w -> Good w -> Good (snd (f x w))) ->
  (forall w, Inv w -> Good (snd (f s w))) ->
  s ∈ l -> Inv w -> Good (snd (forM_ l f w)).
Proof.
  intros Hi Hg Hs. revert w. induction l as [| x l IH]; intros w Hin Hw.
  { apply elem_of_nil in Hin. contradiction. }
  rewrite forM_cons. apply elem_of_cons in Hin as [-> | Hin].
  - apply (forM_inv (fun w => Inv w /\ Good w)).
    + intros y w' Hy [H1 H2]. split; [apply Hi | apply Hg]; auto; apply elem_of_cons; auto.
    + split; [apply Hi; [apply elem_of_cons; auto | exact Hw] | apply Hs, Hw].
  - apply IH.
    + intros y w' Hy. apply Hi. apply elem_of_cons. auto.
    + intros y w' Hy. apply Hg. apply elem_of_cons. auto.
    + exact Hin.
    + apply Hi; [apply elem_of_cons; auto | exact Hw].
Qed.

Lemma rescue_entry_run (q : Queue) (s : string) (w : World) :
  rescue_entry q s w =
    match atoi s with
    | None => (tt, add_log (LogNotPid s) w)
    | Some pid =>
        match w_probe w pid with
        | None => (tt, w)
        | Some e =>
            if decide (e = ESRCH) then
              let w2 := snd (rescueDeadJobsFrom q pid (add_log (LogGoneAway pid) w)) in
              match os_remove (getWorkerDir q pid) w2 with
              | (Some e', w3) => (tt, add_log (LogRmdirFailed (getWorkerDir q pid) e') w3)
              | (None, w3) => (tt, w3)
              end
            else (tt, add_log (LogKillFailed pid e) (add_log (LogKillFailed pid e) w))
        end
    end.
Proof.
  unfold rescue_entry. destruct (atoi s) as [pid |]; [| reflexivity].
  unfold processExists, bind, syscall_kill, ret, log. simpl.
  destruct (w_probe w pid) as [e |]; [| reflexivity].
  destruct (decide (e = ESRCH)); [| reflexivity].
  destruct (rescueDeadJobsFrom q pid _) as [[] w2]. simpl.
  destruct (os_remove _ w2) as [[e' |] w3]; reflexivity.
Qed.

Lemma rescueDeadJobsFrom_run (q : Queue) (pid : Z) (w : World) :
  rescueDeadJobsFrom q pid w =
    let d := getWorkerDir q pid in
    match readdirnames d w with
    | ((names, err), w1) =>
        forM_ names (fun s =>
          err <- os_rename (pjoin d s) (pjoin (getNewDir q) s) ;;
          match err with
          | Some e => log (LogRescheduleFailed s pid e)
          | None => log (LogRescheduled s pid)
          end)
          (match err with Some _ => add_log (LogCouldNotRead pid d) w1 | None => w1 end)
    end.
Proof.
  unfold rescueDeadJobsFrom, bind at 1. simpl.
  destruct (readdirnames _ w) as [[names [e |]] w1]; unfold bind, log, ret; simpl;
    destruct (forM_ names _ _); reflexivity.
Qed.

(** ** Footprints *)

Lemma within_refl (P : path -> Prop) (fs : FS) : within P fs fs.
Proof. intros k H. congruence. Qed.

Lemma within_trans (P : path -> Prop) (fs1 fs2 fs3 : FS) :
  within P fs1 fs2 -> within P fs2 fs3 -> within P fs1 fs3.
Proof.
  intros H1 H2 k Hk. destruct (decide (fs3 !! k = fs2 !! k)) as [E | E].
  - apply H1. congruence.
  - apply H2, E.
Qed.

Lemma within_mono (P Q : path -> Prop) (fs fs' : FS) :
  (forall k, P k -> Q k) -> within P fs fs' -> within Q fs fs'.
Proof. intros HPQ H k Hk. apply HPQ, H, Hk. Qed.

Lemma wf_children (fs : FS) (d : path) (x : string) :
  wf_fs fs -> x ∈ children fs d -> plain x = true.
Proof.
  intros Hwf Hx. apply elem_of_children in Hx as [n Hn]. apply Hwf in Hn.
  apply Forall_app in Hn as [_ Hn]. inversion Hn; assumption.
Qed.

Lemma wf_rename (src dst : path) (fs : FS) :
  wf_fs fs -> plain_path dst -> wf_fs (snd (fs_rename src dst fs)).
Proof.
  intros Hwf Hd. destruct (fs_rename src dst fs) as [[e |] fs'] eqn:E; simpl.
  - apply fs_rename_err in E. subst. exact Hwf.
  - apply fs_rename_ok in E as (_ & _ & [[_ ->] | [Hi ->]]); [exact Hwf |].
    intros k n Hk. rewrite move_tree_lookup in Hk by exact Hi.
    case_decide as H1.
    + apply Hwf in Hk. destruct H1 as [r ->]. rewrite drop_app_length in Hk.
      apply Forall_app in Hk as [_ Hr]. apply Forall_app. auto.
    + case_decide; [discriminate | eapply Hwf, Hk].
Qed.

Lemma wf_delete (p : path) (fs : FS) : wf_fs fs -> wf_fs (delete p fs).
Proof.
  intros Hwf k n Hk. apply lookup_delete_Some in Hk as [_ Hk]. eapply Hwf, Hk.
Qed.

Lemma syscall_fields {A} (on_fault : errno -> A) (op : FS -> A * FS) (w : World) :
  let w' := snd (syscall on_fault op w) in
  w_probe w' = w_probe w /\ w_pid w' = w_pid w /\ w_log w' = w_log w
  /\ (w_fs w' = w_fs w \/ w_fs w' = snd (op (w_fs w))).
Proof.
  destruct (syscall_cases on_fault op w) as [[e ->] | ->]; simpl; auto.
Qed.

Lemma same_env_refl (w : World) : same_env w w.
Proof. split; [| split]; [reflexivity | reflexivity | exists []; reflexivity]. Qed.

Lemma same_env_trans (w1 w2 w3 : World) : same_env w1 w2 -> same_env w2 w3 -> same_env w1 w3.
Proof.
  intros (H1 & H2 & l1 & H3) (H4 & H5 & l2 & H6).
  split; [congruence | split; [congruence |]]. exists (l2 ++ l1). rewrite H6, H3, app_assoc. reflexivity.
Qed.

Lemma os_rename_step (src dst : path) (w : World) :
  wf_fs (w_fs w) -> plain_path dst ->
  let w' := snd (os_rename src dst w) in
  wf_fs (w_fs w') /\ same_env w w'
  /\ within (fun k => src `prefix_of` k \/ dst `prefix_of` k) (w_fs w) (w_fs w').
Proof.
  intros Hwf Hd. unfold os_rename.
  destruct (syscall_fields Some (fs_rename src dst) w) as (H1 & H2 & H3 & [H4 | H4]).
  - rewrite H4. split; [exact Hwf | split; [| apply within_refl]].
    split; [exact H1 | split; [exact H2 | exists []; exact H3]].
  - split; [rewrite H4; apply wf_rename; assumption |].
    split; [split; [exact H1 | split; [exact H2 | exists []; exact H3]] |].
    intros k Hk. rewrite H4 in Hk.
    destruct (decide (src `prefix_of` k)); [left; assumption |].
    destruct (decide (dst `prefix_of` k)); [right; assumption |].
    exfalso. apply Hk. destruct (fs_rename src dst (w_fs w)) eqn:E.
    eapply fs_rename_frame; eassumption.
Qed.

Lemma os_remove_step (p : path) (w : World) :
  wf_fs (w_fs w) ->
  let w' := snd (os_remove p w) in
  wf_fs (w_fs w') /\ same_env w w' /\ within (fun k => k = p) (w_fs w) (w_fs w').
Proof.
  intros Hwf. unfold os_remove.
  destruct (syscall_fields Some (fs_remove p) w) as (H1 & H2 & H3 & H4).
  assert (He : same_env w (snd (syscall Some (fs_remove p) w)))
    by (split; [exact H1 | split; [exact H2 | exists []; exact H3]]).
  destruct H4 as [H4 | H4]; rewrite H4.
  - split; [exact Hwf | split; [exact He | apply within_refl]].
  - destruct (fs_remove_spec p (w_fs w)) as [[_ E] | [_ E]]; rewrite E.
    + split; [apply wf_delete, Hwf | split; [exact He |]].
      intros k Hk. destruct (decide (k = p)); [assumption |].
      exfalso. apply Hk. apply lookup_delete_ne. congruence.
    + split; [exact Hwf | split; [exact He | apply within_refl]].
Qed.

Lemma readdirnames_step (p : path) (w : World) :
  let w' := snd (readdirnames p w) in w_fs w' = w_fs w /\ same_env w w'.
Proof.
  unfold readdirnames.
  destruct (syscall_fields (fun e => ([], Some e)) (fun fs => (fs_readdir p fs, fs)) w)
    as (H1 & H2 & H3 & [H4 | H4]); (split; [exact H4 | split; [exact H1 | split; [exact H2 | exists []; exact H3]]]).
Qed.

Lemma add_log_env (ev : logev) (w : World) : same_env w (add_log ev w).
Proof. split; [reflexivity | split; [reflexivity | exists [ev]; reflexivity]]. Qed.

Lemma readdirnames_names (p : path) (w : World) :
  fst (fst (readdirnames p w)) = [] \/ fst (fst (readdirnames p w)) = children (w_fs w) p.
Proof.
  unfold readdirnames. rewrite syscall_run.
  destruct (head (w_faults w)) as [[e |] |]; simpl; [left; reflexivity | |];
    unfold fs_readdir; destruct (dir_status (w_fs w) p); auto.
Qed.

Lemma getWorkerDir_eq (q : Queue) (pid : Z) : getWorkerDir q pid = qbase q ++ ["cur"; itoa pid].
Proof.
  unfold getWorkerDir. rewrite qbase_sub by reflexivity.
  rewrite pjoin_plain by apply plain_itoa. rewrite <- app_assoc. reflexivity.
Qed.

Lemma getNewDir_eq (q : Queue) : getNewDir q = qbase q ++ ["new"].
Proof. apply qbase_sub. reflexivity. Qed.

Lemma getCurDir_eq (q : Queue) : getCurDir q = qbase q ++ ["cur"].
Proof. apply qbase_sub. reflexivity. Qed.

Lemma plain_path_app (p p' : path) : plain_path p -> plain_path p' -> plain_path (p ++ p').
Proof. intros H1 H2. apply Forall_app. auto. Qed.

Lemma plain_path_new (q : Queue) (x : string) : plain x = true -> plain_path (getNewDir q ++ [x]).
Proof.
  intros Hx. rewrite getNewDir_eq. apply plain_path_app; [apply plain_path_app |];
    [apply plain_path_qbase | repeat constructor | repeat constructor; exact Hx].
Qed.

Lemma reschedule_run (q : Queue) (pid : Z) (s : string) (w : World) :
  reschedule q pid s w =
    match os_rename (pjoin (getWorkerDir q pid) s) (pjoin (getNewDir q) s) w with
    | (Some e, w1) => (tt, add_log (LogRescheduleFailed s pid e) w1)
    | (None, w1) => (tt, add_log (LogRescheduled s pid) w1)
    end.
Proof. unfold reschedule, bind, log. destruct (os_rename _ _ w) as [[e |] w1]; reflexivity. Qed.

Lemma rescueDeadJobsFrom_run' (q : Queue) (pid : Z) (w : World) :
  rescueDeadJobsFrom q pid w =
    let d := getWorkerDir q pid in
    match readdirnames d w with
    | ((names, err), w1) =>
        forM_ names (reschedule q pid)
          (match err with Some _ => add_log (LogCouldNotRead pid d) w1 | None => w1 end)
    end.
Proof. apply rescueDeadJobsFrom_run. Qed.

Lemma rescueDeadJobsFrom_coarse (q : Queue) (pid : Z) (w : World) :
  wf_fs (w_fs w) ->
  let w' := snd (rescueDeadJobsFrom q pid w) in
  wf_fs (w_fs w') /\ same_env w w'
  /\ within (fun k => getWorkerDir q pid `prefix_of` k \/ getNewDir q `prefix_of` k) (w_fs w) (w_fs w').
Proof.
  intros Hwf. rewrite rescueDeadJobsFrom_run'. simpl.
  pose proof (readdirnames_names (getWorkerDir q pid) w) as Hn.
  destruct (readdirnames_step (getWorkerDir q pid) w) as [Hf1 He1].
  destruct (readdirnames _ w) as [[names err] w1]. simpl in Hn, Hf1, He1.
  set (w2 := match err with Some _ => add_log (LogCouldNotRead pid (getWorkerDir q pid)) w1 | None => w1 end).
  assert (Hw2 : w_fs w2 = w_fs w /\ same_env w w2).
  { unfold w2. destruct err; [| auto]. split; [exact Hf1 | eapply same_env_trans; [exact He1 | apply add_log_env]]. }
  destruct Hw2 as [Hf2 He2].
  apply (forM_inv (fun w' => wf_fs (w_fs w') /\ same_env w w'
           /\ within (fun k => getWorkerDir q pid `prefix_of` k \/ getNewDir q `prefix_of` k) (w_fs w) (w_fs w'))).
  - intros x w3 Hx (Hwf3 & He3 & Hwi3).
    assert (Hpx : plain x = true).
    { destruct Hn as [Hn | Hn]; rewrite Hn in Hx; [apply elem_of_nil in Hx; contradiction | exact (wf_children _ _ _ Hwf Hx)]. }
    rewrite reschedule_run.
    destruct (os_rename_step (pjoin (getWorkerDir q pid) x) (pjoin (getNewDir q) x) w3 Hwf3)
      as (Hwf4 & He4 & Hwi4); [rewrite pjoin_plain by exact Hpx; apply plain_path_new, Hpx |].
    destruct (os_rename _ _ w3) as [[e |] w4]; simpl in *;
      (split; [exact Hwf4 | split; [eapply same_env_trans; [exact He3 | eapply same_env_trans; [exact He4 | apply add_log_env]] |]]);
      (eapply within_trans; [exact Hwi3 |]); (eapply within_mono; [| exact Hwi4]);
      rewrite !pjoin_plain by exact Hpx; intros k [Hk | Hk]; [left | right | left | right];
      (etrans; [| exact Hk]); exists [x]; reflexivity.
  - split; [rewrite Hf2; exact Hwf | split; [exact He2 |]]. rewrite Hf2. apply within_refl.
Qed.

Lemma rescue_entry_coarse (q : Queue) (s : string) (w : World) :
  wf_fs (w_fs w) ->
  let w' := snd (rescue_entry q s w) in
  wf_fs (w_fs w') /\ same_env w w'
  /\ within (fun k => exists p, atoi s = Some p /\ w_probe w p = Some ESRCH
                /\ (getWorkerDir q p `prefix_of` k \/ getNewDir q `prefix_of` k))
       (w_fs w) (w_fs w').
Proof.
  intros Hwf. rewrite rescue_entry_run. cbv zeta.
  destruct (atoi s) as [p |] eqn:Ea;
    [| split; [exact Hwf | split; [apply add_log_env | apply within_refl]]].
  destruct (w_probe w p) as [e |] eqn:Ep; [| split; [exact Hwf | split; [apply same_env_refl | apply within_refl]]].
  destruct (decide (e = ESRCH)) as [-> | Hne].
  2: { split; [exact Hwf | split; [| apply within_refl]].
       eapply same_env_trans; apply add_log_env. }
  destruct (rescueDeadJobsFrom_coarse q p (add_log (LogGoneAway p) w) Hwf) as (Hwf2 & He2 & Hwi2).
  set (w2 := snd (rescueDeadJobsFrom q p (add_log (LogGoneAway p) w))) in *.
  destruct (os_remove_step (getWorkerDir q p) w2 Hwf2) as (Hwf3 & He3 & Hwi3).
  assert (Hfin : forall w4, w_fs w4 = w_fs (snd (os_remove (getWorkerDir q p) w2)) ->
                   same_env (snd (os_remove (getWorkerDir q p) w2)) w4 ->
                   wf_fs (w_fs w4) /\ same_env w w4
                   /\ within (fun k => exists p0, Some p = Some p0 /\ w_probe w p0 = Some ESRCH
                        /\ (getWorkerDir q p0 `prefix_of` k \/ getNewDir q `prefix_of` k)) (w_fs w) (w_fs w4)).
  { intros w4 Hf4 He4. rewrite Hf4. split; [exact Hwf3 | split].
    - eapply same_env_trans; [apply add_log_env |]. eapply same_env_trans; [exact He2 |].
      eapply same_env_trans; [exact He3 | exact He4].
    - apply (within_mono (fun k => getWorkerDir q p `prefix_of` k \/ getNewDir q `prefix_of` k));
        [intros k Hk; exists p; auto |].
      eapply within_trans; [exact Hwi2 |]. eapply within_mono; [| exact Hwi3].
      intros k ->. left. reflexivity. }
  destruct (os_remove _ w2) as [[e' |] w3].
  - exact (Hfin (add_log (LogRmdirFailed (getWorkerDir q p) e') w3) eq_refl (add_log_env _ _)).
  - exact (Hfin _ eq_refl (same_env_refl _)).
Qed.

Lemma readdirnames_ok (p : path) (w w' : World) (names : list string) :
  readdirnames p w = ((names, None), w') -> names = children (w_fs w) p.
Proof.
  unfold readdirnames. rewrite syscall_run.
  destruct (head (w_faults w)) as [[e |] |]; simpl; intros H; [discriminate | |];
    unfold fs_readdir in H; destruct (dir_status (w_fs w) p); simpl in H; congruence.
Qed.

Lemma RescueDeadJobs_run (q : Queue) (w : World) :
  RescueDeadJobs q w =
    match readdirnames (getCurDir q) w with
    | ((names, Some e), w1) => (Some e, add_log (LogCouldNotRescue (getCurDir q)) w1)
    | ((names, None), w1) => (None, snd (forM_ names (rescue_entry q) w1))
    end.
Proof.
  unfold RescueDeadJobs, bind, log, ret.
  destruct (readdirnames (getCurDir q) w) as [[names [e |]] w1]; [reflexivity |].
  destruct (forM_ names (rescue_entry q) w1). reflexivity.
Qed.

Lemma RescueDeadJobs_coarse (q : Queue) (w : World) :
  wf_fs (w_fs w) ->
  let w' := snd (RescueDeadJobs q w) in
  wf_fs (w_fs w') /\ same_env w w' /\ within (rescue_footprint q (w_probe w)) (w_fs w) (w_fs w').
Proof.
  intros Hwf. rewrite RescueDeadJobs_run.
  destruct (readdirnames_step (getCurDir q) w) as [Hf1 He1].
  destruct (readdirnames (getCurDir q) w) as [[names [e |]] w1]; simpl in *.
  - split; [rewrite Hf1; exact Hwf | split; [eapply same_env_trans; [exact He1 | apply add_log_env] |]].
    rewrite Hf1. apply within_refl.
  - apply (forM_inv (fun w2 => wf_fs (w_fs w2) /\ same_env w w2
                               /\ within (rescue_footprint q (w_probe w)) (w_fs w) (w_fs w2))).
    + intros x w2 _ (Hw2 & He2 & Hi2).
      destruct (rescue_entry_coarse q x w2 Hw2) as (Hw3 & He3 & Hi3).
      split; [exact Hw3 | split; [eapply same_env_trans; eassumption |]].
      eapply within_trans; [exact Hi2 |]. eapply within_mono; [| exact Hi3].
      intros k (p & Ep & Epr & Hk). exists p. split; [eapply atoi_range; exact Ep |].
      destruct He2 as [Hpr _]. rewrite <- Hpr. auto.
    + split; [rewrite Hf1; exact Hwf | split; [exact He1 |]]. rewrite Hf1. apply within_refl.
Qed.

Lemma footprint_not_slot (q : Queue) (probe : Z -> option errno) (s : string) (p : Z) (rr : path) :
  atoi s = Some p -> probe p <> Some ESRCH ->
  ~ rescue_footprint q probe (getCurDir q ++ s :: rr).
Proof.
  intros Ea Hne (p' & Hr & Ep' & [Hk | Hk]).
  - rewrite getWorkerDir_eq, getCurDir_eq, <- app_assoc in Hk. simpl in Hk.
    apply prefix_app_inv in Hk. destruct Hk as [l Hl]. simpl in Hl.
    injection Hl as Hs _. rewrite Hs, atoi_itoa in Ea by exact Hr.
    injection Ea as ->. congruence.
  - rewrite getNewDir_eq, getCurDir_eq, <- app_assoc in Hk. simpl in Hk.
    apply prefix_app_inv in Hk. destruct Hk as [l Hl]. discriminate.
Qed.

Lemma same_env_log (w w' : World) (ev : logev) :
  same_env w w' -> ev ∈ w_log w -> ev ∈ w_log w'.
Proof.
  intros (_ & _ & l & Hl) H. rewrite Hl. apply elem_of_app. right. exact H.
Qed.

(** The slots of owners not reported dead are left as they were. *)
Lemma RescueDeadJobs_keeps_slot (q : Queue) (w w' : World) (r : option errno) (s : string) (p : Z) :
  RescueDeadJobs q w = (r, w') -> wf_fs (w_fs w) ->
  atoi s = Some p -> w_probe w p <> Some ESRCH ->
  forall rr, w_fs w' !! (getCurDir q ++ s :: rr) = w_fs w !! (getCurDir q ++ s :: rr).
Proof.
  intros Hrun Hwf Ea Hne rr. destruct (RescueDeadJobs_coarse q w Hwf) as (_ & _ & Hi).
  rewrite Hrun in Hi. simpl in Hi.
  destruct (decide (w_fs w' !! (getCurDir q ++ s :: rr) = w_fs w !! (getCurDir q ++ s :: rr))) as [E | E];
    [exact E |].
  exfalso. exact (footprint_not_slot q (w_probe w) s p rr Ea Hne (Hi _ E)).
Qed.

(** ** Rescuing the slot of a dead owner *)

Lemma moves_out_refl (A B : path -> Prop) (fs : FS) : moves_out A B fs fs.
Proof. intros k H. congruence. Qed.

Lemma moves_out_trans (A B : path -> Prop) (fs1 fs2 fs3 : FS) :
  moves_out A B fs1 fs2 -> moves_out A B fs2 fs3 -> moves_out A B fs1 fs3.
Proof.
  intros H1 H2 k Hk. destruct (decide (fs3 !! k = fs2 !! k)) as [E | E].
  - rewrite E in Hk. rewrite E. exact (H1 k Hk).
  - exact (H2 k E).
Qed.

Lemma moves_out_mono (A B A' B' : path -> Prop) (fs fs' : FS) :
  (forall k, A k -> A' k) -> (forall k, B k -> B' k) ->
  moves_out A B fs fs' -> moves_out A' B' fs fs'.
Proof.
  intros HA HB H k Hk. destruct (H k Hk) as [[Ha Hn] | Hb]; [left; auto | right; auto].
Qed.

Lemma moves_out_keep (A B : path -> Prop) (fs fs' : FS) (k : path) :
  moves_out A B fs fs' -> ~ A k -> ~ B k -> fs' !! k = fs !! k.
Proof.
  intros H Ha Hb. destruct (decide (fs' !! k = fs !! k)) as [E | E]; [exact E |].
  destruct (H k E) as [[? _] | ?]; contradiction.
Qed.

Lemma fs_rename_moves (src dst : path) (fs : FS) :
  moves_out (fun k => src `prefix_of` k) (fun k => dst `prefix_of` k) fs (snd (fs_rename src dst fs)).
Proof.
  destruct (fs_rename src dst fs) as [[e |] fs'] eqn:E; simpl.
  - apply fs_rename_err in E. subst. apply moves_out_refl.
  - apply fs_rename_ok in E as (_ & _ & [[_ ->] | [Hi ->]]); [apply moves_out_refl |].
    intros k Hk. rewrite move_tree_lookup in Hk |- * by exact Hi.
    case_decide as H1; [right; exact H1 |].
    case_decide as H2; [left; split; [exact H2 | reflexivity] | congruence].
Qed.

Lemma os_rename_moves (src dst : path) (w : World) :
  moves_out (fun k => src `prefix_of` k) (fun k => dst `prefix_of` k)
    (w_fs w) (w_fs (snd (os_rename src dst w))).
Proof.
  unfold os_rename.
  destruct (syscall_fields Some (fs_rename src dst) w) as (_ & _ & _ & [-> | ->]);
    [apply moves_out_refl | apply fs_rename_moves].
Qed.

Lemma os_remove_moves (p : path) (w : World) :
  moves_out (fun k => k = p) (fun _ => False) (w_fs w) (w_fs (snd (os_remove p w))).
Proof.
  unfold os_remove.
  destruct (syscall_fields Some (fs_remove p) w) as (_ & _ & _ & [-> | ->]); [apply moves_out_refl |].
  destruct (fs_remove_spec p (w_fs w)) as [[_ ->] | [_ ->]]; [| apply moves_out_refl].
  intros k Hk. destruct (decide (k = p)) as [-> | Hne].
  - left. split; [reflexivity | apply lookup_delete_eq].
  - rewrite lookup_delete_ne in Hk by congruence. congruence.
Qed.

Lemma syscall_nofault {A} (on_fault : errno -> A) (op : FS -> A * FS) (w : World) :
  w_faults w = [] ->
  syscall on_fault op w = (fst (op (w_fs w)), set_fs (snd (op (w_fs w))) (set_faults [] w)).
Proof. intros Hf. rewrite syscall_run, Hf. reflexivity. Qed.

Lemma syscall_faults_nil {A} (on_fault : errno -> A) (op : FS -> A * FS) (w : World) :
  w_faults w = [] -> w_faults (snd (syscall on_fault op w)) = [].
Proof. intros Hf. rewrite syscall_nofault by exact Hf. reflexivity. Qed.

Lemma rescue_entry_faults (q : Queue) (s : string) (w : World) :
  w_faults w = [] -> w_faults (snd (rescue_entry q s w)) = [].
Proof.
  intros Hf. rewrite rescue_entry_run.
  destruct (atoi s) as [p |]; [| exact Hf].
  destruct (w_probe w p) as [e |]; [| exact Hf].
  destruct (decide (e = ESRCH)); [| exact Hf].
  assert (H2 : w_faults (snd (rescueDeadJobsFrom q p (add_log (LogGoneAway p) w))) = []).
  { rewrite rescueDeadJobsFrom_run'. cbv zeta.
    pose proof (syscall_faults_nil (fun e => ([], Some e))
                  (fun fs => (fs_readdir (getWorkerDir q p) fs, fs)) (add_log (LogGoneAway p) w) Hf) as H1.
    unfold readdirnames. destruct (syscall _ _ _) as [[names err] w1]. simpl in H1.
    apply (forM_inv (fun w => w_faults w = [])).
    - intros x w3 _ H3. rewrite reschedule_run. unfold os_rename.
      pose proof (syscall_faults_nil Some (fs_rename (pjoin (getWorkerDir q p) x) (pjoin (getNewDir q) x)) w3 H3) as H4.
      destruct (syscall _ _ w3) as [[e' |] w4]; exact H4.
    - destruct err; exact H1. }
  pose proof (syscall_faults_nil Some (fs_remove (getWorkerDir q p)) _ H2) as H3.
  unfold os_remove in *. destruct (syscall _ _ _) as [[e' |] w3]; exact H3.
Qed.

Lemma rescueDeadJobsFrom_moves (q : Queue) (pid : Z) (w : World) :
  wf_fs (w_fs w) ->
  moves_out (fun k => getWorkerDir q pid `prefix_of` k)
    (fun k => exists z, z ∈ children (w_fs w) (getWorkerDir q pid) /\ getNewDir q ++ [z] `prefix_of` k)
    (w_fs w) (w_fs (snd (rescueDeadJobsFrom q pid w))).
Proof.
  intros Hwf. rewrite rescueDeadJobsFrom_run'. simpl.
  pose proof (readdirnames_names (getWorkerDir q pid) w) as Hn.
  destruct (readdirnames_step (getWorkerDir q pid) w) as [Hf1 _].
  destruct (readdirnames _ w) as [[names err] w1]. simpl in Hn, Hf1.
  apply (forM_inv (fun w' => wf_fs (w_fs w') /\ moves_out (fun k => getWorkerDir q pid `prefix_of` k)
    (fun k => exists z, z ∈ children (w_fs w) (getWorkerDir q pid) /\ getNewDir q ++ [z] `prefix_of` k)
    (w_fs w) (w_fs w'))).
  - intros x w3 Hx (Hwf3 & Hm3).
    assert (Hcx : x ∈ children (w_fs w) (getWorkerDir q pid)).
    { destruct Hn as [Hn | Hn]; rewrite Hn in Hx; [apply elem_of_nil in Hx; contradiction | exact Hx]. }
    pose proof (wf_children _ _ _ Hwf Hcx) as Hpx.
    rewrite reschedule_run.
    destruct (os_rename_step (pjoin (getWorkerDir q pid) x) (pjoin (getNewDir q) x) w3 Hwf3)
      as (Hwf4 & _ & _); [rewrite pjoin_plain by exact Hpx; apply plain_path_new, Hpx |].
    pose proof (os_rename_moves (pjoin (getWorkerDir q pid) x) (pjoin (getNewDir q) x) w3) as Hm4.
    destruct (os_rename _ _ w3) as [[e |] w4]; simpl in *;
      rewrite !pjoin_plain in Hm4 by exact Hpx;
      (split; [exact Hwf4 |]); (eapply moves_out_trans; [exact Hm3 |]);
      (eapply moves_out_mono; [| | exact Hm4]);
      [intros k Hk; etrans; [| exact Hk]; exists [x]; reflexivity
      | intros k Hk; exists x; auto
      | intros k Hk; etrans; [| exact Hk]; exists [x]; reflexivity
      | intros k Hk; exists x; auto].
  - destruct err; simpl; rewrite Hf1; (split; [exact Hwf | apply moves_out_refl]).
Qed.

Lemma rescue_entry_moves (q : Queue) (s : string) (w : World) :
  wf_fs (w_fs w) ->
  moves_out (fun k => exists p, atoi s = Some p /\ getWorkerDir q p `prefix_of` k)
    (fun k => exists p z, atoi s = Some p /\ w_probe w p = Some ESRCH
              /\ z ∈ children (w_fs w) (getWorkerDir q p) /\ getNewDir q ++ [z] `prefix_of` k)
    (w_fs w) (w_fs (snd (rescue_entry q s w))).
Proof.
  intros Hwf. rewrite rescue_entry_run.
  destruct (atoi s) as [p |] eqn:Ea; [| apply moves_out_refl].
  destruct (w_probe w p) as [e |] eqn:Ep; [| apply moves_out_refl].
  destruct (decide (e = ESRCH)) as [-> | Hne]; [| apply moves_out_refl].
  pose proof (rescueDeadJobsFrom_moves q p (add_log (LogGoneAway p) w) Hwf) as Hm2.
  destruct (rescueDeadJobsFrom_coarse q p (add_log (LogGoneAway p) w) Hwf) as (Hwf2 & _).
  cbv zeta.
  set (w2 := snd (rescueDeadJobsFrom q p (add_log (LogGoneAway p) w))) in *.
  pose proof (os_remove_moves (getWorkerDir q p) w2) as Hm3.
  assert (Hfin : moves_out (fun k => exists p0, Some p = Some p0 /\ getWorkerDir q p0 `prefix_of` k)
    (fun k => exists p0 z, Some p = Some p0 /\ w_probe w p0 = Some ESRCH
              /\ z ∈ children (w_fs w) (getWorkerDir q p0) /\ getNewDir q ++ [z] `prefix_of` k)
    (w_fs w) (w_fs (snd (os_remove (getWorkerDir q p) w2)))).
  { eapply moves_out_trans.
    - eapply moves_out_mono; [| | exact Hm2].
      + intros k Hk. exists p. auto.
      + intros k (z & Hz & Hk). exists p, z. auto.
    - eapply moves_out_mono; [| | exact Hm3].
      + intros k ->. exists p. split; reflexivity.
      + intros k []. }
  destruct (os_remove _ w2) as [[e' |] w3]; exact Hfin.
Qed.

Lemma sep_worker_new (q : Queue) (p : Z) (r r' : path) :
  ~ (getWorkerDir q p ++ r) `prefix_of` (getNewDir q ++ r')
  /\ ~ (getNewDir q ++ r') `prefix_of` (getWorkerDir q p ++ r).
Proof.
  rewrite getWorkerDir_eq, getNewDir_eq, <- !app_assoc. simpl.
  split; apply not_prefix_fork; discriminate.
Qed.

Lemma sep_worker_new0 (q : Queue) (p : Z) (r : path) :
  ~ getWorkerDir q p `prefix_of` (getNewDir q ++ r)
  /\ ~ getNewDir q `prefix_of` (getWorkerDir q p ++ r)
  /\ ~ (getWorkerDir q p ++ r) `prefix_of` getNewDir q
  /\ ~ (getNewDir q ++ r) `prefix_of` getWorkerDir q p.
Proof.
  destruct (sep_worker_new q p [] r) as [H1 H2]. destruct (sep_worker_new q p r []) as [H3 H4].
  rewrite app_nil_r in H1, H2, H3, H4. auto.
Qed.

Lemma sep_workers (q : Queue) (p p' : Z) (r r' : path) :
  in_int64 p = true -> in_int64 p' = true -> p <> p' ->
  ~ (getWorkerDir q p ++ r) `prefix_of` (getWorkerDir q p' ++ r').
Proof.
  intros H1 H2 Hne. rewrite !getWorkerDir_eq, <- !app_assoc. simpl. intros H.
  apply prefix_app_inv, prefix_cons_inv_2, prefix_cons_inv_1 in H.
  apply Hne, itoa_inj; assumption.
Qed.

Lemma prefix_snoc_not (l : path) (y : string) (r : path) : ~ (l ++ y :: r) `prefix_of` l.
Proof. apply not_prefix_longer. rewrite length_app. simpl. lia. Qed.

Lemma dir_status_dir (fs : FS) (d : path) : fs !! d = Some NDir -> dir_status fs d = None.
Proof. intros H. destruct d as [| c l]; [reflexivity |]. simpl. rewrite H. reflexivity. Qed.

Lemma rename_fresh (src dst : path) (fs : FS) (n : node) :
  fs !! src = Some n -> dir_status fs (removelast src) = None ->
  dir_status fs (removelast dst) = None -> incomparable src dst ->
  fs !! dst = None -> fs_rename src dst fs = (None, move_tree src dst fs).
Proof.
  intros Hs Hds Hd [H1 H2] Hn. unfold fs_rename, sys_rename. rewrite Hn, Hds, Hd, Hs.
  rewrite decide_False by (intros ->; apply H1; reflexivity).
  rewrite decide_False by exact H1. rewrite decide_False by exact H2. reflexivity.
Qed.

Lemma reschedule_nofault (q : Queue) (pid : Z) (y : string) (w : World) :
  w_faults w = [] ->
  w_faults (snd (reschedule q pid y w)) = []
  /\ w_fs (snd (reschedule q pid y w))
     = snd (fs_rename (pjoin (getWorkerDir q pid) y) (pjoin (getNewDir q) y) (w_fs w)).
Proof.
  intros Hf. rewrite reschedule_run. unfold os_rename. rewrite syscall_nofault by exact Hf.
  destruct (fst (fs_rename _ _ (w_fs w))); split; reflexivity.
Qed.

(** The loop of [rescueDeadJobsFrom] over jobs that can be moved. *)
Lemma reschedule_all (q : Queue) (pid : Z) (l : list string) (w3 : World) :
  let S := getWorkerDir q pid in
  let N := getNewDir q in
  NoDup l -> (forall y, y ∈ l -> plain y = true) -> w_faults w3 = [] ->
  w_fs w3 !! N = Some NDir -> w_fs w3 !! S = Some NDir ->
  (forall y, y ∈ l -> is_Some (w_fs w3 !! (S ++ [y])) /\ w_fs w3 !! (N ++ [y]) = None) ->
  let w4 := snd (forM_ l (reschedule q pid) w3) in
  w_faults w4 = []
  /\ (forall y rr, y ∈ l -> w_fs w4 !! (N ++ y :: rr) = w_fs w3 !! (S ++ y :: rr)
                          /\ w_fs w4 !! (S ++ y :: rr) = None)
  /\ (forall k, (forall y, y ∈ l -> ~ (S ++ [y]) `prefix_of` k /\ ~ (N ++ [y]) `prefix_of` k) ->
        w_fs w4 !! k = w_fs w3 !! k).
Proof.
  intros S N. revert w3. induction l as [| y l IH]; intros w3 Hnd Hpl Hf HN HS0 Hy.
  { simpl. split; [exact Hf | split; [intros y rr Hin; apply elem_of_nil in Hin; contradiction | auto]]. }
  apply NoDup_cons in Hnd as [Hyl Hnd].
  assert (Hin0 : y ∈ y :: l) by (apply elem_of_cons; left; reflexivity).
  assert (Hinl : forall y', y' ∈ l -> y' ∈ y :: l) by (intros y' H; apply elem_of_cons; right; exact H).
  destruct (Hy y Hin0) as [[n Hsrc] Hdst].
  pose proof (Hpl y Hin0) as Hpy.
  destruct (reschedule_nofault q pid y w3 Hf) as [Hf' Hfs'].
  rewrite !pjoin_plain in Hfs' by exact Hpy. fold S N in Hfs'.
  assert (Hinc : incomparable (S ++ [y]) (N ++ [y])).
  { destruct (sep_worker_new q pid [y] [y]) as [H1 H2]. split; assumption. }
  assert (Hren : fs_rename (S ++ [y]) (N ++ [y]) (w_fs w3) = (None, move_tree (S ++ [y]) (N ++ [y]) (w_fs w3))).
  { apply (rename_fresh _ _ _ n Hsrc); [| | exact Hinc | exact Hdst];
      rewrite removelast_last; apply dir_status_dir; [exact HS0 | exact HN]. }
  rewrite Hren in Hfs'. simpl in Hfs'.
  destruct (rename_moved (S ++ [y]) (N ++ [y]) (w_fs w3) (move_tree (S ++ [y]) (N ++ [y]) (w_fs w3))) as (_ & _ & Hmv & Hgone & Hfr);
    [intros E; apply (proj1 Hinc); rewrite E; reflexivity | exact Hren |].
  set (w3' := snd (reschedule q pid y w3)) in *.
  rewrite forM_cons. fold w3'.
  assert (Hsep : forall r r', ~ (getWorkerDir q pid ++ r) `prefix_of` (getNewDir q ++ r')
                          /\ ~ (getNewDir q ++ r') `prefix_of` (getWorkerDir q pid ++ r))
    by (intros; apply sep_worker_new).
  assert (Hfork : forall (B : path) a b r, a <> b -> ~ (B ++ [a]) `prefix_of` (B ++ b :: r))
    by (intros B a b r Hab; apply (not_prefix_fork B [] r a b Hab)).
  destruct (IH w3' Hnd) as (Hf4 & Hmv4 & Hfr4).
  - intros y' H. apply Hpl, Hinl, H.
  - exact Hf'.
  - rewrite Hfs', Hfr.
    + exact HN.
    + destruct (sep_worker_new0 q pid [y]) as (_ & _ & H & _). exact H.
    + apply not_prefix_longer. rewrite length_app. simpl. lia.
  - rewrite Hfs', Hfr.
    + exact HS0.
    + apply (prefix_snoc_not S y []).
    + destruct (sep_worker_new0 q pid [y]) as (_ & _ & _ & H). exact H.
  - intros y' Hy'. assert (Hne : y <> y') by (intros ->; contradiction).
    rewrite Hfs', !Hfr.
    + apply Hy, Hinl, Hy'.
    + apply (proj1 (Hsep [y] [y'])).
    + apply Hfork, Hne.
    + apply Hfork, Hne.
    + apply (proj2 (Hsep [y'] [y])).
  - split; [exact Hf4 | split].
    + intros y' rr Hy'. apply elem_of_cons in Hy' as [-> | Hy'].
      * rewrite !Hfr4.
        -- rewrite Hfs'. split.
           ++ pose proof (Hmv rr) as H. rewrite <- !app_assoc in H. exact H.
           ++ replace (S ++ y :: rr) with ((S ++ [y]) ++ rr) by (rewrite <- app_assoc; reflexivity).
              apply Hgone.
        -- intros z Hz. assert (Hne : z <> y) by (intros ->; contradiction).
           split; [apply Hfork, Hne | apply (proj2 (Hsep (y :: rr) [z]))].
        -- intros z Hz. assert (Hne : z <> y) by (intros ->; contradiction).
           split; [apply (proj1 (Hsep [z] (y :: rr))) | apply Hfork, Hne].
      * destruct (Hmv4 y' rr Hy') as [H1 H2]. split; [| exact H2].
        rewrite H1, Hfs', Hfr; [reflexivity | |].
        -- assert (Hne : y <> y') by (intros ->; contradiction). apply Hfork, Hne.
        -- apply (proj2 (Hsep (y' :: rr) [y])).
    + intros k Hk. rewrite Hfr4.
      * rewrite Hfs', Hfr; [reflexivity | apply (Hk y Hin0) | apply (Hk y Hin0)].
      * intros z Hz. apply Hk, Hinl, Hz.
Qed.

Lemma tree_below (fs : FS) (S : path) (c : string) (rr : path) (n : node) :
  tree_fs fs -> S <> [] -> fs !! (S ++ c :: rr) = Some n -> is_Some (fs !! (S ++ [c])).
Proof.
  intros Ht HS. revert n. induction rr as [| d rr IH] using rev_ind; intros n H; [eauto |].
  replace (S ++ c :: rr ++ [d]) with ((S ++ c :: rr) ++ [d]) in H by (rewrite <- app_assoc; reflexivity).
  destruct (Ht _ _ _ H) as [E | E].
  - destruct S; discriminate.
  - exact (IH _ E).
Qed.

(** In a tree, the ancestors of a node are directories. *)
Lemma tree_ancestor_dir (fs : FS) (a : path) (c : string) (r : path) (n : node) :
  tree_fs fs -> fs !! (a ++ c :: r) = Some n -> r <> [] -> fs !! (a ++ [c]) = Some NDir.
Proof.
  intros Ht. revert n. induction r as [| x r IH] using rev_ind; intros n H Hr; [contradiction |].
  replace (a ++ c :: r ++ [x]) with ((a ++ c :: r) ++ [x]) in H by (rewrite <- app_assoc; reflexivity).
  destruct (Ht _ _ _ H) as [E | E]; [destruct a; discriminate |].
  destruct r as [| y r]; [exact E |]. apply (IH NDir E). discriminate.
Qed.

(** In a tree, the walk down to a directory meets only directories. *)
Lemma walk_dirs_tree (fs : FS) (seen rest : path) :
  tree_fs fs -> (rest = [] \/ fs !! (seen ++ rest) = Some NDir) -> walk_dirs fs seen rest = None.
Proof.
  intros Ht. revert seen. induction rest as [| c r IH]; intros seen [H | H]; try reflexivity; try discriminate.
  simpl. assert (Hc : fs !! (seen ++ [c]) = Some NDir).
  { destruct r as [| y r]; [exact H |]. apply (tree_ancestor_dir fs seen c (y :: r) NDir Ht H). discriminate. }
  rewrite Hc. apply IH. destruct r; [left; reflexivity | right]. rewrite <- app_assoc. exact H.
Qed.

(** In a tree, the walk down to a file ends on [ENOTDIR]. *)
Lemma walk_dirs_file (fs : FS) (seen rest : path) (c : list Byte.byte) :
  tree_fs fs -> rest <> [] -> fs !! (seen ++ rest) = Some (NFile c) -> walk_dirs fs seen rest = Some ENOTDIR.
Proof.
  intros Ht. revert seen. induction rest as [| x r IH]; intros seen Hr H; [contradiction |].
  simpl. destruct r as [| y r]; [rewrite H; reflexivity |].
  rewrite (tree_ancestor_dir fs seen x (y :: r) _ Ht H) by discriminate.
  apply IH; [discriminate |]. rewrite <- app_assoc. exact H.
Qed.

(** In a tree, a missing path below a directory is [ENOENT]. *)
Lemma missing_err_tree (fs : FS) (p : path) :
  tree_fs fs -> (removelast p = [] \/ fs !! removelast p = Some NDir) -> missing_err fs p = ENOENT.
Proof.
  intros Ht H. unfold missing_err. rewrite walk_dirs_tree; [reflexivity | exact Ht |].
  destruct H as [H | H]; [left; exact H | right; exact H].
Qed.

Lemma getWorkerDir_nonempty (q : Queue) (p : Z) : getWorkerDir q p <> [].
Proof. rewrite getWorkerDir_eq. destruct (qbase q); discriminate. Qed.

Lemma children_before (fs0 fs : FS) (S N : path) (y : string) :
  slot_before fs0 fs S N -> y ∈ children fs S <-> y ∈ children fs0 S.
Proof. intros [H _]. rewrite !elem_of_children, H. reflexivity. Qed.

(** Rescuing an untouched slot of a dead owner moves each of its jobs to
    the submittable directory and removes the slot. *)
Lemma rescue_slot (q : Queue) (p : Z) (x : string) (fs0 : FS) (w2 : World) :
  let S := getWorkerDir q p in
  let N := getNewDir q in
  atoi x = Some p -> w_probe w2 p = Some ESRCH -> w_faults w2 = [] -> wf_fs (w_fs w2) ->
  tree_fs fs0 -> fs0 !! S = Some NDir -> w_fs w2 !! N = Some NDir ->
  (forall y, y ∈ children fs0 S -> fs0 !! (N ++ [y]) = None) ->
  slot_before fs0 (w_fs w2) S N ->
  slot_after fs0 (w_fs (snd (rescue_entry q x w2))) S N.
Proof.
  intros S N Ea Hpr Hf Hwf Ht HS HN Hy Hb.
  pose proof Hb as [Hb1 Hb2].
  assert (HS2 : w_fs w2 !! S = Some NDir) by (rewrite <- (app_nil_r S), Hb1, app_nil_r; exact HS).
  rewrite rescue_entry_run, Ea, Hpr, decide_True by reflexivity. cbv zeta.
  rewrite rescueDeadJobsFrom_run'. cbv zeta.
  unfold readdirnames. rewrite syscall_nofault by exact Hf.
  change (w_fs (add_log (LogGoneAway p) w2)) with (w_fs w2).
  fold S. unfold fs_readdir at 1 2. rewrite (dir_status_dir _ _ HS2). cbn [fst snd].
  set (names := children (w_fs w2) S).
  set (w1 := set_fs (w_fs w2) (set_faults [] (add_log (LogGoneAway p) w2))).
  assert (Hnames : forall y, y ∈ names <-> y ∈ children fs0 S) by (intros y; apply (children_before _ _ _ N), Hb).
  destruct (reschedule_all q p names w1) as (Hf4 & Hmv4 & Hfr4).
  - apply NoDup_children.
  - intros y Hyn. exact (wf_children _ _ _ Hwf Hyn).
  - reflexivity.
  - exact HN.
  - exact HS2.
  - intros y Hyn. split; [apply elem_of_children, Hyn |].
    simpl. rewrite Hb2 by (apply Hnames, Hyn). apply Hy, Hnames, Hyn.
  - fold S N in Hmv4, Hfr4.
    set (w4 := snd (forM_ names (reschedule q p) w1)) in *.
    assert (Hfork : forall y c, y <> c -> ~ (S ++ [y]) `prefix_of` (S ++ [c]))
      by (intros y c Hne; apply (not_prefix_fork S [] [] y c Hne)).
    assert (HS4 : w_fs w4 !! S = Some NDir).
    { rewrite Hfr4; [exact HS2 |]. intros y _. split.
      - apply (prefix_snoc_not S y []).
      - destruct (sep_worker_new0 q p [y]) as (_ & _ & _ & H). exact H. }
    assert (Hch4 : children (w_fs w4) S = []).
    { destruct (children (w_fs w4) S) as [| c cs] eqn:Ec; [reflexivity | exfalso].
      assert (Hc : c ∈ children (w_fs w4) S) by (rewrite Ec; apply elem_of_cons; left; reflexivity).
      apply elem_of_children in Hc as [n Hn].
      destruct (decide (c ∈ names)) as [Hcn | Hcn].
      - destruct (Hmv4 c [] Hcn) as [_ H]. congruence.
      - rewrite Hfr4 in Hn.
        + apply Hcn. apply elem_of_children. eauto.
        + intros y Hyn. assert (Hne : y <> c) by (intros ->; contradiction).
          split; [apply Hfork, Hne |]. destruct (sep_worker_new q p [c] [y]) as [_ H]. exact H. }
    unfold os_remove. rewrite syscall_nofault by exact Hf4.
    unfold fs_remove. rewrite HS4, Hch4. cbn [fst snd w_fs set_fs].
    split.
    + intros y rr Hy0. rewrite lookup_delete_ne.
      * destruct (Hmv4 y rr (proj2 (Hnames y) Hy0)) as [H _]. simpl in H. rewrite H, Hb1. reflexivity.
      * intros E. destruct (sep_worker_new0 q p (y :: rr)) as (H & _). apply H. change (S `prefix_of` (N ++ y :: rr)). rewrite E. reflexivity.
    + intros [| c rr].
      * rewrite app_nil_r. apply lookup_delete_eq.
      * rewrite lookup_delete_ne by (intros E; apply (prefix_snoc_not S c rr); rewrite <- E; reflexivity).
        destruct (decide (c ∈ names)) as [Hcn | Hcn]; [exact (proj2 (Hmv4 c rr Hcn)) |].
        rewrite Hfr4.
        -- simpl. rewrite Hb1. destruct (fs0 !! (S ++ c :: rr)) as [n |] eqn:E; [exfalso | reflexivity].
           apply tree_below in E; [| exact Ht | apply getWorkerDir_nonempty].
           apply Hcn, Hnames, elem_of_children, E.
        -- intros y Hyn. assert (Hne : y <> c) by (intros ->; contradiction).
           split; [apply (not_prefix_fork S [] rr y c Hne) |].
           destruct (sep_worker_new q p (c :: rr) [y]) as [_ H]. exact H.
Qed.

Lemma children_shrink (q : Queue) (fs0 fs2 : FS) (p0 : Z) (z : string) :
  moves_out (fun k => exists p', getWorkerDir q p' `prefix_of` k) (fun k => getNewDir q `prefix_of` k) fs0 fs2 ->
  z ∈ children fs2 (getWorkerDir q p0) -> z ∈ children fs0 (getWorkerDir q p0).
Proof.
  intros Hm Hz. apply elem_of_children in Hz as [n Hn]. apply elem_of_children.
  destruct (decide (fs2 !! (getWorkerDir q p0 ++ [z]) = fs0 !! (getWorkerDir q p0 ++ [z]))) as [E | E].
  - rewrite <- E. eauto.
  - destruct (Hm _ E) as [[_ H] | H]; [congruence |].
    destruct (sep_worker_new0 q p0 [z]) as (_ & H' & _). contradiction.
Qed.

Lemma getWorkerDir_cur (q : Queue) (p : Z) : getWorkerDir q p = getCurDir q ++ [itoa p].
Proof. rewrite getWorkerDir_eq, getCurDir_eq, <- app_assoc. reflexivity. Qed.

Section rescue_dead.
Context (q : Queue) (w : World) (p : Z).
Hypothesis Hr : in_int64 p = true.
Hypothesis Hp : w_probe w p = Some ESRCH.
Hypothesis Ht : tree_fs (w_fs w).
Hypothesis HS : w_fs w !! getWorkerDir q p = Some NDir.
Hypothesis Hjobs : forall y, y ∈ children (w_fs w) (getWorkerDir q p) ->
  w_fs w !! (getNewDir q ++ [y]) = None
  /\ forall p', p' <> p -> in_int64 p' = true -> w_probe w p' = Some ESRCH ->
       y ∉ children (w_fs w) (getWorkerDir q p').

Lemma not_new_other (x : string) (w2 : World) (y : string) (rr : path) :
  rescue_inv q w p w2 -> y ∈ children (w_fs w) (getWorkerDir q p) -> atoi x <> Some p ->
  ~ (exists p0 z, atoi x = Some p0 /\ w_probe w2 p0 = Some ESRCH
       /\ z ∈ children (w_fs w2) (getWorkerDir q p0) /\ getNewDir q ++ [z] `prefix_of` (getNewDir q ++ y :: rr)).
Proof.
  intros (_ & _ & (Hpr & _) & Hm & _) Hy Hx (p0 & z & Ea & Epr & Hz & Hk).
  apply prefix_app_inv, prefix_cons_inv_1 in Hk. subst z.
  rewrite Hpr in Epr. apply (children_shrink q _ _ _ _ Hm) in Hz.
  apply (proj2 (Hjobs y Hy) p0); [congruence | eapply atoi_range, Ea | exact Epr | exact Hz].
Qed.

Lemma region_kept (x : string) (w2 : World) :
  rescue_inv q w p w2 -> atoi x <> Some p ->
  let fs3 := w_fs (snd (rescue_entry q x w2)) in
  (forall rr, fs3 !! (getWorkerDir q p ++ rr) = w_fs w2 !! (getWorkerDir q p ++ rr))
  /\ (forall y rr, y ∈ children (w_fs w) (getWorkerDir q p) ->
        fs3 !! (getNewDir q ++ y :: rr) = w_fs w2 !! (getNewDir q ++ y :: rr)).
Proof.
  intros Hinv Hx fs3. pose proof Hinv as (Hwf2 & _).
  pose proof (rescue_entry_moves q x w2 Hwf2) as Hm. split.
  - intros rr. apply (moves_out_keep _ _ _ _ _ Hm).
    + intros (p0 & Ea & Hk). assert (Hne : p0 <> p) by congruence.
      pose proof (sep_workers q p0 p [] rr (atoi_range _ _ Ea) Hr Hne) as H.
      rewrite app_nil_r in H. contradiction.
    + intros (p0 & z & _ & _ & _ & Hk). exact (proj2 (sep_worker_new q p rr [z]) Hk).
  - intros y rr Hy. apply (moves_out_keep _ _ _ _ _ Hm).
    + intros (p0 & _ & Hk). exact (proj1 (sep_worker_new0 q p0 (y :: rr)) Hk).
    + exact (not_new_other x w2 y rr Hinv Hy Hx).
Qed.

Lemma after_stable (x : string) (w2 : World) :
  rescue_inv q w p w2 -> slot_after (w_fs w) (w_fs w2) (getWorkerDir q p) (getNewDir q) ->
  slot_after (w_fs w) (w_fs (snd (rescue_entry q x w2))) (getWorkerDir q p) (getNewDir q).
Proof.
  intros Hinv [Ha1 Ha2]. destruct (decide (atoi x = Some p)) as [Ex | Ex].
  - pose proof Hinv as (Hwf2 & _).
    pose proof (rescue_entry_moves q x w2 Hwf2) as Hm. split.
    + intros y rr Hy. rewrite (moves_out_keep _ _ _ _ _ Hm); [exact (Ha1 y rr Hy) | |].
      * intros (p0 & _ & Hk). exact (proj1 (sep_worker_new0 q p0 (y :: rr)) Hk).
      * intros (p0 & z & Ea & _ & Hz & _). assert (p0 = p) as -> by congruence.
        apply elem_of_children in Hz as [n Hn]. rewrite Ha2 in Hn. discriminate.
    + intros rr.
      destruct (decide (w_fs (snd (rescue_entry q x w2)) !! (getWorkerDir q p ++ rr)
                        = w_fs w2 !! (getWorkerDir q p ++ rr))) as [E | E].
      * rewrite E. apply Ha2.
      * destruct (Hm _ E) as [[_ H] | (p0 & z & _ & _ & _ & Hk)]; [exact H |].
        exfalso. exact (proj2 (sep_worker_new q p rr [z]) Hk).
  - destruct (region_kept x w2 Hinv Ex) as [K1 K2]. split.
    + intros y rr Hy. rewrite K2 by exact Hy. apply Ha1, Hy.
    + intros rr. rewrite K1. apply Ha2.
Qed.

Lemma inv_step (x : string) (w2 : World) :
  rescue_inv q w p w2 -> rescue_inv q w p (snd (rescue_entry q x w2)).
Proof.
  intros Hinv. pose proof Hinv as (Hwf2 & Hf2 & He2 & Hm2 & HN2 & Hba).
  destruct (rescue_entry_coarse q x w2 Hwf2) as (Hwf3 & He3 & _).
  pose proof (rescue_entry_moves q x w2 Hwf2) as Hm.
  split; [exact Hwf3 |]. split; [apply rescue_entry_faults, Hf2 |].
  split; [eapply same_env_trans; eassumption |]. split.
  { eapply moves_out_trans; [exact Hm2 |]. eapply moves_out_mono; [| | exact Hm].
    - intros k (p0 & _ & Hk). exists p0. exact Hk.
    - intros k (p0 & z & _ & _ & _ & Hk). etrans; [| exact Hk]. exists [z]. reflexivity. }
  split.
  { rewrite (moves_out_keep _ _ _ _ _ Hm); [exact HN2 | |].
    - intros (p0 & _ & Hk). apply (proj1 (sep_worker_new q p0 [] [])). rewrite !app_nil_r. exact Hk.
    - intros (p0 & z & _ & _ & _ & Hk). exact (prefix_snoc_not (getNewDir q) z [] Hk). }
  destruct Hba as [Hb | Ha]; [| right; exact (after_stable x w2 Hinv Ha)].
  destruct (decide (atoi x = Some p)) as [Ex | Ex].
  - right. destruct He2 as [Hpr _].
    apply (rescue_slot q p x (w_fs w) w2 Ex); [congruence | exact Hf2 | exact Hwf2 | exact Ht | exact HS
      | exact HN2 | intros y Hy; exact (proj1 (Hjobs y Hy)) | exact Hb].
  - left. destruct (region_kept x w2 Hinv Ex) as [K1 K2]. destruct Hb as [Hb1 Hb2]. split.
    + intros rr. rewrite K1. apply Hb1.
    + intros y rr Hy. rewrite K2 by exact Hy. apply Hb2, Hy.
Qed.

Lemma own_entry (w2 : World) :
  rescue_inv q w p w2 ->
  slot_after (w_fs w) (w_fs (snd (rescue_entry q (itoa p) w2))) (getWorkerDir q p) (getNewDir q).
Proof.
  intros Hinv. pose proof (inv_step (itoa p) w2 Hinv) as (_ & _ & _ & _ & _ & [Hb | Ha]); [| exact Ha].
  pose proof Hinv as (Hwf2 & Hf2 & (Hpr & _) & _ & HN2 & [Hb2 | Ha2]).
  - apply (rescue_slot q p (itoa p) (w_fs w) w2); [apply atoi_itoa, Hr | congruence | exact Hf2 | exact Hwf2
      | exact Ht | exact HS | exact HN2 | intros y Hy; exact (proj1 (Hjobs y Hy)) | exact Hb2].
  - exact (after_stable (itoa p) w2 Hinv Ha2).
Qed.
End rescue_dead.

Lemma wf_fs_b_ok (fs : FS) : wf_fs_b fs = true -> wf_fs fs.
Proof.
  intros H k n Hk. unfold wf_fs_b in H. rewrite forallb_forall in H.
  assert (Hin : In (k, n) (map_to_list fs)) by (apply list_elem_of_In, elem_of_map_to_list, Hk).
  specialize (H _ Hin). simpl in H. rewrite forallb_forall in H.
  apply Forall_forall. intros c Hc. apply H, list_elem_of_In, Hc.
Qed.

Lemma tree_fs_b_ok (fs : FS) : tree_fs_b fs = true -> tree_fs fs.
Proof.
  intros H k c n Hk. unfold tree_fs_b in H. rewrite forallb_forall in H.
  assert (Hin : In (k ++ [c], n) (map_to_list fs)) by (apply list_elem_of_In, elem_of_map_to_list, Hk).
  specialize (H _ Hin). simpl in H. rewrite removelast_last in H.
  destruct k as [| c0 k]; [left; reflexivity | right].
  destruct (fs !! (c0 :: k)) as [[|] |]; [reflexivity | discriminate | discriminate].
Qed.

(* ================================================================== *)
(** * The claims *)

(** C1 (as stated): the slot [cur/007] parses to the dead process 7,
    yet [RescueDeadJobs] works on [cur/7], the canonical name of 7: the job
    [baz] stays in the slot and nothing reaches [new]. *)
Lemma RescueDeadJobs_noncanonical_slot_kept :
  atoi "007" = Some 7%Z /\ ex_probe 7 = Some ESRCH
  /\ fst (RescueDeadJobs ex_queue (ex_world ex_slot007_fs)) = None
  /\ w_fs (snd (RescueDeadJobs ex_queue (ex_world ex_slot007_fs))) !! ["q"; "cur"; "007"; "baz"] = Some NDir
  /\ w_fs (snd (RescueDeadJobs ex_queue (ex_world ex_slot007_fs))) !! ["q"; "new"; "baz"] = None.
Proof. vm_compute. repeat split. Qed.

(** C1: in a fault-free run over a well-formed tree in which the owned
    and submittable directories exist, [RescueDeadJobs] succeeds; the slot
    of every owner that the probe does not report dead, under any name
    that parses to it, is left as it was; and for a dead owner [p] whose
    slot exists under its canonical decimal name [itoa p], provided no job
    of that slot is already in the submittable directory or also held by
    another dead owner, every job of the slot is moved, with its whole
    subtree, into the submittable directory under its own name and the
    slot is gone. *)
Theorem RescueDeadJobs_rescues (q : Queue) (w w' : World) (r : option errno) :
  RescueDeadJobs q w = (r, w') ->
  w_faults w = [] -> wf_fs (w_fs w) -> tree_fs (w_fs w) ->
  w_fs w !! getCurDir q = Some NDir -> w_fs w !! getNewDir q = Some NDir ->
  r = None
  /\ (forall s p, atoi s = Some p -> w_probe w p <> Some ESRCH ->
        forall rr, w_fs w' !! (getCurDir q ++ s :: rr) = w_fs w !! (getCurDir q ++ s :: rr))
  /\ (forall p, in_int64 p = true -> w_probe w p = Some ESRCH ->
        w_fs w !! (getCurDir q ++ [itoa p]) = Some NDir ->
        (forall y, y ∈ children (w_fs w) (getCurDir q ++ [itoa p]) ->
           w_fs w !! (getNewDir q ++ [y]) = None
           /\ forall p', p' <> p -> in_int64 p' = true -> w_probe w p' = Some ESRCH ->
                y ∉ children (w_fs w) (getCurDir q ++ [itoa p'])) ->
        (forall y rr, y ∈ children (w_fs w) (getCurDir q ++ [itoa p]) ->
           w_fs w' !! (getNewDir q ++ y :: rr) = w_fs w !! (getCurDir q ++ itoa p :: y :: rr))
        /\ (forall rr, w_fs w' !! (getCurDir q ++ itoa p :: rr) = None)).
Proof.
  intros Hrun Hf Hwf Ht HC HN.
  pose proof Hrun as Hrun0.
  rewrite RescueDeadJobs_run in Hrun. unfold readdirnames in Hrun.
  rewrite syscall_nofault in Hrun by exact Hf. unfold fs_readdir in Hrun.
  rewrite (dir_status_dir _ _ HC) in Hrun. simpl in Hrun.
  injection Hrun as <- Hw'.
  split; [reflexivity |]. split.
  { intros s p Ea Hne. exact (RescueDeadJobs_keeps_slot q w w' None s p Hrun0 Hwf Ea Hne). }
  intros p Hr Hp HS Hjobs. rewrite <- getWorkerDir_cur in HS, Hjobs.
  assert (Hjobs' : forall y, y ∈ children (w_fs w) (getWorkerDir q p) ->
    w_fs w !! (getNewDir q ++ [y]) = None
    /\ forall p', p' <> p -> in_int64 p' = true -> w_probe w p' = Some ESRCH ->
         y ∉ children (w_fs w) (getWorkerDir q p')).
  { intros y Hy. destruct (Hjobs y Hy) as [H1 H2]. split; [exact H1 |].
    intros p' H3 H4 H5. rewrite getWorkerDir_cur. apply H2; assumption. }
  assert (Hfin : slot_after (w_fs w) (w_fs w') (getWorkerDir q p) (getNewDir q)).
  { rewrite <- Hw'.
    apply (forM_reach (rescue_inv q w p) (fun w2 => slot_after (w_fs w) (w_fs w2) (getWorkerDir q p) (getNewDir q))
             _ _ (itoa p)).
    - intros x w2 _ Hinv. eapply (inv_step q w p); eassumption.
    - intros x w2 _ Hinv Ha. eapply (after_stable q w p); eassumption.
    - intros w2 Hinv. eapply (own_entry q w p); eassumption.
    - apply elem_of_children. rewrite <- getWorkerDir_cur, HS. eauto.
    - split; [exact Hwf | split; [reflexivity | split; [| split; [| split; [exact HN |]]]]].
      + split; [reflexivity | split; [reflexivity | exists []; reflexivity]].
      + apply moves_out_refl.
      + left. split; reflexivity. }
  destruct Hfin as [Ha1 Ha2]. split.
  - intros y rr Hy. rewrite <- getWorkerDir_cur in Hy. rewrite Ha1 by exact Hy.
    rewrite getWorkerDir_cur, <- app_assoc. reflexivity.
  - intros rr. pose proof (Ha2 rr) as H. rewrite getWorkerDir_cur, <- app_assoc in H. exact H.
Qed.

Lemma RescueDeadJobs_rescues_witness :
  w_faults (ex_world ex_rescue_fs) = [] /\ wf_fs ex_rescue_fs /\ tree_fs ex_rescue_fs
  /\ ex_rescue_fs !! getCurDir ex_queue = Some NDir /\ ex_rescue_fs !! getNewDir ex_queue = Some NDir
  /\ fst (RescueDeadJobs ex_queue (ex_world ex_rescue_fs)) = None
  /\ w_fs (snd (RescueDeadJobs ex_queue (ex_world ex_rescue_fs))) !! ["q"; "cur"; "100"; "a"] = Some NDir
  /\ w_fs (snd (RescueDeadJobs ex_queue (ex_world ex_rescue_fs))) !! ["q"; "new"; "b"; "prop"]
     = Some (NFile [Byte.x01])
  /\ w_fs (snd (RescueDeadJobs ex_queue (ex_world ex_rescue_fs))) !! ["q"; "cur"; "7"] = None.
Proof.
  assert (Hf : w_faults (ex_world ex_rescue_fs) = []) by reflexivity.
  assert (Hwf : wf_fs ex_rescue_fs) by (apply wf_fs_b_ok; vm_compute; reflexivity).
  assert (Ht : tree_fs ex_rescue_fs) by (apply tree_fs_b_ok; vm_compute; reflexivity).
  assert (HC : ex_rescue_fs !! getCurDir ex_queue = Some NDir) by (vm_compute; reflexivity).
  assert (HN : ex_rescue_fs !! getNewDir ex_queue = Some NDir) by (vm_compute; reflexivity).
  assert (Ecur : getCurDir ex_queue = ["q"; "cur"]) by (vm_compute; reflexivity).
  assert (Enew : getNewDir ex_queue = ["q"; "new"]) by (vm_compute; reflexivity).
  destruct (RescueDeadJobs_rescues ex_queue (ex_world ex_rescue_fs)
              (snd (RescueDeadJobs ex_queue (ex_world ex_rescue_fs)))
              (fst (RescueDeadJobs ex_queue (ex_world ex_rescue_fs)))
              (surjective_pairing _) Hf Hwf Ht HC HN) as (Hr & Halive & Hdead).
  assert (Hjobs : forall y, y ∈ children ex_rescue_fs (getCurDir ex_queue ++ [itoa 7]) ->
    ex_rescue_fs !! (getNewDir ex_queue ++ [y]) = None
    /\ forall p', p' <> 7%Z -> in_int64 p' = true -> ex_probe p' = Some ESRCH ->
         y ∉ children ex_rescue_fs (getCurDir ex_queue ++ [itoa p'])).
  { intros y Hy.
    assert (E : children ex_rescue_fs (getCurDir ex_queue ++ [itoa 7]) = ["b"])
      by (vm_compute; reflexivity).
    rewrite E in Hy. apply list_elem_of_singleton in Hy as ->.
    split; [vm_compute; reflexivity |].
    intros p' Hne Hr' _ Hc. apply elem_of_children in Hc as [n Hn].
    assert (Hk : (getCurDir ex_queue ++ [itoa p'] ++ ["b"]) ∈ (map_to_list ex_rescue_fs).*1).
    { apply list_elem_of_fmap. exists (getCurDir ex_queue ++ [itoa p'] ++ ["b"], n).
      split; [reflexivity | apply elem_of_map_to_list, Hn]. }
    assert (Ek : (map_to_list ex_rescue_fs).*1
                 = [["q"; "new"]; ["q"; "cur"]; ["q"]; ["q"; "cur"; "7"; "b"; "prop"];
                    ["q"; "cur"; "7"; "b"]; ["q"; "cur"; "100"; "a"]; ["q"; "cur"; "7"];
                    ["q"; "cur"; "100"]]) by (vm_compute; reflexivity).
    rewrite Ek, Ecur in Hk. simpl in Hk.
    repeat (apply elem_of_cons in Hk as [Hk | Hk];
            [try discriminate Hk; injection Hk as Hk; try discriminate Hk | ]);
      [| apply elem_of_nil in Hk; contradiction].
    apply Hne. apply itoa_inj; [exact Hr' | reflexivity | exact Hk]. }
  pose proof (Hdead 7%Z eq_refl eq_refl ltac:(vm_compute; reflexivity) Hjobs) as [Hmv Hgone].
  split; [exact Hf | split; [exact Hwf | split; [exact Ht | split; [exact HC | split; [exact HN |]]]]].
  split; [exact Hr |].
  split.
  { pose proof (Halive "100" 100%Z eq_refl ltac:(discriminate) ["a"]) as H.
    rewrite Ecur in H. simpl in H. rewrite H. vm_compute. reflexivity. }
  split.
  { pose proof (Hmv "b" ["prop"] ltac:(rewrite Ecur; vm_compute; left)) as H.
    rewrite Enew, Ecur in H. simpl in H. rewrite H. vm_compute. reflexivity. }
  pose proof (Hgone []) as H. rewrite Ecur in H. exact H.
Defined.

(** C2 (as stated): a vanished source makes [Take] retry, and any other
    rename failure is returned as an error.  Refuted both ways: with the
    source [new/X] present and the owner slot [cur/100] missing, the
    rename fails with [ENOENT], which [Take] takes for a lost race and
    retries, forever in this world; and when [cur/100] is a regular file
    (which [OpenQueue] accepts), a vanished source gives [ENOTDIR], which
    [Take] returns as an error. *)
Lemma Take_retry_not_only_source_gone :
  w_fs (ex_world ex_noslot_fs) !! ["q"; "new"; "X"] = Some NDir
  /\ fst (os_rename ["q"; "new"; "X"] ["q"; "cur"; "100"; "X"] (ex_world ex_noslot_fs))
     = Some ENOENT
  /\ fst (take_claim ex_queue "X" (ex_world ex_noslot_fs)) = TakeContinue
  /\ Take 20 ex_queue (ex_world ex_noslot_fs) = (None, ex_world ex_noslot_fs)
  /\ fst (OpenQueue "/q" (ex_world ex_slotfile_fs)) = (Some ex_queue, None)
  /\ ex_slotfile_fs !! ["q"; "new"; "X"] = None
  /\ fst (take_claim ex_queue "X" (ex_world ex_slotfile_fs)) = TakeReturn None (Some ENOTDIR).
Proof. vm_compute. repeat split. Qed.

(** C2 (amended): the claiming rename of [Take] is dispatched on
    [os.IsNotExist]: a not-exist failure makes [Take] go back to the
    listing, and any other failure is returned as the error, with no job.
    In particular, on a tree whose [new] and owner slot are directories,
    the source [new/basename] having been taken by another worker makes
    [Take] retry. *)
Theorem Take_rename_dispatch (q : Queue) (b : string) (w : World) :
  let src := pjoin (pjoin (qbase q) "new") b in
  let d := pjoin (pjoin (qbase q) (mycur (w_pid w))) b in
  (tree_fs (w_fs w) -> plain b = true -> w_fs w !! getNewDir q = Some NDir ->
   w_fs w !! getWorkerDir q (w_pid w) = Some NDir ->
   w_fs w !! src = None -> next_ok w -> fst (take_claim q b w) = TakeContinue)
  /\ (forall e w1, os_rename src d w = (Some e, w1) ->
        take_claim q b w
          = (if is_not_exist e then TakeContinue else TakeReturn None (Some e), w1))
  /\ (forall fuel w1, take_iter q w = (TakeContinue, w1) ->
        Take (S fuel) q w = Take fuel q w1).
Proof.
  intros src d. split; [| split].
  - intros Ht Hb HN HS Hsrc Hok.
    assert (E : fst (fs_rename src d (w_fs w)) = Some ENOENT).
    { assert (Es : src = getNewDir q ++ [b]) by (unfold src; rewrite pjoin_plain by exact Hb; reflexivity).
      assert (Ed : d = getWorkerDir q (w_pid w) ++ [b])
        by (unfold d; rewrite pjoin_plain, pjoin_mycur, getWorkerDir_eq by exact Hb; reflexivity).
      rewrite Es in Hsrc |- *. rewrite Ed.
      unfold fs_rename, sys_rename, lstat_err. rewrite Hsrc, !removelast_last, !dir_status_dir by assumption.
      destruct (w_fs w !! (getWorkerDir q (w_pid w) ++ [b])) as [[|] |]; [| reflexivity | reflexivity].
      simpl. rewrite missing_err_tree; [reflexivity | exact Ht |].
      rewrite removelast_last. right. exact HN. }
    rewrite take_claim_run. simpl.
    unfold os_rename. rewrite syscall_ok by exact Hok. fold src d. rewrite E. reflexivity.
  - intros e w1 H. rewrite take_claim_run. simpl. fold src d. rewrite H. reflexivity.
  - intros fuel w1 H. unfold Take at 1. fold Take. unfold bind at 1. rewrite H. reflexivity.
Qed.

(** C3: when [Set_ j name data] succeeds and the next system call does
    not meet an injected fault, [Get j name] then returns exactly [data]
    with no error, whatever was stored under [name] before. *)
Theorem Set_Get (j : Job) (name : string) (data : list Byte.byte) (w w' : World) :
  Set_ j name data w = (None, w') -> next_ok w' ->
  fst (Get j name w') = (data, None).
Proof.
  intros HS Hok. unfold Get. apply os_readfile_ok; [exact Hok |].
  rewrite Set_run in HS.
  pose proof (create_temp_fs (pjoin (qbase (job_q j)) "tmp") name w) as Hc.
  destruct (create_temp _ _ w) as [[f [e |]] w1]; [discriminate |].
  destruct Hc as (_ & Hf & Hw1 & _).
  pose proof (os_write_fs f data w1) as Hw.
  destruct (os_write f data w1) as [[e |] w2]; [discriminate |].
  destruct Hw as (c & Hc & Hw2). rewrite Hw1, lookup_insert_eq in Hc.
  injection Hc as <-.
  pose proof (os_close_fs f w2) as Hcl.
  destruct (os_close f w2) as [[e |] w3]; [discriminate |]. simpl in Hcl.
  destruct (os_rename f _ w3) as [[e |] w4] eqn:Er; [discriminate |].
  injection HS as <-.
  apply os_rename_ok in Er.
  assert (Hsrc : w_fs w3 !! f = Some (NFile data)).
  { rewrite Hcl, Hw2. apply lookup_insert_eq. }
  apply fs_rename_ok in Er as (_ & _ & [[<- ->] | [Hi ->]]); [exact Hsrc |].
  rewrite move_tree_lookup by exact Hi.
  rewrite decide_True by reflexivity. rewrite drop_all, app_nil_r. exact Hsrc.
Qed.

Lemma Set_Get_witness :
  Set_ ex_job "k" [Byte.x02] (ex_world ex_job_fs)
    = (None, snd (Set_ ex_job "k" [Byte.x02] (ex_world ex_job_fs)))
  /\ fst (Get ex_job "k" (snd (Set_ ex_job "k" [Byte.x02] (ex_world ex_job_fs)))) = ([Byte.x02], None).
Proof.
  assert (H1 : Set_ ex_job "k" [Byte.x02] (ex_world ex_job_fs)
               = (None, snd (Set_ ex_job "k" [Byte.x02] (ex_world ex_job_fs))))
    by (vm_compute; reflexivity).
  assert (H2 : next_ok (snd (Set_ ex_job "k" [Byte.x02] (ex_world ex_job_fs)))) by (vm_compute; exact I).
  split; [exact H1 | exact (Set_Get _ _ _ _ _ H1 H2)].
Defined.

(** C4: for a job created in [tmp] by [CreateJob], a successful [Submit]
    keeps the job's name and queue, moves its directory with its whole
    subtree from [tmp/b] to [new/b] under the same name [b] (the old path
    is gone), sets the job's location to [new/b], and a listing of [new]
    then succeeds and contains [b]. *)
Theorem Submit_created (q : Queue) (pre : string) (w0 w1 w w' : World) (job j' : Job) :
  CreateJob q pre w0 = ((Some job, None), w1) ->
  Submit job w = ((j', None), w') ->
  let b := Basename job in
  Basename j' = b /\ job_q j' = q /\ dir job = qbase q ++ ["tmp"; b]
  /\ dir j' = qbase q ++ ["new"; b]
  /\ (forall r, w_fs w' !! (dir j' ++ r) = w_fs w !! (dir job ++ r))
  /\ (forall r, w_fs w' !! (dir job ++ r) = None)
  /\ exists names, fs_readdir (getNewDir q) (w_fs w') = (names, None) /\ b ∈ names.
Proof.
  intros Hc HS b. apply CreateJob_ok in Hc as (Hb & Hq & Hd & _).
  unfold Submit in HS. subst q.
  apply move_job_moved in HS as (H1 & H2 & H3 & H4 & H5 & H6 & H7 & H8); try reflexivity;
    [| exact Hb | rewrite Hd; intros Heq; apply app_inv_head in Heq; discriminate].
  fold b in H1, H3, H4, H5, H6, H7, H8, Hd |- *.
  split; [exact H1 | split; [exact H2 | split; [exact Hd | split; [exact H3 |]]]].
  split; [intros r; rewrite H3; apply H6 |].
  split; [exact H7 |].
  unfold getNewDir. rewrite qbase_sub by reflexivity.
  unfold fs_readdir. rewrite (dir_status_same (w_fs w)); [| | exact H5].
  - eexists. split; [reflexivity |].
    apply elem_of_children. rewrite <- app_assoc. simpl.
    pose proof (H6 []) as H0. rewrite !app_nil_r in H0. rewrite H0. exact H4.
  - apply H8; apply not_prefix_longer; rewrite ?Hd, !length_app; simpl; lia.
Qed.

Lemma Submit_created_witness :
  let w1 := snd (CreateJob ex_queue "build" (ex_world ex_fresh_fs)) in
  CreateJob ex_queue "build" (ex_world ex_fresh_fs) = ((Some ex_built_job, None), w1)
  /\ exists names, fs_readdir (getNewDir ex_queue) (w_fs (snd (Submit ex_built_job w1))) = (names, None)
                   /\ "build0" ∈ names.
Proof.
  cbv zeta.
  assert (H1 : CreateJob ex_queue "build" (ex_world ex_fresh_fs)
               = ((Some ex_built_job, None), snd (CreateJob ex_queue "build" (ex_world ex_fresh_fs))))
    by (vm_compute; reflexivity).
  set (w1 := snd (CreateJob ex_queue "build" (ex_world ex_fresh_fs))) in *.
  assert (H2 : Submit ex_built_job w1
               = ((fst (fst (Submit ex_built_job w1)), None), snd (Submit ex_built_job w1)))
    by (unfold w1; vm_compute; reflexivity).
  split; [exact H1 |].
  exact (proj2 (proj2 (proj2 (proj2 (proj2 (proj2 (Submit_created _ _ _ _ _ _ _ _ H1 H2))))))).
Defined.

(** C5: for a job held in the owner slot [cur/pid] whose name is not in
    use in [new], a successful [Finish] (resp. [Fail]) sets the job's
    location to [done/b] (resp. [failed/b]); a listing of that directory
    then succeeds and contains [b], while neither the owner slot nor [new]
    lists [b] any more. *)
Theorem Finish_Fail_listed (job j' : Job) (w w' : World) (pid : Z) (sub : string) :
  (Finish job w = ((j', None), w') /\ sub = "done")
  \/ (Fail job w = ((j', None), w') /\ sub = "failed") ->
  plain (Basename job) = true ->
  dir job = qbase (job_q job) ++ ["cur"; itoa pid; Basename job] ->
  w_fs w !! (qbase (job_q job) ++ ["new"; Basename job]) = None ->
  let base := qbase (job_q job) in
  let b := Basename job in
  dir j' = base ++ [sub; b]
  /\ (exists names, fs_readdir (base ++ [sub]) (w_fs w') = (names, None) /\ b ∈ names)
  /\ (b ∉ children (w_fs w') (base ++ ["cur"; itoa pid]))
  /\ (b ∉ children (w_fs w') (base ++ ["new"])).
Proof.
  intros Hop Hb Hd Hnew base b.
  assert (HS : move_job sub job w = ((j', None), w') /\ plain sub = true /\ sub <> "cur"
               /\ sub <> "new")
    by (destruct Hop as [[H ->] | [H ->]]; repeat split; try exact H; discriminate).
  destruct HS as (HS & Hs & Hc & Hn).
  apply move_job_moved in HS as (H1 & H2 & H3 & H4 & H5 & H6 & H7 & H8); try assumption;
    [| rewrite Hd; intros Heq; apply app_inv_head in Heq; congruence].
  fold base b in H1, H3, H4, H5, H6, H7, H8, Hd |- *.
  split; [exact H3 | split; [| split]].
  - unfold fs_readdir. rewrite (dir_status_same (w_fs w)); [| | exact H5].
    + eexists. split; [reflexivity |].
      apply elem_of_children. rewrite <- app_assoc. simpl.
      pose proof (H6 []) as H0. rewrite !app_nil_r in H0. rewrite H0. exact H4.
    + apply H8; apply not_prefix_longer; rewrite ?Hd, !length_app; simpl; lia.
  - rewrite elem_of_children. pose proof (H7 []) as H0. rewrite app_nil_r, Hd in H0.
    rewrite <- app_assoc. simpl. rewrite H0. intros [? ?]; discriminate.
  - rewrite elem_of_children, <- app_assoc. simpl. rewrite H8.
    + fold base b in Hnew. rewrite Hnew. intros [? ?]; discriminate.
    + rewrite Hd. apply not_prefix_fork. discriminate.
    + apply not_prefix_fork. congruence.
Qed.

Lemma Finish_Fail_listed_witness :
  let w' := snd (Finish ex_held_job (ex_world ex_held_fs)) in
  exists names, fs_readdir ["q"; "done"] (w_fs w') = (names, None) /\ "j2" ∈ names.
Proof.
  cbv zeta.
  assert (H1 : Finish ex_held_job (ex_world ex_held_fs)
               = ((fst (fst (Finish ex_held_job (ex_world ex_held_fs))), None),
                  snd (Finish ex_held_job (ex_world ex_held_fs))))
    by (vm_compute; reflexivity).
  exact (proj1 (proj2 (Finish_Fail_listed _ _ _ _ 100%Z "done" (or_introl (conj H1 eq_refl))
                          eq_refl eq_refl ltac:(vm_compute; reflexivity)))).
Defined.

(** C6: when [Set_] fails at any of its steps (creating the temporary
    file, writing it, closing it or the final rename), every path present
    before is still present with the same content; in particular a value
    stored under the key before is read back unchanged by the next [Get],
    unless that read itself meets an injected fault. *)
Theorem Set_fail_keeps (j : Job) (name : string) (data : list Byte.byte) (w w' : World) (e : errno) :
  Set_ j name data w = (Some e, w') ->
  (forall k v, w_fs w !! k = Some v -> w_fs w' !! k = Some v)
  /\ (forall v, w_fs w !! pjoin (dir j) name = Some (NFile v) -> next_ok w' ->
        fst (Get j name w') = (v, None)).
Proof.
  intros HS.
  assert (Hk : forall k v, w_fs w !! k = Some v -> w_fs w' !! k = Some v).
  { rewrite Set_run in HS.
    pose proof (create_temp_fs (pjoin (qbase (job_q j)) "tmp") name w) as Hc.
    destruct (create_temp _ _ w) as [[f [e1 |]] w1];
      [injection HS as _ <-; rewrite Hc; auto |].
    destruct Hc as (_ & Hf & Hw1 & _).
    pose proof (os_write_fs f data w1) as Hw.
    destruct (os_write f data w1) as [[e2 |] w2];
      [injection HS as _ <-; rewrite Hw, Hw1; intros k v; apply insert_fresh_keeps, Hf |].
    destruct Hw as (c & _ & Hw2).
    pose proof (os_close_fs f w2) as Hcl.
    destruct (os_close f w2) as [[e3 |] w3]; simpl in Hcl.
    - injection HS as _ <-. rewrite Hcl, Hw2, Hw1, insert_insert_eq.
      intros k v. apply insert_fresh_keeps, Hf.
    - destruct (os_rename f _ w3) as [[e4 |] w4] eqn:Er; [| discriminate].
      injection HS as _ <-. apply os_rename_err in Er. simpl. rewrite Er, Hcl, Hw2, Hw1, insert_insert_eq.
      intros k v. apply insert_fresh_keeps, Hf. }
  split; [exact Hk |].
  intros v Hv Hok. unfold Get. apply os_readfile_ok; [exact Hok | apply Hk, Hv].
Qed.

Lemma Set_fail_keeps_witness :
  fst (Set_ ex_job "k" [Byte.x02] ex_rename_fails) = Some EIO
  /\ fst (Get ex_job "k" (snd (Set_ ex_job "k" [Byte.x02] ex_rename_fails))) = ([Byte.x01], None).
Proof.
  assert (H1 : Set_ ex_job "k" [Byte.x02] ex_rename_fails
               = (Some EIO, snd (Set_ ex_job "k" [Byte.x02] ex_rename_fails)))
    by (vm_compute; reflexivity).
  split; [rewrite H1; reflexivity |].
  apply (proj2 (Set_fail_keeps _ _ _ _ _ _ H1)); [vm_compute; reflexivity | vm_compute; exact I].
Defined.

(** C7: when the listing of [new] succeeds and is empty, [Take] returns
    "none available" -- a nil job and no error -- rather than failing. *)
Theorem Take_empty_none (fuel : nat) (q : Queue) (w w1 : World) :
  readdirnames (pjoin (qbase q) "new") w = (([], None), w1) ->
  Take (S fuel) q w = (Some (None, None), w1).
Proof.
  intros H. unfold Take, take_iter. unfold bind at 1 2. rewrite H. reflexivity.
Qed.

Lemma Take_empty_none_witness :
  readdirnames (pjoin (qbase ex_queue) "new") (ex_world ex_fresh_fs)
    = (([], None), ex_world ex_fresh_fs)
  /\ Take 1 ex_queue (ex_world ex_fresh_fs) = (Some (None, None), ex_world ex_fresh_fs).
Proof.
  split; [vm_compute; reflexivity |].
  apply (Take_empty_none 0 ex_queue (ex_world ex_fresh_fs) (ex_world ex_fresh_fs)).
  vm_compute. reflexivity.
Defined.

(** C8: when the rename of [Submit], [Finish] or [Fail] (into [new],
    [done] or [failed]) fails with [e], the call returns the job as it
    was together with [e], and the file system is unchanged; conversely,
    whenever one of them returns an error, the job (and so its location)
    and the file system are left as they were. *)
Theorem transition_failure_unchanged (job j' : Job) (w w' : World) (e : errno) :
  (forall (op : Job -> M (Job * option errno)) (sub : string),
     (op = Submit /\ sub = "new") \/ (op = Finish /\ sub = "done") \/ (op = Fail /\ sub = "failed") ->
     os_rename (dir job) (pjoin (pjoin (qbase (job_q job)) sub) (Basename job)) w = (Some e, w') ->
     op job w = ((job, Some e), w') /\ w_fs w' = w_fs w)
  /\ ((Submit job w = ((j', Some e), w') \/ Finish job w = ((j', Some e), w')
       \/ Fail job w = ((j', Some e), w')) ->
      j' = job /\ dir j' = dir job /\ w_fs w' = w_fs w).
Proof.
  split.
  - intros op sub Hop Hr.
    assert (Hm : move_job sub job w = ((job, Some e), w')) by (unfold move_job, bind; rewrite Hr; reflexivity).
    split; [| exact (os_rename_err _ _ _ _ _ Hr)].
    destruct Hop as [[-> ->] | [[-> ->] | [-> ->]]]; exact Hm.
  - unfold Submit, Finish, Fail.
    intros [H | [H | H]]; apply move_job_fail in H as [-> ->]; auto.
Qed.

Lemma transition_failure_unchanged_witness :
  os_rename (dir ex_lost_job) (pjoin (pjoin (qbase (job_q ex_lost_job)) "new") (Basename ex_lost_job))
    (ex_world ex_fresh_fs) = (Some ENOENT, ex_world ex_fresh_fs)
  /\ Submit ex_lost_job (ex_world ex_fresh_fs) = ((ex_lost_job, Some ENOENT), ex_world ex_fresh_fs).
Proof.
  assert (Hr : os_rename (dir ex_lost_job) (pjoin (pjoin (qbase (job_q ex_lost_job)) "new") (Basename ex_lost_job))
                 (ex_world ex_fresh_fs) = (Some ENOENT, ex_world ex_fresh_fs))
    by (vm_compute; reflexivity).
  split; [exact Hr |].
  exact (proj1 (proj1 (transition_failure_unchanged ex_lost_job ex_lost_job _ _ ENOENT)
                 Submit "new" (or_introl (conj eq_refl eq_refl)) Hr)).
Defined.

(** C9 (as stated): when [cur] is an existing file, [OpenQueue] fails
    with [ENOTDIR]; when [tmp] is an existing file, both calls succeed and
    [tmp] is still a file, so the fixed subdirectories do not all exist. *)
Lemma OpenQueue_existing_root_not_dirs :
  fst (OpenQueue "/q" (ex_world ex_curfile_fs)) = (None, Some ENOTDIR)
  /\ fst (OpenQueue "/q" (ex_world ex_tmpfile_fs)) = (Some ex_queue, None)
  /\ fst (OpenQueue "/q" (snd (OpenQueue "/q" (ex_world ex_tmpfile_fs)))) = (Some ex_queue, None)
  /\ w_fs (snd (OpenQueue "/q" (snd (OpenQueue "/q" (ex_world ex_tmpfile_fs))))) !! ["q"; "tmp"]
     = Some (NFile []).
Proof. vm_compute. repeat split. Qed.

(** C9: with no injected failure, [OpenQueue] on a root that resolves to
    a directory, where none of the five fixed subdirectories and the
    caller's owner slot is a file, succeeds; and any successful call leaves
    each of those six paths present, creates nothing else (a changed path
    is one of them, was absent and is now a directory), turns each of them
    that was absent or a directory into a directory, and a second call
    then succeeds with the same result and changes nothing. *)
Theorem OpenQueue_idempotent (d : string) (w : World) :
  w_faults w = [] ->
  (dir_status (w_fs w) (pjoin [] d) = None ->
   (forall p, p ∈ open_paths d (w_pid w) -> w_fs w !! p = None \/ w_fs w !! p = Some NDir) ->
   exists w1, OpenQueue d w = ((Some (mkQueue d ""), None), w1))
  /\ (forall r w1, OpenQueue d w = ((r, None), w1) ->
      r = Some (mkQueue d "")
      /\ (forall p, p ∈ open_paths d (w_pid w) -> is_Some (w_fs w1 !! p))
      /\ (forall k, w_fs w1 !! k <> w_fs w !! k ->
            k ∈ open_paths d (w_pid w) /\ w_fs w !! k = None /\ w_fs w1 !! k = Some NDir)
      /\ (forall p, p ∈ open_paths d (w_pid w) ->
            w_fs w !! p = None \/ w_fs w !! p = Some NDir -> w_fs w1 !! p = Some NDir)
      /\ OpenQueue d w1 = ((r, None), w1)).
Proof.
  intros Hf. split.
  - intros Hroot Hps. exact (OpenQueue_succeeds d w Hf Hroot Hps).
  - intros r w1 H. exact (OpenQueue_again d w w1 r Hf H).
Qed.

Lemma OpenQueue_idempotent_witness :
  w_faults (ex_world ex_rootonly_fs) = []
  /\ (exists w1, OpenQueue "/q" (ex_world ex_rootonly_fs) = ((Some (mkQueue "/q" ""), None), w1))
  /\ OpenQueue "/q" (snd (OpenQueue "/q" (ex_world ex_rootonly_fs)))
     = ((Some (mkQueue "/q" ""), None), snd (OpenQueue "/q" (ex_world ex_rootonly_fs))).
Proof.
  assert (Hf : w_faults (ex_world ex_rootonly_fs) = []) by reflexivity.
  destruct (OpenQueue_idempotent "/q" (ex_world ex_rootonly_fs) Hf) as [H1 H2].
  split; [exact Hf | split].
  - apply H1; [vm_compute; reflexivity |].
    intros p Hp. rewrite open_paths_unfold in Hp. vm_compute in Hp.
    repeat (apply elem_of_cons in Hp as [-> | Hp]; [left; vm_compute; reflexivity |]).
    apply elem_of_nil in Hp. contradiction.
  - assert (E : OpenQueue "/q" (ex_world ex_rootonly_fs)
                = ((Some (mkQueue "/q" ""), None), snd (OpenQueue "/q" (ex_world ex_rootonly_fs))))
      by (vm_compute; reflexivity).
    exact (proj2 (proj2 (proj2 (proj2 (H2 _ _ E))))).
Defined.

(** C10: when the probe of the owner that a slot name parses to fails
    with anything but "no such process", [RescueDeadJobs] leaves the slot
    and everything under it as it was, and, when the listing of the owned
    directory succeeded and showed the slot, the failed probe is logged. *)
Theorem RescueDeadJobs_probe_error (q : Queue) (w w' : World) (r : option errno)
    (s : string) (p : Z) (e : errno) :
  RescueDeadJobs q w = (r, w') -> wf_fs (w_fs w) ->
  atoi s = Some p -> w_probe w p = Some e -> e <> ESRCH ->
  (forall rr, w_fs w' !! (getCurDir q ++ s :: rr) = w_fs w !! (getCurDir q ++ s :: rr))
  /\ (r = None -> s ∈ children (w_fs w) (getCurDir q) -> LogKillFailed p e ∈ w_log w').
Proof.
  intros Hrun Hwf Ea Ep Hne. split.
  - apply (RescueDeadJobs_keeps_slot q w w' r s p Hrun Hwf Ea). congruence.
  - intros -> Hs. revert Hrun. rewrite RescueDeadJobs_run.
    destruct (readdirnames_step (getCurDir q) w) as [Hf1 He1].
    destruct (readdirnames (getCurDir q) w) as [[names [e1 |]] w1] eqn:Erd; [discriminate |].
    apply readdirnames_ok in Erd. simpl in Hf1, He1.
    intros Hrun. injection Hrun as Hw'. subst w'.
    rewrite <- Erd in Hs.
    apply (forM_reach (fun w2 => wf_fs (w_fs w2) /\ same_env w w2)
             (fun w2 => LogKillFailed p e ∈ w_log w2) names (rescue_entry q) s).
    + intros x w2 _ (Hw2 & He2).
      destruct (rescue_entry_coarse q x w2 Hw2) as (Hw3 & He3 & _).
      split; [exact Hw3 | eapply same_env_trans; eassumption].
    + intros x w2 _ (Hw2 & _) Hg.
      destruct (rescue_entry_coarse q x w2 Hw2) as (_ & He3 & _).
      exact (same_env_log _ _ _ He3 Hg).
    + intros w2 (_ & Hpr & _). rewrite rescue_entry_run, Ea, Hpr, Ep.
      destruct (decide (e = ESRCH)) as [E | _]; [contradiction |].
      simpl. apply elem_of_cons. left. reflexivity.
    + exact Hs.
    + split; [rewrite Hf1; exact Hwf | exact He1].
Qed.

Lemma RescueDeadJobs_probe_error_witness :
  LogKillFailed 5 EPERM ∈ w_log (snd (RescueDeadJobs ex_queue ex_eperm_world))
  /\ w_fs (snd (RescueDeadJobs ex_queue ex_eperm_world)) !! (getCurDir ex_queue ++ ["5"; "j"])
     = ex_eperm_fs !! (getCurDir ex_queue ++ ["5"; "j"]).
Proof.
  assert (Hwf : wf_fs (w_fs ex_eperm_world)) by (apply wf_fs_b_ok; vm_compute; reflexivity).
  destruct (RescueDeadJobs_probe_error ex_queue ex_eperm_world
              (snd (RescueDeadJobs ex_queue ex_eperm_world))
              (fst (RescueDeadJobs ex_queue ex_eperm_world)) "5" 5%Z EPERM
              (surjective_pairing _) Hwf eq_refl eq_refl ltac:(discriminate)) as [H1 H2].
  split.
  - apply H2; [vm_compute; reflexivity |].
    apply elem_of_children. vm_compute. eexists. reflexivity.
  - apply H1.
Defined.

(* ================================================================== *)
(** * Further properties of the code *)

(** Listing a directory changes neither the file system nor the log. *)
Lemma readdirnames_log (p : path) (w : World) :
  w_log (snd (readdirnames p w)) = w_log w
  /\ w_fs (snd (readdirnames p w)) = w_fs w.
Proof.
  unfold readdirnames, syscall. destruct (head (w_faults w)) as [[e |] |]; simpl; auto.
Qed.

(** An entry of [cur] whose name is not a number lies outside the part of the tree a rescue may change. *)
Lemma slot_not_footprint_nonpid (q : Queue) (probe : Z -> option errno) (s : string) (rr : path) :
  atoi s = None -> ~ rescue_footprint q probe (getCurDir q ++ s :: rr).
Proof.
  intros Ea (p' & Hr & _ & [Hk | Hk]).
  - rewrite getWorkerDir_eq, getCurDir_eq, <- app_assoc in Hk. simpl in Hk.
    apply prefix_app_inv in Hk. destruct Hk as [l Hl]. simpl in Hl.
    injection Hl as Hs _. rewrite Hs, atoi_itoa in Ea by exact Hr. discriminate.
  - rewrite getNewDir_eq, getCurDir_eq, <- app_assoc in Hk. simpl in Hk.
    apply prefix_app_inv in Hk. destruct Hk as [l Hl]. discriminate.
Qed.

(* ---- extras ---- *)

(** [CreateJob] success: the job belongs to queue [q], its directory is
    [tmp/b] for a name [b] built from the pattern's prefix, a number and
    its suffix; [tmp] was a directory, [tmp/b] was absent, and the only
    change to the file system is the new empty directory [tmp/b]. *)
Theorem CreateJob_fresh_dir (q : Queue) (pre : string) (w w' : World) (job : Job) :
  CreateJob q pre w = ((Some job, None), w') ->
  job_q job = q /\ dir job = qbase q ++ ["tmp"; Basename job]
  /\ dir_status (w_fs w) (qbase q ++ ["tmp"]) = None
  /\ w_fs w !! dir job = None /\ w_fs w' = <[dir job := NDir]> (w_fs w)
  /\ exists p s (r : nat), prefix_and_suffix pre = Some (p, s)
       /\ Basename job = String.append p (String.append (itoa (Z.of_nat r)) s).
Proof.
  unfold CreateJob, bind, mkdir_temp, os_temp.
  destruct (prefix_and_suffix pre) as [[p s] |] eqn:Ep; [| discriminate].
  pose proof (temp_loop_fs fs_mkdir NDir temp_tries (pjoin (qbase q) "tmp") p s w creates_mkdir) as H.
  destruct (temp_loop _ _ _ _ _ w) as [[f [e |]] w1]; [discriminate |].
  intros [= <- <-]. destruct H as ((r & ->) & Hf & Hw & Hd).
  unfold pbase. simpl. rewrite last_snoc. simpl. rewrite qbase_sub in Hf, Hw, Hd |- * by reflexivity.
  rewrite <- app_assoc in Hf, Hw. rewrite <- app_assoc.
  split; [reflexivity | split; [reflexivity | split; [exact Hd | split; [exact Hf | split; [exact Hw |]]]]].
  exists p, s, r. auto.
Qed.

(** A failed [CreateJob] returns no job and leaves the file system as it was. *)
Theorem CreateJob_error_unchanged (q : Queue) (pre : string) (w w' : World)
    (j : option Job) (e : errno) :
  CreateJob q pre w = ((j, Some e), w') -> j = None /\ w_fs w' = w_fs w.
Proof.
  unfold CreateJob, bind, mkdir_temp, os_temp.
  destruct (prefix_and_suffix pre) as [[p s] |] eqn:Ep; [| intros [= <- _ <-]; auto].
  pose proof (temp_loop_fs fs_mkdir NDir temp_tries (pjoin (qbase q) "tmp") p s w creates_mkdir) as H.
  destruct (temp_loop _ _ _ _ _ w) as [[f [e1 |]] w1]; [| discriminate].
  intros [= <- _ <-]. auto.
Qed.

(** [Get] never changes the file system.  Without an injected fault and
    on a tree: a plain key missing from the job's directory gives
    [ENOENT]; a key whose parent is a file (a key [k/x] with [k] a
    property, or a job directory that is a file) gives [ENOTDIR]; a key
    that is a directory gives [EISDIR]; no bytes in any of these cases. *)
Theorem Get_missing_or_dir (j : Job) (name : string) (w : World) :
  w_fs (snd (Get j name w)) = w_fs w
  /\ (next_ok w -> tree_fs (w_fs w) -> plain name = true -> w_fs w !! dir j = Some NDir ->
      w_fs w !! (dir j ++ [name]) = None -> fst (Get j name w) = ([], Some ENOENT))
  /\ (forall c, next_ok w -> tree_fs (w_fs w) -> removelast (pjoin (dir j) name) <> [] ->
      w_fs w !! removelast (pjoin (dir j) name) = Some (NFile c) ->
      w_fs w !! pjoin (dir j) name = None -> fst (Get j name w) = ([], Some ENOTDIR))
  /\ (next_ok w -> w_fs w !! pjoin (dir j) name = Some NDir -> fst (Get j name w) = ([], Some EISDIR)).
Proof.
  unfold Get, os_readfile. split; [| split; [| split]].
  - unfold syscall. destruct (head (w_faults w)) as [[e |] |]; reflexivity.
  - intros Hok Ht Hb Hd Hn. rewrite pjoin_plain by exact Hb.
    rewrite syscall_ok by exact Hok. simpl. unfold fs_readfile. rewrite Hn.
    rewrite missing_err_tree; [reflexivity | exact Ht |]. rewrite removelast_last. right. exact Hd.
  - intros c Hok Ht Hne Hd Hn. rewrite syscall_ok by exact Hok. simpl. unfold fs_readfile. rewrite Hn.
    unfold missing_err. rewrite (walk_dirs_file _ [] _ c Ht Hne Hd). reflexivity.
  - intros Hok Hn. rewrite syscall_ok by exact Hok. simpl. unfold fs_readfile. rewrite Hn. reflexivity.
Qed.

(** For a 64-bit pid, the slot [Take] claims into ([qbase/mycur]) is the
    slot [getWorkerDir] names, i.e. the entry [itoa pid] of [cur], and
    [RescueDeadJobs] parses that entry name back to the same pid. *)
Theorem owner_slot_roundtrip (q : Queue) (p : Z) :
  in_int64 p = true ->
  pjoin (qbase q) (mycur p) = getWorkerDir q p
  /\ getWorkerDir q p = getCurDir q ++ [itoa p]
  /\ atoi (itoa p) = Some p.
Proof.
  intros Hp. rewrite pjoin_mycur, getWorkerDir_eq, getCurDir_eq, <- app_assoc.
  split; [reflexivity | split; [reflexivity | apply atoi_itoa, Hp]].
Qed.

(** [RescueDeadJobs] returns exactly the error of the listing of [cur];
    when that listing fails it changes no file and only logs that it could
    not rescue. *)
Theorem RescueDeadJobs_error_iff_listing (q : Queue) (w : World) :
  fst (RescueDeadJobs q w) = snd (fst (readdirnames (getCurDir q) w))
  /\ (snd (fst (readdirnames (getCurDir q) w)) <> None ->
      w_fs (snd (RescueDeadJobs q w)) = w_fs w
      /\ w_log (snd (RescueDeadJobs q w)) = LogCouldNotRescue (getCurDir q) :: w_log w).
Proof.
  rewrite RescueDeadJobs_run. pose proof (readdirnames_log (getCurDir q) w) as [Hl Hf].
  destruct (readdirnames (getCurDir q) w) as [[names [e |]] w1]; simpl in *.
  - split; [reflexivity |]. intros _. rewrite Hl, Hf. auto.
  - split; [reflexivity |]. intros H. congruence.
Qed.

(** On a well-formed tree, every path whose entry [RescueDeadJobs] changes
    lies under the owner slot of a dead 64-bit pid or under [new]; the pid
    and the process table are kept, and the log only grows. *)
Theorem RescueDeadJobs_footprint (q : Queue) (w : World) :
  wf_fs (w_fs w) ->
  let w' := snd (RescueDeadJobs q w) in
  (forall k, w_fs w' !! k <> w_fs w !! k ->
     exists p, in_int64 p = true /\ w_probe w p = Some ESRCH
       /\ (getWorkerDir q p `prefix_of` k \/ getNewDir q `prefix_of` k))
  /\ w_pid w' = w_pid w /\ w_probe w' = w_probe w /\ exists l, w_log w' = l ++ w_log w.
Proof.
  intros Hwf w'. destruct (RescueDeadJobs_coarse q w Hwf) as (_ & (Hpr & Hpid & Hl) & Hi).
  split; [exact Hi | auto].
Qed.

(** An entry [s] of [cur] that does not parse as a number is left
    untouched with all it contains, and when the rescue completes, having
    listed [s], it has logged [LogNotPid s]. *)
Theorem RescueDeadJobs_skips_non_pid (q : Queue) (w w' : World) (r : option errno) (s : string) :
  RescueDeadJobs q w = (r, w') -> wf_fs (w_fs w) -> atoi s = None ->
  (forall rr, w_fs w' !! (getCurDir q ++ s :: rr) = w_fs w !! (getCurDir q ++ s :: rr))
  /\ (r = None -> s ∈ children (w_fs w) (getCurDir q) -> LogNotPid s ∈ w_log w').
Proof.
  intros Hrun Hwf Ea. split.
  - intros rr. destruct (RescueDeadJobs_coarse q w Hwf) as (_ & _ & Hi).
    rewrite Hrun in Hi. simpl in Hi.
    destruct (decide (w_fs w' !! (getCurDir q ++ s :: rr) = w_fs w !! (getCurDir q ++ s :: rr))) as [E | E];
      [exact E |].
    exfalso. exact (slot_not_footprint_nonpid q (w_probe w) s rr Ea (Hi _ E)).
  - intros -> Hs. revert Hrun. rewrite RescueDeadJobs_run.
    destruct (readdirnames_step (getCurDir q) w) as [Hf1 He1].
    destruct (readdirnames (getCurDir q) w) as [[names [e1 |]] w1] eqn:Erd; [discriminate |].
    apply readdirnames_ok in Erd. simpl in Hf1, He1.
    intros Hrun. injection Hrun as Hw'. subst w'.
    rewrite <- Erd in Hs.
    apply (forM_reach (fun w2 => wf_fs (w_fs w2) /\ same_env w w2)
             (fun w2 => LogNotPid s ∈ w_log w2) names (rescue_entry q) s).
    + intros x w2 _ (Hw2 & He2).
      destruct (rescue_entry_coarse q x w2 Hw2) as (Hw3 & He3 & _).
      split; [exact Hw3 | eapply same_env_trans; eassumption].
    + intros x w2 _ (Hw2 & _) Hg.
      destruct (rescue_entry_coarse q x w2 Hw2) as (_ & He3 & _).
      exact (same_env_log _ _ _ He3 Hg).
    + intros w2 _. rewrite rescue_entry_run, Ea. simpl. apply elem_of_cons. left. reflexivity.
    + exact Hs.
    + split; [rewrite Hf1; exact Hwf | exact He1].
Qed.

(** On a tree, if the queue root does not resolve to a directory, [OpenQueue] fails
    with the error of that resolution ([ENOENT] for a missing root,
    [ENOTDIR] when the root or one of its ancestors is a file) and creates
    nothing. *)
Theorem OpenQueue_bad_root (d : string) (w : World) (e : errno) :
  w_faults w = [] -> tree_fs (w_fs w) -> dir_status (w_fs w) (pjoin [] d) = Some e ->
  fst (OpenQueue d w) = (None, Some e) /\ w_fs (snd (OpenQueue d w)) = w_fs w.
Proof.
  intros Hf _ Hd.
  assert (He : is_exist e = false) by exact (dir_status_not_exist _ _ _ Hd).
  assert (E : ensuredir d "tmp" w = (Some e, set_fs (w_fs w) (set_faults [] w))).
  { rewrite ensuredir_run by exact Hf. rewrite pjoin_plain by reflexivity. unfold fs_mkdir.
    destruct (pjoin [] d ++ ["tmp"]) as [| c p] eqn:Ep; [destruct (pjoin [] d); discriminate |].
    rewrite <- Ep, removelast_last, Hd, He. reflexivity. }
  assert (E2 : ensure_all d (queue_subdirs (w_pid w)) w = (Some e, set_fs (w_fs w) (set_faults [] w))).
  { unfold queue_subdirs. simpl ensure_all. unfold bind at 1. rewrite E. reflexivity. }
  rewrite OpenQueue_run, E2. simpl. auto.
Qed.

(** Drawing a random number keeps the pid. *)
Lemma next_rnd_pid (w : World) : w_pid (snd (next_rnd w)) = w_pid w.
Proof. unfold next_rnd. destruct (w_rnd w); reflexivity. Qed.

(** One round of [Take]: either it claims a listed job by a successful rename into the owner slot, or it changes nothing. *)
Lemma take_iter_cases (q : Queue) (w w1 : World) (st : take_step) :
  take_iter q w = (st, w1) ->
  w_pid w1 = w_pid w /\
  match st with
  | TakeReturn (Some job) e =>
      e = None /\ Basename job ∈ children (w_fs w) (getNewDir q)
      /\ job = mkJob (Basename job) (pjoin (pjoin (qbase q) (mycur (w_pid w))) (Basename job)) q
      /\ fs_rename (pjoin (pjoin (qbase q) "new") (Basename job))
           (pjoin (pjoin (qbase q) (mycur (w_pid w))) (Basename job)) (w_fs w) = (None, w_fs w1)
  | _ => w_fs w1 = w_fs w
  end.
Proof.
  unfold take_iter. unfold bind at 1.
  pose proof (readdirnames_log (pjoin (qbase q) "new") w) as [_ Hf1].
  pose proof (readdirnames_step (pjoin (qbase q) "new") w) as Hs1. cbv zeta in Hs1. unfold same_env in Hs1.
  destruct Hs1 as [_ (_ & Hp1 & _)].
  destruct (readdirnames _ w) as [[names [e |]] w2] eqn:Er; simpl in Hf1, Hp1.
  - intros [= <- <-]. auto.
  - apply readdirnames_ok in Er.
    destruct names as [| n0 ns] eqn:En; [intros [= <- <-]; auto |]. rewrite <- En in *.
    unfold rand_intn, bind at 1 2.
    pose proof (next_rnd_fs w2) as [Hf3 _]. pose proof (next_rnd_pid w2) as Hp3.
    destruct (next_rnd w2) as [r w3]. simpl in Hf3, Hp3. unfold ret.
    set (b := nth (r mod length names) names "").
    assert (Hb : b ∈ names).
    { apply list_elem_of_In, nth_In, Nat.mod_upper_bound. rewrite En. discriminate. }
    rewrite take_claim_run. cbv zeta.
    pose proof (syscall_fields Some (fs_rename (pjoin (pjoin (qbase q) "new") b)
                  (pjoin (pjoin (qbase q) (mycur (w_pid w3))) b)) w3) as (_ & Hp4 & _).
    change (syscall Some _ w3) with (os_rename (pjoin (pjoin (qbase q) "new") b)
                  (pjoin (pjoin (qbase q) (mycur (w_pid w3))) b) w3) in Hp4.
    destruct (os_rename _ _ w3) as [[e |] w4] eqn:Eo; simpl in Hp4.
    + apply os_rename_err in Eo.
      intros H. destruct (is_not_exist e); injection H as <- <-; split; congruence.
    + apply os_rename_ok in Eo. intros [= <- <-]. split; [congruence |].
      simpl. split; [reflexivity | split; [| split; [| ]]].
      * rewrite Er in Hb. unfold getNewDir. exact Hb.
      * rewrite Hp3, Hp1. reflexivity.
      * rewrite Hp3, Hp1 in Eo. rewrite Hf3, Hf1 in Eo. exact Eo.
Qed.

(** All rounds of [Take]: a returned job was listed in [new] and was claimed by one rename; in every other outcome nothing changed. *)
Lemma Take_cases (fuel : nat) (q : Queue) (w w' : World) (r : option (option Job * option errno)) :
  Take fuel q w = (r, w') ->
  w_pid w' = w_pid w /\
  match r with
  | Some (Some job, e) =>
      e = None /\ Basename job ∈ children (w_fs w) (getNewDir q)
      /\ job = mkJob (Basename job) (pjoin (pjoin (qbase q) (mycur (w_pid w))) (Basename job)) q
      /\ fs_rename (pjoin (pjoin (qbase q) "new") (Basename job))
           (pjoin (pjoin (qbase q) (mycur (w_pid w))) (Basename job)) (w_fs w) = (None, w_fs w')
  | _ => w_fs w' = w_fs w
  end.
Proof.
  revert w r w'. induction fuel as [| f IH]; intros w r w' H.
  - injection H as <- <-. auto.
  - simpl in H. unfold bind at 1 in H.
    destruct (take_iter q w) as [st w1] eqn:Et. apply take_iter_cases in Et as [Hp Hst].
    destruct st as [| j e].
    + apply IH in H as [Hp' Hr]. split; [congruence |]. rewrite <- Hst, <- Hp. exact Hr.
    + injection H as <- <-. split; [exact Hp |]. destruct j; exact Hst.
Qed.

(** Whenever [Take] returns no job (nothing available, an error, or
    rounds still retrying), the file system is exactly as before. *)
Theorem Take_no_job_no_change (fuel : nat) (q : Queue) (w w' : World)
    (r : option (option Job * option errno)) :
  Take fuel q w = (r, w') -> (forall j e, r <> Some (Some j, e)) ->
  w_fs w' = w_fs w /\ w_pid w' = w_pid w.
Proof.
  intros H Hn. apply Take_cases in H as [Hp Hr]. split; [| exact Hp].
  destruct r as [[[j |] e] |]; [exfalso; exact (Hn j e eq_refl) | exact Hr | exact Hr].
Qed.

(** A job returned by [Take] has no error, belongs to [q], was listed in
    [new] under its name [b], and now lives at [cur/pid/b] holding exactly
    the former subtree of [new/b]; [new/b] is gone and every other path is
    unchanged. *)
Theorem Take_claims_listed (fuel : nat) (q : Queue) (w w' : World) (job : Job) (e : option errno) :
  Take fuel q w = (Some (Some job, e), w') -> wf_fs (w_fs w) ->
  let b := Basename job in
  e = None /\ job_q job = q /\ dir job = getWorkerDir q (w_pid w) ++ [b]
  /\ b ∈ children (w_fs w) (getNewDir q)
  /\ (forall r, w_fs w' !! (dir job ++ r) = w_fs w !! (getNewDir q ++ b :: r))
  /\ (forall r, w_fs w' !! (getNewDir q ++ b :: r) = None)
  /\ (forall k, ~ (getNewDir q ++ [b]) `prefix_of` k -> ~ dir job `prefix_of` k ->
        w_fs w' !! k = w_fs w !! k).
Proof.
  intros H Hwf b. apply Take_cases in H as (_ & He & Hb & Hj & Hr).
  fold b in Hb, Hj, Hr.
  assert (Hpl : plain b = true) by exact (wf_children _ _ _ Hwf Hb).
  rewrite qbase_sub, pjoin_plain, pjoin_mycur, pjoin_plain in Hr by first [assumption | reflexivity].
  rewrite pjoin_mycur, pjoin_plain in Hj by first [assumption | reflexivity].
  apply rename_moved in Hr.
  2: { rewrite <- !app_assoc. simpl. intros Heq. apply app_inv_head in Heq. discriminate. }
  destruct Hr as (_ & _ & H1 & H2 & H3).
  rewrite Hj. simpl. rewrite getWorkerDir_eq, getNewDir_eq. rewrite getNewDir_eq in Hb.
  split; [exact He | split; [reflexivity | split; [reflexivity | split; [exact Hb |]]]].
  split; [| split].
  - intros r. pose proof (H1 r) as H. repeat rewrite <- app_assoc in H. repeat rewrite <- app_assoc. simpl in H |- *. exact H.
  - intros r. pose proof (H2 r) as H. repeat rewrite <- app_assoc in H. repeat rewrite <- app_assoc. simpl in H |- *. exact H.
  - intros k Hk1 Hk2. apply H3; assumption.
Qed.

(** In a tree, nothing lies strictly below a path that is not a directory. *)
Lemma tree_nothing_below (fs : FS) (S : path) (c : string) (rr : path) :
  tree_fs fs -> S <> [] -> fs !! S <> Some NDir -> fs !! (S ++ c :: rr) = None.
Proof.
  intros Ht HS0 HN. destruct (fs !! (S ++ c :: rr)) as [n |] eqn:E; [| reflexivity].
  destruct (tree_below fs S c rr n Ht HS0 E) as [n' E'].
  destruct (Ht S c n' E') as [-> | E2]; [contradiction | congruence].
Qed.

(** A path is never equal to one of its proper extensions. *)
Lemma app_cons_neq (l : path) (c : string) (r : path) : l ++ c :: r <> l.
Proof. intros H. apply (f_equal length) in H. rewrite length_app in H. simpl in H. lia. Qed.

(** A successful [Set] of a plain key on a tree has exactly one effect:
    the file [key] in the job's directory now holds the data (the
    temporary file is gone). *)
Theorem Set_ok_effect (j : Job) (name : string) (data : list Byte.byte) (w w' : World) :
  Set_ j name data w = (None, w') -> tree_fs (w_fs w) -> plain name = true ->
  w_fs w' = <[dir j ++ [name] := NFile data]> (w_fs w).
Proof.
  intros HS Ht Hn. rewrite Set_run in HS.
  pose proof (create_temp_fs (pjoin (qbase (job_q j)) "tmp") name w) as Hc.
  destruct (create_temp _ _ w) as [[f [e |]] w1]; [discriminate |].
  destruct Hc as ((pre & suf & _ & r & Ef) & Hf & Hw1 & _).
  pose proof (os_write_fs f data w1) as Hw.
  destruct (os_write f data w1) as [[e |] w2]; [discriminate |].
  destruct Hw as (c & Hc & Hw2).
  rewrite Hw1, lookup_insert_eq in Hc. injection Hc as <-. simpl in Hw2.
  pose proof (os_close_fs f w2) as Hcl.
  destruct (os_close f w2) as [[e |] w3]; [discriminate |]. simpl in Hcl.
  destruct (os_rename f _ w3) as [[e |] w4] eqn:Er; [discriminate |].
  injection HS as <-. apply os_rename_ok in Er.
  rewrite pjoin_plain in Er by exact Hn.
  rewrite Hcl, Hw2, Hw1, insert_insert_eq in Er.
  set (fs := w_fs w) in *. set (dst := dir j ++ [name]) in *.
  assert (Hfne : f <> []) by (rewrite Ef; destruct (pjoin _ _); discriminate).
  assert (Hdne : dst <> []) by (unfold dst; destruct (dir j); discriminate).
  pose proof Er as Er0.
  apply fs_rename_ok in Er as (_ & _ & [[Heq Hfs] | [Hinc Hfs]]).
  { rewrite Hfs, Heq. reflexivity. }
  assert (Hdst : fs !! dst <> Some NDir).
  { intros E. assert (Hne : f <> dst) by (intros ->; destruct Hinc as [H _]; apply H; reflexivity).
    unfold fs_rename, lstat_err in Er0. rewrite lookup_insert_ne, E, lookup_insert_eq in Er0 by exact Hne.
    discriminate. }
  apply map_eq. intros k. rewrite Hfs, move_tree_lookup by exact Hinc.
  destruct (decide (dst `prefix_of` k)) as [[rr ->] | Hnd].
  - rewrite drop_app_length. destruct rr as [| c rr].
    + rewrite !app_nil_r, !lookup_insert_eq. reflexivity.
    + rewrite !lookup_insert_ne by (intros E; symmetry in E; exact (app_cons_neq _ _ _ E)).
      rewrite !tree_nothing_below; try assumption; [reflexivity | congruence].
  - destruct (decide (f `prefix_of` k)) as [[rr ->] | Hnf].
    + rewrite lookup_insert_ne by (intros E; apply Hnd; rewrite <- E; reflexivity).
      destruct rr as [| c rr]; [rewrite app_nil_r; symmetry; exact Hf |].
      symmetry. apply tree_nothing_below; [exact Ht | exact Hfne | congruence].
    + rewrite !lookup_insert_ne; [reflexivity | |];
        intros E; [apply Hnd | apply Hnf]; rewrite E; reflexivity.
Qed.

(** Entries of [new] and of an owner slot never contain one another. *)
Lemma new_slot_incomparable (q : Queue) (pid : Z) (b b' : string) :
  incomparable (getNewDir q ++ [b]) (getWorkerDir q pid ++ [b']).
Proof.
  rewrite getNewDir_eq, getWorkerDir_eq, <- !app_assoc. simpl.
  split; intros H; apply prefix_app_inv in H; destruct H as [l Hl]; discriminate.
Qed.

(** With no fault, if [new] lists exactly the job [b] and the owner slot
    is a directory with no entry [b], [Take] returns the job [b] located
    at [cur/pid/b] within its first round, having moved the subtree of
    [new/b] there. *)
Theorem Take_single_job (fuel : nat) (q : Queue) (w : World) (b : string) :
  w_faults w = [] -> wf_fs (w_fs w) ->
  w_fs w !! getNewDir q = Some NDir -> children (w_fs w) (getNewDir q) = [b] ->
  w_fs w !! getWorkerDir q (w_pid w) = Some NDir ->
  w_fs w !! (getWorkerDir q (w_pid w) ++ [b]) = None ->
  fst (Take (S fuel) q w) = Some (Some (mkJob b (getWorkerDir q (w_pid w) ++ [b]) q), None)
  /\ w_fs (snd (Take (S fuel) q w))
     = move_tree (getNewDir q ++ [b]) (getWorkerDir q (w_pid w) ++ [b]) (w_fs w).
Proof.
  intros Hf Hwf HN Hc HS Hd.
  assert (Hb : plain b = true) by (apply (wf_children _ (getNewDir q) _ Hwf); rewrite Hc; left).
  assert (Hsrc : is_Some (w_fs w !! (getNewDir q ++ [b]))) by (apply elem_of_children; rewrite Hc; left).
  destruct Hsrc as [n Hn].
  assert (Hti : exists w4, take_iter q w
            = (TakeReturn (Some (mkJob b (getWorkerDir q (w_pid w) ++ [b]) q)) None, w4)
          /\ w_fs w4 = move_tree (getNewDir q ++ [b]) (getWorkerDir q (w_pid w) ++ [b]) (w_fs w)).
  { unfold take_iter, bind at 1. unfold readdirnames.
    rewrite syscall_ok by (unfold next_ok; rewrite Hf; exact I).
    change (pjoin (qbase q) "new") with (getNewDir q).
    unfold fs_readdir. rewrite (dir_status_dir _ _ HN), Hc. simpl fst.
    set (w1 := set_fs _ _).
    unfold rand_intn, bind at 1 2. cbv beta iota delta [fst].
    pose proof (next_rnd_fs w1) as [Hf3 Hq3]. pose proof (next_rnd_pid w1) as Hp3.
    destruct (next_rnd w1) as [r w3]. simpl in Hf3, Hq3, Hp3. unfold ret.
    cbv beta iota delta [fst].
    simpl length. rewrite Nat.mod_1_r. simpl nth.
    rewrite take_claim_run. cbv zeta. unfold os_rename.
    rewrite syscall_ok by (unfold next_ok; rewrite Hq3; simpl; rewrite Hf; exact I).
    rewrite Hp3, Hf3. simpl w_fs. simpl w_pid.
    change (pjoin (qbase q) "new") with (getNewDir q).
    rewrite pjoin_plain by exact Hb.
    assert (Ed : pjoin (pjoin (qbase q) (mycur (w_pid w))) b = getWorkerDir q (w_pid w) ++ [b])
      by (rewrite pjoin_plain, pjoin_mycur, getWorkerDir_eq by exact Hb; reflexivity).
    rewrite Ed.
    destruct (new_slot_incomparable q (w_pid w) b b) as [H1 H2].
    rewrite (rename_fresh _ _ _ n Hn); [simpl; eexists; split; reflexivity | | | split; assumption | exact Hd];
      rewrite removelast_last; apply dir_status_dir; assumption. }
  destruct Hti as (w4 & Hti & Hw4).
  cbn [Take]. unfold bind. rewrite Hti. split; [reflexivity | exact Hw4].
Qed.

(** Without a fault, on a tree, [ensuredir] under an existing parent directory
    succeeds: it creates the directory when the path is absent and changes
    nothing when the path already exists, whether as a directory or as a
    regular file; when the parent does not resolve to a directory it fails
    with the error of that resolution ([ENOENT] for a missing parent,
    [ENOTDIR] when the parent or one of its ancestors is a file) and
    changes nothing. *)
Theorem ensuredir_result (a b : string) (w : World) (p : path) :
  w_faults w = [] -> tree_fs (w_fs w) -> pjoin (pjoin [] a) b = p -> p <> [] ->
  (dir_status (w_fs w) (removelast p) = None ->
     fst (ensuredir a b w) = None
     /\ w_fs (snd (ensuredir a b w))
        = match w_fs w !! p with Some _ => w_fs w | None => <[p := NDir]> (w_fs w) end)
  /\ (forall e, dir_status (w_fs w) (removelast p) = Some e ->
       fst (ensuredir a b w) = Some e /\ w_fs (snd (ensuredir a b w)) = w_fs w).
Proof.
  intros Hf _ Hp Hne. rewrite ensuredir_run by exact Hf. rewrite Hp.
  unfold fs_mkdir. destruct p as [| c p']; [contradiction |]. set (p := c :: p') in *.
  split.
  - intros Hd. rewrite Hd. destruct (w_fs w !! p); split; reflexivity.
  - intros e Hd. rewrite Hd.
    rewrite (dir_status_not_exist _ _ _ Hd). split; reflexivity.
Qed.

Lemma ensuredir_result_witness :
  w_faults (ex_world ex_tmpfile_fs) = [] /\ pjoin (pjoin [] "/q") "tmp" = ["q"; "tmp"]
  /\ dir_status ex_tmpfile_fs ["q"] = None
  /\ fst (ensuredir "/q" "tmp" (ex_world ex_tmpfile_fs)) = None
  /\ w_fs (snd (ensuredir "/q" "tmp" (ex_world ex_tmpfile_fs))) = ex_tmpfile_fs.
Proof.
  assert (Hf : w_faults (ex_world ex_tmpfile_fs) = []) by reflexivity.
  assert (Hp : pjoin (pjoin [] "/q") "tmp" = ["q"; "tmp"]) by (vm_compute; reflexivity).
  assert (Hd : dir_status ex_tmpfile_fs ["q"] = None) by (vm_compute; reflexivity).
  assert (Ht : tree_fs ex_tmpfile_fs) by (apply tree_fs_b_ok; vm_compute; reflexivity).
  destruct (ensuredir_result "/q" "tmp" (ex_world ex_tmpfile_fs) ["q"; "tmp"] Hf Ht Hp
              ltac:(discriminate)) as [H _].
  destruct (H Hd) as [H1 H2].
  split; [exact Hf | split; [exact Hp | split; [exact Hd | split; [exact H1 |]]]].
  rewrite H2. vm_compute. reflexivity.
Defined.


Lemma Take_single_job_witness :
  w_faults (ex_world ex_take_fs) = []
  /\ fst (Take 1 ex_queue (ex_world ex_take_fs))
     = Some (Some (mkJob "X" ["q"; "cur"; "100"; "X"] ex_queue), None).
Proof.
  assert (Hf : w_faults (ex_world ex_take_fs) = []) by reflexivity.
  assert (Hwf : wf_fs ex_take_fs) by (apply wf_fs_b_ok; vm_compute; reflexivity).
  destruct (Take_single_job 0 ex_queue (ex_world ex_take_fs) "X" Hf Hwf
              ltac:(vm_compute; reflexivity) ltac:(vm_compute; reflexivity)
              ltac:(vm_compute; reflexivity) ltac:(vm_compute; reflexivity)) as [H _].
  split; [exact Hf | exact H].
Defined.

Lemma CreateJob_fresh_dir_witness :
  CreateJob ex_queue "build" (ex_world ex_fresh_fs)
    = ((Some ex_built_job, None), snd (CreateJob ex_queue "build" (ex_world ex_fresh_fs)))
  /\ w_fs (snd (CreateJob ex_queue "build" (ex_world ex_fresh_fs)))
     = <[dir ex_built_job := NDir]> ex_fresh_fs.
Proof.
  assert (H1 : CreateJob ex_queue "build" (ex_world ex_fresh_fs)
    = ((Some ex_built_job, None), snd (CreateJob ex_queue "build" (ex_world ex_fresh_fs))))
    by (vm_compute; reflexivity).
  split; [exact H1 |].
  exact (proj1 (proj2 (proj2 (proj2 (proj2 (CreateJob_fresh_dir _ _ _ _ _ H1)))))).
Defined.

Lemma CreateJob_error_unchanged_witness :
  CreateJob ex_queue "build" (ex_world ex_rootonly_fs)
    = ((None, Some ENOENT), snd (CreateJob ex_queue "build" (ex_world ex_rootonly_fs)))
  /\ w_fs (snd (CreateJob ex_queue "build" (ex_world ex_rootonly_fs))) = ex_rootonly_fs.
Proof.
  assert (H1 : CreateJob ex_queue "build" (ex_world ex_rootonly_fs)
    = ((None, Some ENOENT), snd (CreateJob ex_queue "build" (ex_world ex_rootonly_fs))))
    by (vm_compute; reflexivity).
  split; [exact H1 | exact (proj2 (CreateJob_error_unchanged _ _ _ _ _ _ H1))].
Defined.

Lemma owner_slot_roundtrip_witness :
  in_int64 100 = true /\ getWorkerDir ex_queue 100 = getCurDir ex_queue ++ [itoa 100].
Proof.
  assert (H : in_int64 100 = true) by reflexivity.
  split; [exact H | exact (proj1 (proj2 (owner_slot_roundtrip ex_queue 100 H)))].
Defined.

Lemma RescueDeadJobs_footprint_witness :
  wf_fs ex_rescue_fs
  /\ w_pid (snd (RescueDeadJobs ex_queue (ex_world ex_rescue_fs))) = 100%Z.
Proof.
  assert (Hwf : wf_fs ex_rescue_fs) by (apply wf_fs_b_ok; vm_compute; reflexivity).
  pose proof (RescueDeadJobs_footprint ex_queue (ex_world ex_rescue_fs) Hwf) as H.
  cbv zeta in H. split; [exact Hwf | exact (proj1 (proj2 H))].
Defined.

Lemma RescueDeadJobs_skips_non_pid_witness :
  wf_fs ex_foo_fs /\ atoi "foo" = None
  /\ w_fs (snd (RescueDeadJobs ex_queue (ex_world ex_foo_fs))) !! (getCurDir ex_queue ++ ["foo"; "z"])
     = Some NDir
  /\ LogNotPid "foo" ∈ w_log (snd (RescueDeadJobs ex_queue (ex_world ex_foo_fs))).
Proof.
  assert (Hwf : wf_fs ex_foo_fs) by (apply wf_fs_b_ok; vm_compute; reflexivity).
  assert (Ha : atoi "foo" = None) by (vm_compute; reflexivity).
  assert (H1 : RescueDeadJobs ex_queue (ex_world ex_foo_fs)
    = (None, snd (RescueDeadJobs ex_queue (ex_world ex_foo_fs)))) by (vm_compute; reflexivity).
  pose proof (RescueDeadJobs_skips_non_pid _ _ _ _ "foo" H1 Hwf Ha) as [Hs Hl].
  split; [exact Hwf | split; [exact Ha | split]].
  - rewrite (Hs ["z"]). vm_compute. reflexivity.
  - apply Hl; [reflexivity |]. vm_compute. left.
Defined.

Lemma OpenQueue_bad_root_witness :
  w_faults (ex_world ex_xfile_fs) = [] /\ tree_fs ex_xfile_fs
  /\ dir_status (w_fs (ex_world ex_xfile_fs)) (pjoin [] "/x/y") = Some ENOTDIR
  /\ fst (OpenQueue "/x/y" (ex_world ex_xfile_fs)) = (None, Some ENOTDIR)
  /\ w_fs (snd (OpenQueue "/x/y" (ex_world ex_xfile_fs))) = ex_xfile_fs.
Proof.
  assert (Hf : w_faults (ex_world ex_xfile_fs) = []) by reflexivity.
  assert (Ht : tree_fs ex_xfile_fs) by (apply tree_fs_b_ok; vm_compute; reflexivity).
  assert (Hd : dir_status (w_fs (ex_world ex_xfile_fs)) (pjoin [] "/x/y") = Some ENOTDIR)
    by (vm_compute; reflexivity).
  split; [exact Hf | split; [exact Ht | split; [exact Hd | exact (OpenQueue_bad_root _ _ _ Hf Ht Hd)]]].
Defined.

Lemma Take_no_job_no_change_witness :
  Take 20 ex_queue (ex_world ex_noslot_fs) = (None, snd (Take 20 ex_queue (ex_world ex_noslot_fs)))
  /\ w_fs (snd (Take 20 ex_queue (ex_world ex_noslot_fs))) = ex_noslot_fs.
Proof.
  assert (H1 : Take 20 ex_queue (ex_world ex_noslot_fs)
    = (None, snd (Take 20 ex_queue (ex_world ex_noslot_fs)))) by (vm_compute; reflexivity).
  split; [exact H1 |].
  refine (proj1 (Take_no_job_no_change _ _ _ _ _ H1 _)). intros j e. discriminate.
Defined.

Lemma Take_claims_listed_witness :
  let w' := snd (Take 5 ex_queue (ex_world ex_take_fs)) in
  let job := mkJob "X" ["q"; "cur"; "100"; "X"] ex_queue in
  Take 5 ex_queue (ex_world ex_take_fs) = (Some (Some job, None), w') /\ wf_fs ex_take_fs
  /\ w_fs w' !! ["q"; "new"; "X"] = None.
Proof.
  cbv zeta.
  assert (H1 : Take 5 ex_queue (ex_world ex_take_fs)
    = (Some (Some (mkJob "X" ["q"; "cur"; "100"; "X"] ex_queue), None),
       snd (Take 5 ex_queue (ex_world ex_take_fs)))) by (vm_compute; reflexivity).
  assert (Hwf : wf_fs ex_take_fs) by (apply wf_fs_b_ok; vm_compute; reflexivity).
  pose proof (Take_claims_listed _ _ _ _ _ _ H1 Hwf) as H. cbv zeta in H.
  destruct H as (_ & _ & _ & _ & _ & Hg & _).
  split; [exact H1 | split; [exact Hwf |]].
  exact (Hg []).
Defined.

Lemma Set_ok_effect_witness :
  Set_ ex_job "k" [Byte.x02] (ex_world ex_job_fs)
    = (None, snd (Set_ ex_job "k" [Byte.x02] (ex_world ex_job_fs)))
  /\ tree_fs ex_job_fs /\ plain "k" = true
  /\ w_fs (snd (Set_ ex_job "k" [Byte.x02] (ex_world ex_job_fs)))
     = <[["q"; "tmp"; "j1"; "k"] := NFile [Byte.x02]]> ex_job_fs.
Proof.
  assert (H1 : Set_ ex_job "k" [Byte.x02] (ex_world ex_job_fs)
    = (None, snd (Set_ ex_job "k" [Byte.x02] (ex_world ex_job_fs)))) by (vm_compute; reflexivity).
  assert (Ht : tree_fs ex_job_fs) by (apply tree_fs_b_ok; vm_compute; reflexivity).
  assert (Hn : plain "k" = true) by reflexivity.
  split; [exact H1 | split; [exact Ht | split; [exact Hn |]]].
  exact (Set_ok_effect _ _ _ _ _ H1 Ht Hn).
Defined.

